(** * SidesHub: cached counters and their reconciliation

    A shallow embedding of the storage layer ([DatabaseStorage], the
    version that maintains the cached [viewCount] / [likeCount] /
    [commentCount] columns) and of the count synchronisation job
    ([syncAllCounts] and friends), together with the properties of the
    counter subsystem.

    Tables are lists of rows in insertion order.  Every awaited Drizzle
    statement is one round trip to the store: it may be refused by the
    store (a scheduled fault), it may violate a constraint declared in
    the schema (primary key, foreign key), or it is carried out.  Nothing
    is wrapped in a transaction, so the rows written before a statement
    throws stay written.  Console output is not modelled. *)

From Stdlib Require Import String List ZArith Bool Arith Lia Sorted Permutation.
Import ListNotations.
Open Scope string_scope.
Open Scope list_scope.

Set Implicit Arguments.

(** ** Schema *)

Definition Id := string.
Definition Timestamp := nat.

(** [eq(column, value)] on a [notNull] varchar column. *)
Definition eqId (a b : Id) : bool := String.eqb a b.

(** [eq(column, value)] on a nullable column: NULL matches nothing. *)
Definition eqNullable (a : option Id) (b : Id) : bool :=
  match a with
  | Some x => String.eqb x b
  | None => false
  end.

(** JavaScript truthiness of a [string | null | undefined] value, as in
    [if (comment.projectId)]: null, undefined and the empty string are
    falsy. *)
Definition truthy (a : option Id) : bool :=
  match a with
  | Some x => negb (String.eqb x EmptyString)
  | None => false
  end.

Module User.
Record t := mk {
    id : Id;
    email : option string;
    firstName : option string;
    lastName : option string;
    profileImageUrl : option string;
    createdAt : Timestamp;
    updatedAt : Timestamp
  }.
End User.

Module Project.
(** Modelled from the spec: the columns [viewCount], [likeCount],
      [commentCount] and [countsLastUpdated] are used by the storage
      layer and by the sync job but the schema that declares them is not
      part of the sources at hand; they are integer columns defaulting to
      0 and a nullable timestamp. *)
Record t := mk {
    id : Id;
    title : string;
    shortDescription : string;
    detailedDescription : string;
    thumbnailUrl : option string;
    demoUrl : option string;
    sourceUrl : option string;
    tags : option (list string);
    techStack : option (list string);
    userId : Id;
    isFeatured : bool;
    viewCount : Z;
    likeCount : Z;
    commentCount : Z;
    countsLastUpdated : option Timestamp;
    createdAt : Timestamp;
    updatedAt : Timestamp
  }.

(** [.set({ viewCount: v, likeCount: l, commentCount: c,
              countsLastUpdated: u })]: the four columns are replaced and
      every other column is kept. *)
Definition with_counts (v l c : Z) (u : option Timestamp) (p : t) : t :=
    mk (id p) (title p) (shortDescription p) (detailedDescription p)
       (thumbnailUrl p) (demoUrl p) (sourceUrl p) (tags p) (techStack p)
       (userId p) (isFeatured p) v l c u (createdAt p) (updatedAt p).

(** [.set({ viewCount: sql`viewCount + 1` })] and its siblings: a
      relative update of one counter column. *)
Definition add_viewCount (d : Z) (p : t) : t :=
    with_counts (viewCount p + d) (likeCount p) (commentCount p)
                (countsLastUpdated p) p.
Definition add_likeCount (d : Z) (p : t) : t :=
    with_counts (viewCount p) (likeCount p + d) (commentCount p)
                (countsLastUpdated p) p.
Definition add_commentCount (d : Z) (p : t) : t :=
    with_counts (viewCount p) (likeCount p) (commentCount p + d)
                (countsLastUpdated p) p.
End Project.

Module ProjectLike.
Record t := mk {
    id : Id;
    projectId : Id;
    userId : Id;
    createdAt : Timestamp
  }.
End ProjectLike.

Module ProjectBookmark.
Record t := mk {
    id : Id;
    projectId : Id;
    userId : Id;
    createdAt : Timestamp
  }.
End ProjectBookmark.

Module CommunityPost.
(** Modelled from the spec: [likeCount], [commentCount] and
      [countsLastUpdated], as for projects. *)
Record t := mk {
    id : Id;
    title : string;
    content : string;
    isPinned : bool;
    userId : Id;
    likeCount : Z;
    commentCount : Z;
    countsLastUpdated : option Timestamp;
    createdAt : Timestamp;
    updatedAt : Timestamp
  }.

Definition with_counts (l c : Z) (u : option Timestamp) (p : t) : t :=
    mk (id p) (title p) (content p) (isPinned p) (userId p) l c u
       (createdAt p) (updatedAt p).

Definition add_likeCount (d : Z) (p : t) : t :=
    with_counts (likeCount p + d) (commentCount p) (countsLastUpdated p) p.
Definition add_commentCount (d : Z) (p : t) : t :=
    with_counts (likeCount p) (commentCount p + d) (countsLastUpdated p) p.
End CommunityPost.

Module PostLike.
Record t := mk {
    id : Id;
    postId : Id;
    userId : Id;
    createdAt : Timestamp
  }.
End PostLike.

Module Comment.
Record t := mk {
    id : Id;
    content : string;
    projectId : option Id;
    postId : option Id;
    userId : Id;
    createdAt : Timestamp;
    updatedAt : Timestamp
  }.
End Comment.

Module ProjectView.
(** Modelled from the spec: the [projectViews] table is imported by the
      sync job but its declaration is not part of the sources at hand.
      The spec gives it an id, a project id, an optional user id
      (anonymous views are recorded by IP address) and a timestamp. *)
Record t := mk {
    id : Id;
    projectId : Id;
    userId : option Id;
    ipAddress : option string;
    createdAt : Timestamp
  }.
End ProjectView.

(** [InsertComment]: the comment schema without [id], [createdAt] and
    [updatedAt]. *)
Module InsertComment.
Record t := mk {
    content : string;
    projectId : option Id;
    postId : option Id;
    userId : Id
  }.
End InsertComment.

(** ** The database *)

Record DB := mkDB {
  users : list User.t;
  projects : list Project.t;
  projectLikes : list ProjectLike.t;
  projectBookmarks : list ProjectBookmark.t;
  communityPosts : list CommunityPost.t;
  postLikes : list PostLike.t;
  comments : list Comment.t;
  projectViews : list ProjectView.t
}.

Definition set_projects (ps : list Project.t) (d : DB) : DB :=
  mkDB (users d) ps (projectLikes d) (projectBookmarks d)
       (communityPosts d) (postLikes d) (comments d) (projectViews d).
Definition set_projectLikes (ls : list ProjectLike.t) (d : DB) : DB :=
  mkDB (users d) (projects d) ls (projectBookmarks d)
       (communityPosts d) (postLikes d) (comments d) (projectViews d).
Definition set_projectBookmarks (bs : list ProjectBookmark.t) (d : DB) : DB :=
  mkDB (users d) (projects d) (projectLikes d) bs
       (communityPosts d) (postLikes d) (comments d) (projectViews d).
Definition set_communityPosts (ps : list CommunityPost.t) (d : DB) : DB :=
  mkDB (users d) (projects d) (projectLikes d) (projectBookmarks d)
       ps (postLikes d) (comments d) (projectViews d).
Definition set_postLikes (ls : list PostLike.t) (d : DB) : DB :=
  mkDB (users d) (projects d) (projectLikes d) (projectBookmarks d)
       (communityPosts d) ls (comments d) (projectViews d).
Definition set_comments (cs : list Comment.t) (d : DB) : DB :=
  mkDB (users d) (projects d) (projectLikes d) (projectBookmarks d)
       (communityPosts d) (postLikes d) cs (projectViews d).
Definition set_projectViews (vs : list ProjectView.t) (d : DB) : DB :=
  mkDB (users d) (projects d) (projectLikes d) (projectBookmarks d)
       (communityPosts d) (postLikes d) (comments d) vs.

(** ** The world a storage call runs in

    Besides the database: the faults the store will answer the coming
    statements with ([true]: the statement is refused; an exhausted
    schedule means no more faults), the values [gen_random_uuid()] will
    draw, and the wall clock read by [defaultNow()] and [new Date()]. *)

Record World := mkWorld {
  db : DB;
  faults : list bool;
  entropy : nat -> Id;
  drawn : nat;
  clock : Timestamp
}.

Definition set_db (d : DB) (w : World) : World :=
  mkWorld d (faults w) (entropy w) (drawn w) (clock w).

(** ** Promises that resolve or reject, over the world *)

Inductive Outcome (A : Type) : Type :=
| Ok (a : A)
| Throw (e : string).
Arguments Ok {A} a.
Arguments Throw {A} e.

Definition Task (A : Type) : Type := World -> Outcome A * World.

Definition ret {A} (a : A) : Task A := fun w => (Ok a, w).

Definition throw {A} (e : string) : Task A := fun w => (Throw e, w).

Definition bind {A B} (m : Task A) (k : A -> Task B) : Task B :=
  fun w =>
    match m w with
    | (Ok a, w') => k a w'
    | (Throw e, w') => (Throw e, w')
    end.

(** [try { m } catch (e) { h e }]: the handler runs in the world the
    failing statement left behind. *)
Definition try_catch {A} (m : Task A) (h : string -> Task A) : Task A :=
  fun w =>
    match m w with
    | (Ok a, w') => (Ok a, w')
    | (Throw e, w') => h e w'
    end.

Declare Scope task_scope.
Delimit Scope task_scope with task.
Notation "x <- m ;; k" := (bind m (fun x => k))
  (at level 100, m at next level, right associativity) : task_scope.
Notation "m ;; k" := (bind m (fun _ => k))
  (at level 100, right associativity) : task_scope.
Local Open Scope task_scope.

Definition get_db : Task DB := fun w => (Ok (db w), w).

Definition put_db (d : DB) : Task unit := fun w => (Ok tt, set_db d w).

(** [new Date()] and [defaultNow()]. *)
Definition newDate : Task Timestamp := fun w => (Ok (clock w), w).

(** [gen_random_uuid()]. *)
Definition gen_random_uuid : Task Id :=
  fun w =>
    (Ok (entropy w (drawn w)),
     mkWorld (db w) (faults w) (entropy w) (S (drawn w)) (clock w)).

Definition store_unavailable : string := "store unavailable".
Definition pk_violation : string :=
  "duplicate key value violates unique constraint".
Definition fk_violation : string :=
  "insert or update on table violates foreign key constraint".

(** One round trip: the next scheduled fault is consumed and time
    passes. *)
Definition roundtrip : Task unit :=
  fun w =>
    match faults w with
    | true :: fs =>
        (Throw store_unavailable,
         mkWorld (db w) fs (entropy w) (drawn w) (S (clock w)))
    | false :: fs =>
        (Ok tt, mkWorld (db w) fs (entropy w) (drawn w) (S (clock w)))
    | [] =>
        (Ok tt, mkWorld (db w) [] (entropy w) (drawn w) (S (clock w)))
    end.

(** A constraint declared in the schema, checked by the store. *)
Definition check (b : bool) (e : string) : Task unit :=
  if b then ret tt else throw e.

Definition rowCount {A} (f : A -> bool) (rows : list A) : nat :=
  length (filter f rows).

Definition has_user (d : DB) (u : Id) : bool :=
  existsb (fun r => eqId (User.id r) u) (users d).
Definition has_project (d : DB) (p : Id) : bool :=
  existsb (fun r => eqId (Project.id r) p) (projects d).
Definition has_post (d : DB) (p : Id) : bool :=
  existsb (fun r => eqId (CommunityPost.id r) p) (communityPosts d).

(** A nullable foreign key: NULL references nothing and is accepted. *)
Definition ref_ok (has : Id -> bool) (a : option Id) : bool :=
  match a with
  | Some x => has x
  | None => true
  end.

(** ** Statements *)

Definition where_id {A} (id_of : A -> Id) (id : Id) (set : A -> A) (r : A) : A :=
  if eqId (id_of r) id then set r else r.

(** [db.update(projects).set(...).where(eq(projects.id, id))] *)
Definition updateProjects (id : Id) (set : Project.t -> Project.t) : Task unit :=
  roundtrip ;;
  d <- get_db ;;
  put_db (set_projects (map (where_id Project.id id set) (projects d)) d).

(** [db.update(communityPosts).set(...).where(eq(communityPosts.id, id))] *)
Definition updateCommunityPosts (id : Id) (set : CommunityPost.t -> CommunityPost.t)
  : Task unit :=
  roundtrip ;;
  d <- get_db ;;
  put_db (set_communityPosts
            (map (where_id CommunityPost.id id set) (communityPosts d)) d).

Definition like_hit (projectId userId : Id) (r : ProjectLike.t) : bool :=
  eqId (ProjectLike.projectId r) projectId && eqId (ProjectLike.userId r) userId.

Definition postLike_hit (postId userId : Id) (r : PostLike.t) : bool :=
  eqId (PostLike.postId r) postId && eqId (PostLike.userId r) userId.

Definition bookmark_hit (projectId userId : Id) (r : ProjectBookmark.t) : bool :=
  eqId (ProjectBookmark.projectId r) projectId
  && eqId (ProjectBookmark.userId r) userId.

Definition comment_hit (id userId : Id) (r : Comment.t) : bool :=
  eqId (Comment.id r) id && eqId (Comment.userId r) userId.

Definition fresh_in {A} (id_of : A -> Id) (rows : list A) (id : Id) : bool :=
  negb (existsb (fun r => eqId (id_of r) id) rows).

(** [db.insert(projectLikes).values({ projectId, userId })].  The table
    has a generated primary key and two foreign keys, and no other
    constraint. *)
Definition insertProjectLike (projectId userId : Id) : Task unit :=
  roundtrip ;;
  id <- gen_random_uuid ;;
  now <- newDate ;;
  d <- get_db ;;
  check (fresh_in ProjectLike.id (projectLikes d) id) pk_violation ;;
  check (has_project d projectId) fk_violation ;;
  check (has_user d userId) fk_violation ;;
  put_db (set_projectLikes
            (projectLikes d ++ [ProjectLike.mk id projectId userId now]) d).

(** [db.delete(projectLikes).where(and(eq(projectId), eq(userId)))],
    resolving to [result.rowCount]. *)
Definition deleteProjectLikes (projectId userId : Id) : Task nat :=
  roundtrip ;;
  d <- get_db ;;
  put_db (set_projectLikes
            (filter (fun r => negb (like_hit projectId userId r)) (projectLikes d))
            d) ;;
  ret (rowCount (like_hit projectId userId) (projectLikes d)).

Definition insertPostLike (postId userId : Id) : Task unit :=
  roundtrip ;;
  id <- gen_random_uuid ;;
  now <- newDate ;;
  d <- get_db ;;
  check (fresh_in PostLike.id (postLikes d) id) pk_violation ;;
  check (has_post d postId) fk_violation ;;
  check (has_user d userId) fk_violation ;;
  put_db (set_postLikes (postLikes d ++ [PostLike.mk id postId userId now]) d).

Definition deletePostLikes (postId userId : Id) : Task nat :=
  roundtrip ;;
  d <- get_db ;;
  put_db (set_postLikes
            (filter (fun r => negb (postLike_hit postId userId r)) (postLikes d))
            d) ;;
  ret (rowCount (postLike_hit postId userId) (postLikes d)).

Definition insertProjectBookmark (projectId userId : Id) : Task unit :=
  roundtrip ;;
  id <- gen_random_uuid ;;
  now <- newDate ;;
  d <- get_db ;;
  check (fresh_in ProjectBookmark.id (projectBookmarks d) id) pk_violation ;;
  check (has_project d projectId) fk_violation ;;
  check (has_user d userId) fk_violation ;;
  put_db (set_projectBookmarks
            (projectBookmarks d ++ [ProjectBookmark.mk id projectId userId now])
            d).

Definition deleteProjectBookmarks (projectId userId : Id) : Task nat :=
  roundtrip ;;
  d <- get_db ;;
  put_db (set_projectBookmarks
            (filter (fun r => negb (bookmark_hit projectId userId r))
                    (projectBookmarks d))
            d) ;;
  ret (rowCount (bookmark_hit projectId userId) (projectBookmarks d)).

(** [db.insert(comments).values(comment).returning()], resolving to the
    inserted row. *)
Definition insertComment (comment : InsertComment.t) : Task Comment.t :=
  roundtrip ;;
  id <- gen_random_uuid ;;
  now <- newDate ;;
  d <- get_db ;;
  check (fresh_in Comment.id (comments d) id) pk_violation ;;
  check (ref_ok (has_project d) (InsertComment.projectId comment)) fk_violation ;;
  check (ref_ok (has_post d) (InsertComment.postId comment)) fk_violation ;;
  check (has_user d (InsertComment.userId comment)) fk_violation ;;
  let row := Comment.mk id (InsertComment.content comment)
                        (InsertComment.projectId comment)
                        (InsertComment.postId comment)
                        (InsertComment.userId comment) now now in
  put_db (set_comments (comments d ++ [row]) d) ;;
  ret row.

(** [db.select().from(comments).where(and(eq(id), eq(userId)))] *)
Definition selectComments (id userId : Id) : Task (list Comment.t) :=
  roundtrip ;;
  d <- get_db ;;
  ret (filter (comment_hit id userId) (comments d)).

Definition deleteComments (id userId : Id) : Task nat :=
  roundtrip ;;
  d <- get_db ;;
  put_db (set_comments
            (filter (fun r => negb (comment_hit id userId r)) (comments d)) d) ;;
  ret (rowCount (comment_hit id userId) (comments d)).

(** [db.select({ count: count() }).from(t).where(...)]: always one row,
    whose [count] is the number of matching rows. *)
Definition selectCount {A} (table : DB -> list A) (f : A -> bool) : Task Z :=
  roundtrip ;;
  d <- get_db ;;
  ret (Z.of_nat (rowCount f (table d))).

(** [db.select({ id: projects.id }).from(projects)] and its sibling on
    [communityPosts].  The statements carry no ORDER BY: which row comes
    first is the store's choice, and an UPDATE may change it.  Here the
    rows come in table order; what is stated about a loop that is cut
    short is stated for any enumeration. *)
Definition selectProjectIds : Task (list Id) :=
  roundtrip ;;
  d <- get_db ;;
  ret (map Project.id (projects d)).

Definition selectCommunityPostIds : Task (list Id) :=
  roundtrip ;;
  d <- get_db ;;
  ret (map CommunityPost.id (communityPosts d)).

(** ** DatabaseStorage *)

Definition incrementProjectViews (id : Id) : Task unit :=
  updateProjects id (Project.add_viewCount 1).

Definition likeProject (projectId userId : Id) : Task bool :=
  try_catch
    (insertProjectLike projectId userId ;;
     updateProjects projectId (Project.add_likeCount 1) ;;
     ret true)
    (fun _ => ret false).

Definition unlikeProject (projectId userId : Id) : Task bool :=
  n <- deleteProjectLikes projectId userId ;;
  if (0 <? n)%nat then
    updateProjects projectId (Project.add_likeCount (-1)) ;;
    ret true
  else ret false.

Definition bookmarkProject (projectId userId : Id) : Task bool :=
  try_catch
    (insertProjectBookmark projectId userId ;;
     ret true)
    (fun _ => ret false).

Definition unbookmarkProject (projectId userId : Id) : Task bool :=
  n <- deleteProjectBookmarks projectId userId ;;
  ret (0 <? n)%nat.

Definition likeCommunityPost (postId userId : Id) : Task bool :=
  try_catch
    (insertPostLike postId userId ;;
     updateCommunityPosts postId (CommunityPost.add_likeCount 1) ;;
     ret true)
    (fun _ => ret false).

Definition unlikeCommunityPost (postId userId : Id) : Task bool :=
  n <- deletePostLikes postId userId ;;
  if (0 <? n)%nat then
    updateCommunityPosts postId (CommunityPost.add_likeCount (-1)) ;;
    ret true
  else ret false.

Definition createComment (comment : InsertComment.t) : Task Comment.t :=
  newComment <- insertComment comment ;;
  (if truthy (InsertComment.projectId comment) then
     match InsertComment.projectId comment with
     | Some projectId =>
         updateProjects projectId (Project.add_commentCount 1)
     | None => ret tt
     end
   else if truthy (InsertComment.postId comment) then
     match InsertComment.postId comment with
     | Some postId =>
         updateCommunityPosts postId (CommunityPost.add_commentCount 1)
     | None => ret tt
     end
   else ret tt) ;;
  ret newComment.

Definition deleteComment (id userId : Id) : Task bool :=
  found <- selectComments id userId ;;
  match found with
  | [] => ret false
  | comment :: _ =>
      result <- deleteComments id userId ;;
      if (0 <? result)%nat then
        (if truthy (Comment.projectId comment) then
           match Comment.projectId comment with
           | Some projectId =>
               updateProjects projectId (Project.add_commentCount (-1))
           | None => ret tt
           end
         else if truthy (Comment.postId comment) then
           match Comment.postId comment with
           | Some postId =>
               updateCommunityPosts postId (CommunityPost.add_commentCount (-1))
           | None => ret tt
           end
         else ret tt) ;;
        ret true
      else ret false
  end.

(** The counter update both functions end with, [delta] being 1 on
    creation and -1 on deletion: the project branch is tried first, the
    post branch only when [projectId] is falsy. *)
Definition bumpParent (projectId postId : option Id) (delta : Z) : Task unit :=
  if truthy projectId then
    match projectId with
    | Some p => updateProjects p (Project.add_commentCount delta)
    | None => ret tt
    end
  else if truthy postId then
    match postId with
    | Some p => updateCommunityPosts p (CommunityPost.add_commentCount delta)
    | None => ret tt
    end
  else ret tt.

(** Modelled from the spec: [trackProjectView] is what the route
    [GET /api/projects/:id] calls, with the viewer's user id when
    authenticated and the IP address; its body is not part of the sources
    at hand.  Per the spec it always appends a ProjectView row, under no
    uniqueness constraint, and increments the cached [viewCount] by 1;
    the increment is the storage layer's own [incrementProjectViews]. *)
Definition insertProjectView (projectId : Id) (userId : option Id)
  (ipAddress : option string) : Task unit :=
  roundtrip ;;
  id <- gen_random_uuid ;;
  now <- newDate ;;
  d <- get_db ;;
  check (fresh_in ProjectView.id (projectViews d) id) pk_violation ;;
  put_db (set_projectViews
            (projectViews d ++ [ProjectView.mk id projectId userId ipAddress now])
            d).

Definition trackProjectView (projectId : Id) (userId : option Id)
  (ipAddress : option string) : Task unit :=
  insertProjectView projectId userId ipAddress ;;
  incrementProjectViews projectId.

(** [InsertProject] and [InsertCommunityPost]: what the owner supplies;
    ids, timestamps and the cached counters are filled in by the column
    defaults. *)
Module InsertProject.
Record t := mk {
    title : string;
    shortDescription : string;
    detailedDescription : string;
    thumbnailUrl : option string;
    demoUrl : option string;
    sourceUrl : option string;
    tags : option (list string);
    techStack : option (list string);
    userId : Id;
    isFeatured : bool
  }.
End InsertProject.

Module InsertCommunityPost.
Record t := mk {
    title : string;
    content : string;
    isPinned : bool;
    userId : Id
  }.
End InsertCommunityPost.

Definition createProject (project : InsertProject.t) : Task Project.t :=
  roundtrip ;;
  id <- gen_random_uuid ;;
  now <- newDate ;;
  d <- get_db ;;
  check (fresh_in Project.id (projects d) id) pk_violation ;;
  check (has_user d (InsertProject.userId project)) fk_violation ;;
  let newProject :=
    Project.mk id (InsertProject.title project)
      (InsertProject.shortDescription project)
      (InsertProject.detailedDescription project)
      (InsertProject.thumbnailUrl project) (InsertProject.demoUrl project)
      (InsertProject.sourceUrl project) (InsertProject.tags project)
      (InsertProject.techStack project) (InsertProject.userId project)
      (InsertProject.isFeatured project) 0 0 0 None now now in
  put_db (set_projects (projects d ++ [newProject]) d) ;;
  ret newProject.

Definition createCommunityPost (post : InsertCommunityPost.t)
  : Task CommunityPost.t :=
  roundtrip ;;
  id <- gen_random_uuid ;;
  now <- newDate ;;
  d <- get_db ;;
  check (fresh_in CommunityPost.id (communityPosts d) id) pk_violation ;;
  check (has_user d (InsertCommunityPost.userId post)) fk_violation ;;
  let newPost :=
    CommunityPost.mk id (InsertCommunityPost.title post)
      (InsertCommunityPost.content post) (InsertCommunityPost.isPinned post)
      (InsertCommunityPost.userId post) 0 0 None now now in
  put_db (set_communityPosts (communityPosts d ++ [newPost]) d) ;;
  ret newPost.

(** ** The count synchronisation job *)

Record CountSyncResult := mkResult {
  projectsUpdated : nat;
  postsUpdated : nat;
  errors : list string
}.

Definition view_of (projectId : Id) (r : ProjectView.t) : bool :=
  eqId (ProjectView.projectId r) projectId.
Definition like_of (projectId : Id) (r : ProjectLike.t) : bool :=
  eqId (ProjectLike.projectId r) projectId.
Definition comment_of_project (projectId : Id) (r : Comment.t) : bool :=
  eqNullable (Comment.projectId r) projectId.
Definition postLike_of (postId : Id) (r : PostLike.t) : bool :=
  eqId (PostLike.postId r) postId.
Definition comment_of_post (postId : Id) (r : Comment.t) : bool :=
  eqNullable (Comment.postId r) postId.

(** The three count queries and the overwrite of the cache; the same
    statements make up the loop body of [syncProjectCounts] and the body
    of [syncSingleProjectCounts]. *)
Definition recountProject (projectId : Id) : Task unit :=
  viewCountResult <- selectCount projectViews (view_of projectId) ;;
  likeCountResult <- selectCount projectLikes (like_of projectId) ;;
  commentCountResult <- selectCount comments (comment_of_project projectId) ;;
  now <- newDate ;;
  updateProjects projectId
    (Project.with_counts viewCountResult likeCountResult commentCountResult
                         (Some now)).

Definition recountPost (postId : Id) : Task unit :=
  likeCountResult <- selectCount postLikes (postLike_of postId) ;;
  commentCountResult <- selectCount comments (comment_of_post postId) ;;
  now <- newDate ;;
  updateCommunityPosts postId
    (CommunityPost.with_counts likeCountResult commentCountResult (Some now)).

(** [for (const project of allProjects) { ...; updatedCount++; }] *)
Fixpoint syncProjectsLoop (allProjects : list Id) (updatedCount : nat)
  : Task nat :=
  match allProjects with
  | [] => ret updatedCount
  | projectId :: rest =>
      recountProject projectId ;;
      syncProjectsLoop rest (S updatedCount)
  end.

Fixpoint syncPostsLoop (allPosts : list Id) (updatedCount : nat) : Task nat :=
  match allPosts with
  | [] => ret updatedCount
  | postId :: rest =>
      recountPost postId ;;
      syncPostsLoop rest (S updatedCount)
  end.

(** The [catch] blocks of the four functions below log to the console
    and rethrow. *)
Definition syncProjectCounts : Task nat :=
  try_catch
    (allProjects <- selectProjectIds ;;
     syncProjectsLoop allProjects 0)
    (fun error => throw error).

Definition syncCommunityPostCounts : Task nat :=
  try_catch
    (allPosts <- selectCommunityPostIds ;;
     syncPostsLoop allPosts 0)
    (fun error => throw error).

Definition syncSingleProjectCounts (projectId : Id) : Task unit :=
  try_catch (recountProject projectId) (fun error => throw error).

Definition syncSinglePostCounts (postId : Id) : Task unit :=
  try_catch (recountPost postId) (fun error => throw error).

Definition batch_failed (error : string) : string :=
  String.append "Batch sync failed: " error.

(** [result] is filled in as the two halves return; the single [catch]
    pushes one message and lets the function return what [result] holds
    by then. *)
Definition syncAllCounts : Task CountSyncResult :=
  fun w =>
    match syncProjectCounts w with
    | (Throw error, w1) => (Ok (mkResult 0 0 [batch_failed error]), w1)
    | (Ok projectSyncResult, w1) =>
        match syncCommunityPostCounts w1 with
        | (Throw error, w2) =>
            (Ok (mkResult projectSyncResult 0 [batch_failed error]), w2)
        | (Ok postSyncResult, w2) =>
            (Ok (mkResult projectSyncResult postSyncResult []), w2)
        end
    end.

(** ** Scenario data *)

Module Scenario.

Definition alice : User.t := User.mk "u-alice" None None None None 0 0.
Definition bob : User.t := User.mk "u-bob" None None None None 0 0.

Definition projectP : Project.t :=
  Project.mk "p-1" "Tide" "tide tables" "tide tables for sailors" None None None
    None None "u-alice" false 0 0 0 None 1 1.
Definition projectR : Project.t :=
  Project.mk "p-2" "Kiln" "kiln log" "firing schedules" None None None
    None None "u-bob" false 0 0 0 None 2 2.
Definition postQ : CommunityPost.t :=
  CommunityPost.mk "q-1" "Hello" "first post" false "u-bob" 0 0 None 3 3.

Definition uuids (n : nat) : Id :=
  nth n ["k-0"; "k-1"; "k-2"; "k-3"; "k-4"; "k-5"; "k-6"; "k-7"] "k-x".

(** Two users, two projects and one post, all freshly created. *)
Definition fresh_db : DB :=
  mkDB [alice; bob] [projectP; projectR] [] [] [postQ] [] [] [].

Definition world (d : DB) (fs : list bool) : World := mkWorld d fs uuids 0 10.

(** A database in which alice already likes project p-1. *)
Definition liked_db : DB :=
  set_projectLikes [ProjectLike.mk "l-1" "p-1" "u-alice" 5]
    (set_projects [Project.add_likeCount 1 projectP; projectR]
       fresh_db).

(** ... and in which bob has commented on post q-1. *)
Definition commented_db : DB :=
  set_comments [Comment.mk "c-1" "nice" None (Some "q-1") "u-bob" 6 6]
    (set_communityPosts [CommunityPost.add_commentCount 1 postQ]
       liked_db).

(** Rows inserted behind the storage layer's back, as the seed script
    does: the cache still reads 0 everywhere. *)
Definition drifted_db : DB :=
  set_projectLikes
    [ProjectLike.mk "l-1" "p-1" "u-alice" 5;
     ProjectLike.mk "l-2" "p-2" "u-alice" 5;
     ProjectLike.mk "l-3" "p-2" "u-bob" 5]
    (set_postLikes [PostLike.mk "m-1" "q-1" "u-alice" 5] fresh_db).

End Scenario.

(** ** Vocabulary of the statements below *)

(** The store accepts the insert of a like: the drawn id is not taken and
    both foreign keys resolve.  Whether the user already likes the target
    plays no part. *)
Definition like_accepted (w : World) (target user : Id) : bool :=
  fresh_in ProjectLike.id (projectLikes (db w)) (entropy w (drawn w))
  && has_project (db w) target && has_user (db w) user.

Definition postLike_accepted (w : World) (target user : Id) : bool :=
  fresh_in PostLike.id (postLikes (db w)) (entropy w (drawn w))
  && has_post (db w) target && has_user (db w) user.

Definition comment_accepted (w : World) (c : InsertComment.t) : bool :=
  fresh_in Comment.id (comments (db w)) (entropy w (drawn w))
  && ref_ok (has_project (db w)) (InsertComment.projectId c)
  && ref_ok (has_post (db w)) (InsertComment.postId c)
  && has_user (db w) (InsertComment.userId c).

(** Ids are generated uuids (or the seed's fixed names): never empty. *)
Definition ids_nonempty (d : DB) : Prop :=
  has_project d "" = false /\ has_post d "" = false.

(** Between [d] and [d'] exactly one parent counter moved by [delta]:
    the [commentCount] of every project row with that id when
    [projectId] is set, else of every post row with that id when
    [postId] is set, else none.  Every other column of every row is as
    it was. *)
Definition counted_on_parent (projectId postId : option Id) (delta : Z)
  (d d' : DB) : Prop :=
  match projectId, postId with
  | Some p, _ =>
      projects d' =
        map (fun r =>
               if eqId (Project.id r) p then
                 Project.with_counts (Project.viewCount r) (Project.likeCount r)
                   (Project.commentCount r + delta)
                   (Project.countsLastUpdated r) r
               else r)
            (projects d)
      /\ communityPosts d' = communityPosts d
  | None, Some q =>
      communityPosts d' =
        map (fun r =>
               if eqId (CommunityPost.id r) q then
                 CommunityPost.with_counts (CommunityPost.likeCount r)
                   (CommunityPost.commentCount r + delta)
                   (CommunityPost.countsLastUpdated r) r
               else r)
            (communityPosts d)
      /\ projects d' = projects d
  | None, None =>
      projects d' = projects d /\ communityPosts d' = communityPosts d
  end.

(** No comment row names the empty string as its parent: parents are
    references to generated ids. *)
Definition parents_nonempty (d : DB) : Prop :=
  forall c, In c (comments d) ->
    Comment.projectId c <> Some "" /\ Comment.postId c <> Some "".

(** The number of matching rows, as [count()] reports it. *)
Definition counted {A} (f : A -> bool) (rows : list A) : Z :=
  Z.of_nat (rowCount f rows).

(** A project row whose cache equals the row counts of [d]. *)
Definition project_in_sync (d : DB) (p : Project.t) : Prop :=
  Project.viewCount p = counted (view_of (Project.id p)) (projectViews d) /\
  Project.likeCount p = counted (like_of (Project.id p)) (projectLikes d) /\
  Project.commentCount p
    = counted (comment_of_project (Project.id p)) (comments d).

Definition post_in_sync (d : DB) (q : CommunityPost.t) : Prop :=
  CommunityPost.likeCount q
    = counted (postLike_of (CommunityPost.id q)) (postLikes d) /\
  CommunityPost.commentCount q
    = counted (comment_of_post (CommunityPost.id q)) (comments d).

(** The normalized tables: everything but [projects] and
    [communityPosts]. *)
Definition rows_of (d : DB) :=
  (users d, projectLikes d, projectBookmarks d, postLikes d, comments d,
   projectViews d).

(** The cached counters, entity by entity. *)
Definition project_entry (p : Project.t) : Id * Z * Z * Z :=
  (Project.id p, Project.viewCount p, Project.likeCount p,
   Project.commentCount p).
Definition post_entry (q : CommunityPost.t) : Id * Z * Z :=
  (CommunityPost.id q, CommunityPost.likeCount q, CommunityPost.commentCount q).
Definition counters (d : DB) :=
  (map project_entry (projects d), map post_entry (communityPosts d)).

Definition all_in_sync (d : DB) : Prop :=
  (forall p, In p (projects d) -> project_in_sync d p) /\
  (forall q, In q (communityPosts d) -> post_in_sync d q).

(** The statements a complete run of [syncAllCounts] sends to the
    store: two enumerations, four statements per project and three per
    post. *)
Definition statements (d : DB) : nat :=
  2 + 4 * length (projects d) + 3 * length (communityPosts d).

(** ** Histories of operations *)

Inductive Op : Type :=
| CreateProject (project : InsertProject.t)
| CreateCommunityPost (post : InsertCommunityPost.t)
| LikeProject (projectId userId : Id)
| UnlikeProject (projectId userId : Id)
| BookmarkProject (projectId userId : Id)
| UnbookmarkProject (projectId userId : Id)
| LikeCommunityPost (postId userId : Id)
| UnlikeCommunityPost (postId userId : Id)
| CreateComment (comment : InsertComment.t)
| DeleteComment (id userId : Id)
| TrackProjectView (projectId : Id) (userId : option Id)
    (ipAddress : option string)
| IncrementProjectViews (id : Id)
| SyncAllCounts
| SyncSingleProjectCounts (projectId : Id)
| SyncSinglePostCounts (postId : Id).

(** The world a call leaves behind, whatever it resolved to. *)
Definition perform (op : Op) (w : World) : World :=
  match op with
  | CreateProject project => snd (createProject project w)
  | CreateCommunityPost post => snd (createCommunityPost post w)
  | LikeProject p u => snd (likeProject p u w)
  | UnlikeProject p u => snd (unlikeProject p u w)
  | BookmarkProject p u => snd (bookmarkProject p u w)
  | UnbookmarkProject p u => snd (unbookmarkProject p u w)
  | LikeCommunityPost p u => snd (likeCommunityPost p u w)
  | UnlikeCommunityPost p u => snd (unlikeCommunityPost p u w)
  | CreateComment comment => snd (createComment comment w)
  | DeleteComment id u => snd (deleteComment id u w)
  | TrackProjectView p u ip => snd (trackProjectView p u ip w)
  | IncrementProjectViews p => snd (incrementProjectViews p w)
  | SyncAllCounts => snd (syncAllCounts w)
  | SyncSingleProjectCounts p => snd (syncSingleProjectCounts p w)
  | SyncSinglePostCounts p => snd (syncSinglePostCounts p w)
  end.

Definition run (ops : list Op) (w : World) : World :=
  fold_left (fun w op => perform op w) ops w.

(** Every cached counter is at least 0. *)
Definition nonneg (d : DB) : Prop :=
  (forall p, In p (projects d) ->
     (0 <= Project.viewCount p /\ 0 <= Project.likeCount p
      /\ 0 <= Project.commentCount p)%Z) /\
  (forall q, In q (communityPosts d) ->
     (0 <= CommunityPost.likeCount q /\ 0 <= CommunityPost.commentCount q)%Z).

(** Every entity is as its creation left it: counters at 0 and no like,
    comment or view recorded yet. *)
Definition fresh (d : DB) : Prop :=
  (forall p, In p (projects d) ->
     Project.viewCount p = 0%Z /\ Project.likeCount p = 0%Z
     /\ Project.commentCount p = 0%Z) /\
  (forall q, In q (communityPosts d) ->
     CommunityPost.likeCount q = 0%Z /\ CommunityPost.commentCount q = 0%Z) /\
  projectLikes d = [] /\ postLikes d = [] /\ comments d = []
  /\ projectViews d = [].

(** The comments whose deletion decrements a given parent: the project
    branch comes first, the post branch applies when [projectId] is
    falsy. *)
Definition charged_to_project (projectId : Id) (c : Comment.t) : bool :=
  truthy (Comment.projectId c) && eqNullable (Comment.projectId c) projectId.
Definition charged_to_post (postId : Id) (c : Comment.t) : bool :=
  negb (truthy (Comment.projectId c)) && truthy (Comment.postId c)
  && eqNullable (Comment.postId c) postId.

(** The invariant behind non-negativity: a cached counter never falls
    below the number of rows whose removal would decrement it, and rows
    only reference entities that exist. *)
Record covered (d : DB) : Prop := mkCovered {
  cov_views :
    forall p, In p (projects d) -> (0 <= Project.viewCount p)%Z;
  cov_likes :
    forall p, In p (projects d) ->
      (counted (like_of (Project.id p)) (projectLikes d)
       <= Project.likeCount p)%Z;
  cov_comments :
    forall p, In p (projects d) ->
      (counted (charged_to_project (Project.id p)) (comments d)
       <= Project.commentCount p)%Z;
  cov_postLikes :
    forall q, In q (communityPosts d) ->
      (counted (postLike_of (CommunityPost.id q)) (postLikes d)
       <= CommunityPost.likeCount q)%Z;
  cov_postComments :
    forall q, In q (communityPosts d) ->
      (counted (charged_to_post (CommunityPost.id q)) (comments d)
       <= CommunityPost.commentCount q)%Z;
  ref_likes :
    forall l, In l (projectLikes d) ->
      has_project d (ProjectLike.projectId l) = true;
  ref_postLikes :
    forall l, In l (postLikes d) -> has_post d (PostLike.postId l) = true;
  ref_comments :
    forall c, In c (comments d) ->
      ref_ok (has_project d) (Comment.projectId c) = true /\
      ref_ok (has_post d) (Comment.postId c) = true
}.

(** The database [bumpParent] leaves behind when the store serves its
    statement. *)
Definition bump_db (projectId postId : option Id) (delta : Z) (d : DB) : DB :=
  if truthy projectId then
    match projectId with
    | Some p =>
        set_projects
          (map (where_id Project.id p (Project.add_commentCount delta))
               (projects d)) d
    | None => d
    end
  else if truthy postId then
    match postId with
    | Some p =>
        set_communityPosts
          (map (where_id CommunityPost.id p (CommunityPost.add_commentCount delta))
               (communityPosts d)) d
    | None => d
    end
  else d.

(** * More of the storage layer, the sync script and the routes *)

(** ** Reading back likes and bookmarks *)

(** [!!row] for the first element of a result set. *)
Definition some_row {A} (rows : list A) : bool :=
  match rows with
  | [] => false
  | _ :: _ => true
  end.

Definition selectProjectLikes (projectId userId : Id)
  : Task (list ProjectLike.t) :=
  roundtrip ;;
  d <- get_db ;;
  ret (filter (like_hit projectId userId) (projectLikes d)).

Definition selectPostLikes (postId userId : Id) : Task (list PostLike.t) :=
  roundtrip ;;
  d <- get_db ;;
  ret (filter (postLike_hit postId userId) (postLikes d)).

Definition selectProjectBookmarks (projectId userId : Id)
  : Task (list ProjectBookmark.t) :=
  roundtrip ;;
  d <- get_db ;;
  ret (filter (bookmark_hit projectId userId) (projectBookmarks d)).

Definition isProjectLiked (projectId userId : Id) : Task bool :=
  found <- selectProjectLikes projectId userId ;;
  ret (some_row found).

Definition isProjectBookmarked (projectId userId : Id) : Task bool :=
  found <- selectProjectBookmarks projectId userId ;;
  ret (some_row found).

Definition isCommunityPostLiked (postId userId : Id) : Task bool :=
  found <- selectPostLikes postId userId ;;
  ret (some_row found).

(** ** Deleting a project or a post *)

Definition project_owned (id userId : Id) (p : Project.t) : bool :=
  eqId (Project.id p) id && eqId (Project.userId p) userId.

Definition post_owned (id userId : Id) (q : CommunityPost.t) : bool :=
  eqId (CommunityPost.id q) id && eqId (CommunityPost.userId q) userId.

Definition bookmark_of (projectId : Id) (r : ProjectBookmark.t) : bool :=
  eqId (ProjectBookmark.projectId r) projectId.

(** [db.delete(projects).where(and(eq(projects.id, id),
    eq(projects.userId, userId)))], resolving to [result.rowCount].  The
    schema declares the [projectId] foreign keys of [projectLikes],
    [projectBookmarks] and [comments] with [onDelete: 'cascade'], so the
    rows that reference a deleted project go with it.

    Modelled from the spec: the rows of [projectViews], whose declaration
    is not part of the sources at hand, stay in place (the spec names
    likes, bookmarks and comments as the cascade). *)
Definition deleteProjects (id userId : Id) : Task nat :=
  roundtrip ;;
  d <- get_db ;;
  let n := rowCount (project_owned id userId) (projects d) in
  put_db
    (if (0 <? n)%nat then
       set_projects
         (filter (fun p => negb (project_owned id userId p)) (projects d))
         (set_projectLikes
            (filter (fun r => negb (like_of id r)) (projectLikes d))
            (set_projectBookmarks
               (filter (fun r => negb (bookmark_of id r)) (projectBookmarks d))
               (set_comments
                  (filter (fun r => negb (comment_of_project id r)) (comments d))
                  d)))
     else d) ;;
  ret n.

(** The same for [communityPosts]; [postLikes] and [comments] cascade on
    [postId]. *)
Definition deleteCommunityPosts (id userId : Id) : Task nat :=
  roundtrip ;;
  d <- get_db ;;
  let n := rowCount (post_owned id userId) (communityPosts d) in
  put_db
    (if (0 <? n)%nat then
       set_communityPosts
         (filter (fun q => negb (post_owned id userId q)) (communityPosts d))
         (set_postLikes
            (filter (fun r => negb (postLike_of id r)) (postLikes d))
            (set_comments
               (filter (fun r => negb (comment_of_post id r)) (comments d))
               d))
     else d) ;;
  ret n.

Definition deleteProject (id userId : Id) : Task bool :=
  result <- deleteProjects id userId ;;
  ret (0 <? result)%nat.

Definition deleteCommunityPost (id userId : Id) : Task bool :=
  result <- deleteCommunityPosts id userId ;;
  ret (0 <? result)%nat.

(** ** Reading a project *)

(** The columns [getProject] selects, with the joined user row. *)
Module ProjectWithUser.
Record t := mk {
    id : Id;
    title : string;
    shortDescription : string;
    detailedDescription : string;
    thumbnailUrl : option string;
    demoUrl : option string;
    sourceUrl : option string;
    tags : option (list string);
    techStack : option (list string);
    viewCount : Z;
    likeCount : Z;
    commentCount : Z;
    userId : Id;
    createdAt : Timestamp;
    updatedAt : Timestamp;
    user : option User.t
  }.
End ProjectWithUser.

Definition project_columns (p : Project.t) (u : option User.t)
  : ProjectWithUser.t :=
  ProjectWithUser.mk (Project.id p) (Project.title p)
    (Project.shortDescription p) (Project.detailedDescription p)
    (Project.thumbnailUrl p) (Project.demoUrl p) (Project.sourceUrl p)
    (Project.tags p) (Project.techStack p) (Project.viewCount p)
    (Project.likeCount p) (Project.commentCount p) (Project.userId p)
    (Project.createdAt p) (Project.updatedAt p) u.

(** [.leftJoin(users, eq(projects.userId, users.id))]: one row per
    matching user, and one row with a NULL user when there is none. *)
Definition leftJoinUsers (us : list User.t) (p : Project.t)
  : list ProjectWithUser.t :=
  match filter (fun u => eqId (Project.userId p) (User.id u)) us with
  | [] => [project_columns p None]
  | found => map (fun u => project_columns p (Some u)) found
  end.

Definition getProject (id : Id) : Task (option ProjectWithUser.t) :=
  roundtrip ;;
  d <- get_db ;;
  ret (hd_error
         (flat_map (leftJoinUsers (users d))
                   (filter (fun p => eqId (Project.id p) id) (projects d)))).

(** ** Routes *)

(** What a handler sends: [res.status(s).json(body)] with a payload, or
    with a [{ message }] object; the status is 200 unless set. *)
Inductive Reply (A : Type) : Type :=
| Json (status : nat) (body : A)
| Message (status : nat) (message : string).
Arguments Json {A} status body.
Arguments Message {A} status message.

Definition Handler (A : Type) : Type := World -> Reply A * World.

(** The [try { ... } catch (error) { res.status(500).json({ message }) }]
    every handler is wrapped in. *)
Definition respond {A} (m : Task (Reply A)) (failure : string) : Handler A :=
  fun w =>
    match m w with
    | (Ok r, w') => (r, w')
    | (Throw _, w') => (Message 500 failure, w')
    end.

(** [GET /api/projects/:id], over the [storage.trackProjectView] it
    calls. *)
Definition getProjectRouteWith
  (trackProjectView : Id -> option Id -> option string -> Task unit)
  (id : Id) (userId : option Id) (ipAddress : option string)
  : Handler ProjectWithUser.t :=
  respond
    (project <- getProject id ;;
     match project with
     | None => ret (Message 404 "Project not found")
     | Some p =>
         trackProjectView id userId ipAddress ;;
         ret (Json 200 p)
     end)
    "Failed to fetch project".

Definition getProjectRoute : Id -> option Id -> option string
                             -> Handler ProjectWithUser.t :=
  getProjectRouteWith trackProjectView.

(** [DELETE /api/projects/:id] *)
Definition deleteProjectRoute (id userId : Id) : Handler unit :=
  respond
    (success <- deleteProject id userId ;;
     if success then ret (Message 200 "Project deleted successfully")
     else ret (Message 404 "Project not found"))
    "Failed to delete project".

(** [POST /api/projects/:id/like] and [DELETE /api/projects/:id/like] *)
Definition likeProjectRoute (id userId : Id) : Handler bool :=
  respond (success <- likeProject id userId ;; ret (Json 200 success))
          "Failed to like project".

Definition unlikeProjectRoute (id userId : Id) : Handler bool :=
  respond (success <- unlikeProject id userId ;; ret (Json 200 success))
          "Failed to unlike project".

(** [POST /api/projects/:id/bookmark] *)
Definition bookmarkProjectRoute (id userId : Id) : Handler bool :=
  respond (success <- bookmarkProject id userId ;; ret (Json 200 success))
          "Failed to bookmark project".

(** [POST /api/community/posts/:id/like] *)
Definition likeCommunityPostRoute (id userId : Id) : Handler bool :=
  respond (success <- likeCommunityPost id userId ;; ret (Json 200 success))
          "Failed to like post".

(** [DELETE /api/comments/:id] *)
Definition deleteCommentRoute (id userId : Id) : Handler unit :=
  respond
    (success <- deleteComment id userId ;;
     if success then ret (Message 200 "Comment deleted successfully")
     else ret (Message 404 "Comment not found"))
    "Failed to delete comment".

(** ** The sync script

    [runSync], the function: [process.exit(0)] once [syncAllCounts] has
    resolved, [process.exit(1)] when it rejects.  The result is the exit
    code. *)
Definition runSync : World -> nat * World :=
  fun w =>
    match syncAllCounts w with
    | (Ok _, w') => (0, w')
    | (Throw _, w') => (1, w')
    end.

(** [server/syncCounts.js], the script: it imports [countSync], which
    imports [db], and the module [db] throws unless
    [process.env.DATABASE_URL] is truthy.  Nothing catches an error
    thrown while the modules load: node exits with code 1, before
    [runSync] is called and before any statement is sent.  Otherwise the
    last line of the script calls [runSync]. *)
Definition syncCountsScript (DATABASE_URL : option string)
  : World -> nat * World :=
  fun w => if truthy DATABASE_URL then runSync w else (1, w).

(** ** Histories that also delete *)

Inductive Request : Type :=
| Storage (op : Op)
| DeleteProject (id userId : Id)
| DeleteCommunityPost (id userId : Id).

Definition serve (r : Request) (w : World) : World :=
  match r with
  | Storage op => perform op w
  | DeleteProject id u => snd (deleteProject id u w)
  | DeleteCommunityPost id u => snd (deleteCommunityPost id u w)
  end.

Definition serve_all (rs : list Request) (w : World) : World :=
  fold_left (fun w r => serve r w) rs w.

(** The columns of a project or post that are not cached counters. *)
Definition project_static (p : Project.t) : Project.t :=
  Project.with_counts 0 0 0 None p.
Definition post_static (q : CommunityPost.t) : CommunityPost.t :=
  CommunityPost.with_counts 0 0 None q.

(** ** Listing comments *)

(** The columns [getProjectComments] and [getPostComments] select, with
    the joined user row. *)
Module CommentWithUser.
Record t := mk {
    id : Id;
    content : string;
    projectId : option Id;
    postId : option Id;
    userId : Id;
    createdAt : Timestamp;
    updatedAt : Timestamp;
    user : option User.t
  }.
End CommentWithUser.

Definition comment_columns (c : Comment.t) (u : option User.t)
  : CommentWithUser.t :=
  CommentWithUser.mk (Comment.id c) (Comment.content c) (Comment.projectId c)
    (Comment.postId c) (Comment.userId c) (Comment.createdAt c)
    (Comment.updatedAt c) u.

(** [.leftJoin(users, eq(comments.userId, users.id))] *)
Definition leftJoinCommentUsers (us : list User.t) (c : Comment.t)
  : list CommentWithUser.t :=
  match filter (fun u => eqId (Comment.userId c) (User.id u)) us with
  | [] => [comment_columns c None]
  | found => map (fun u => comment_columns c (Some u)) found
  end.

(** [.orderBy(desc(column))].  Rows with equal keys come out in an
    order the store does not specify; here they keep the order they
    had, and nothing stated below depends on it. *)
Fixpoint insertDesc {A} (key : A -> nat) (x : A) (l : list A) : list A :=
  match l with
  | [] => [x]
  | y :: l' =>
      if (key y <=? key x)%nat then x :: y :: l'
      else y :: insertDesc key x l'
  end.

Definition orderByDesc {A} (key : A -> nat) (l : list A) : list A :=
  fold_right (insertDesc key) [] l.

Definition getProjectComments (projectId : Id)
  : Task (list CommentWithUser.t) :=
  roundtrip ;;
  d <- get_db ;;
  ret (orderByDesc CommentWithUser.createdAt
         (flat_map (leftJoinCommentUsers (users d))
                   (filter (comment_of_project projectId) (comments d)))).

Definition getPostComments (postId : Id) : Task (list CommentWithUser.t) :=
  roundtrip ;;
  d <- get_db ;;
  ret (orderByDesc CommentWithUser.createdAt
         (flat_map (leftJoinCommentUsers (users d))
                   (filter (comment_of_post postId) (comments d)))).

(** Newest first. *)
Definition newest_first (rows : list CommentWithUser.t) : Prop :=
  StronglySorted
    (fun a b => CommentWithUser.createdAt b <= CommentWithUser.createdAt a)
    rows.

(** ** Analytics *)

Module Analytics.
Record t := mk {
    totalProjects : Z;
    totalUsers : Z;
    totalLikes : Z;
    totalComments : Z;
    topTechStacks : list (string * Z);
    topTags : list (string * Z)
  }.
End Analytics.

(** [db.select({ count: count() }).from(table)], four times, and the
    two literal lists. *)
Definition getAnalytics : Task Analytics.t :=
  projectCount <- selectCount projects (fun _ => true) ;;
  userCount <- selectCount users (fun _ => true) ;;
  likesCount <- selectCount projectLikes (fun _ => true) ;;
  commentsCount <- selectCount comments (fun _ => true) ;;
  let topTechStacks :=
    [("React", 324); ("Vue.js", 186); ("Node.js", 152); ("Python", 98)]%Z in
  let topTags :=
    [("Web Apps", 456); ("Mobile Apps", 234); ("Games", 167); ("Tools", 123)]%Z in
  ret (Analytics.mk projectCount userCount likesCount commentsCount
         topTechStacks topTags).

(** The sum of a column over a table. *)
Definition total {A} (f : A -> Z) (rows : list A) : Z :=
  fold_right (fun r acc => (f r + acc)%Z) 0%Z rows.

(** ** The first storage layer: counts computed by the query

    The version of [DatabaseStorage] that precedes the cached counters
    has [getProject] count likes and comments in the query itself, over
    the join of the project with its user, its likes and its comments. *)

Module Legacy.

(** [.leftJoin(table, on)]: each row paired with every matching row of
    the table, or once with NULL when none matches. *)
Definition leftJoin {A B} (on : A -> B -> bool) (table : list B)
  (rows : list A) : list (A * option B) :=
  flat_map (fun a => match filter (on a) table with
                     | [] => [(a, None)]
                     | found => map (fun b => (a, Some b)) found
                     end) rows.

(** The keys of [.groupBy(projects.id, users.id)]; NULLs group
    together. *)
Definition Key : Type := Id * option Id.

Definition eqKey (a b : Key) : bool :=
  eqId (fst a) (fst b) &&
  match snd a, snd b with
  | Some x, Some y => eqId x y
  | None, None => true
  | _, _ => false
  end.

Fixpoint distinct {K} (eqk : K -> K -> bool) (ks : list K) : list K :=
  match ks with
  | [] => []
  | k :: rest => k :: filter (fun x => negb (eqk x k)) (distinct eqk rest)
  end.

Definition groupBy {A K} (key : A -> K) (eqk : K -> K -> bool)
  (rows : list A) : list (list A) :=
  map (fun k => filter (fun r => eqk (key r) k) rows)
      (distinct eqk (map key rows)).

(** [count(column)] over a group: the rows in which the column is not
    NULL. *)
Definition countColumn {A B} (column : A -> option B) (group : list A) : Z :=
  Z.of_nat (rowCount (fun r => match column r with
                               | Some _ => true
                               | None => false
                               end) group).

Module ProjectWithUser.
Record t := mk {
    id : Id;
    title : string;
    shortDescription : string;
    detailedDescription : string;
    thumbnailUrl : option string;
    demoUrl : option string;
    sourceUrl : option string;
    tags : option (list string);
    techStack : option (list string);
    userId : Id;
    createdAt : Timestamp;
    updatedAt : Timestamp;
    user : option User.t;
    isFeatured : bool;
    likeCount : Z;
    commentCount : Z
  }.
End ProjectWithUser.

Definition Joined : Type :=
  Project.t * option User.t * option ProjectLike.t * option Comment.t.

Definition joinedProject (r : Joined) : Project.t := fst (fst (fst r)).
Definition joinedUser (r : Joined) : option User.t := snd (fst (fst r)).
Definition joinedLike (r : Joined) : option ProjectLike.t := snd (fst r).
Definition joinedComment (r : Joined) : option Comment.t := snd r.

(** The select list, evaluated on one group. *)
Definition selectGroup (group : list Joined) : list ProjectWithUser.t :=
  match group with
  | [] => []
  | r :: _ =>
      let p := joinedProject r in
      [ProjectWithUser.mk (Project.id p) (Project.title p)
         (Project.shortDescription p) (Project.detailedDescription p)
         (Project.thumbnailUrl p) (Project.demoUrl p) (Project.sourceUrl p)
         (Project.tags p) (Project.techStack p) (Project.userId p)
         (Project.createdAt p) (Project.updatedAt p) (joinedUser r)
         (Project.isFeatured p)
         (countColumn (fun x => option_map ProjectLike.id (joinedLike x)) group)
         (countColumn (fun x => option_map Comment.id (joinedComment x)) group)]
  end.

(** [.from(projects).leftJoin(users, ...).leftJoin(projectLikes, ...)
     .leftJoin(comments, ...)] *)
Definition joinProjects (d : DB) (ps : list Project.t) : list Joined :=
  leftJoin (fun (r : Project.t * option User.t * option ProjectLike.t) c =>
              eqNullable (Comment.projectId c) (Project.id (fst (fst r))))
           (comments d)
    (leftJoin (fun (r : Project.t * option User.t) l =>
                 eqId (Project.id (fst r)) (ProjectLike.projectId l))
              (projectLikes d)
       (leftJoin (fun p u => eqId (Project.userId p) (User.id u))
                 (users d) ps)).

Definition selectProject (d : DB) (id : Id) : list ProjectWithUser.t :=
  flat_map selectGroup
    (groupBy (fun r => (Project.id (joinedProject r),
                        option_map User.id (joinedUser r)))
             eqKey
             (filter (fun r => eqId (Project.id (joinedProject r)) id)
                     (joinProjects d (projects d)))).

Definition getProject (id : Id) : Task (option ProjectWithUser.t) :=
  roundtrip ;;
  d <- get_db ;;
  ret (hd_error (selectProject d id)).

(** The nullable side of a left join. *)
Definition orNull {B} (found : list B) : list (option B) :=
  match found with
  | [] => [None]
  | _ => map Some found
  end.

End Legacy.

(** ** Comments with one parent

    A comment attached to a project only, or to a post only, by a
    non-empty id. *)
Definition one_parent (projectId postId : option Id) : bool :=
  match projectId, postId with
  | Some p, None => negb (String.eqb p EmptyString)
  | None, Some q => negb (String.eqb q EmptyString)
  | _, _ => false
  end.

(** * Properties *)

(** ** Running statements *)

Lemma roundtrip_served (w : World) :
  faults w = [] ->
  roundtrip w = (Ok tt, mkWorld (db w) [] (entropy w) (drawn w) (S (clock w))).
Proof. intros H. unfold roundtrip. rewrite H. reflexivity. Qed.

Lemma bind_ok {A B} (m : Task A) (k : A -> Task B) (w w1 : World) (a : A) :
  m w = (Ok a, w1) -> bind m k w = k a w1.
Proof. intros H. unfold bind. now rewrite H. Qed.

Lemma bind_throw {A B} (m : Task A) (k : A -> Task B) (w w1 : World) (e : string) :
  m w = (Throw e, w1) -> bind m k w = (Throw e, w1).
Proof. intros H. unfold bind. now rewrite H. Qed.

Ltac unfold_tasks :=
  unfold likeProject, unlikeProject, likeCommunityPost, unlikeCommunityPost,
    bookmarkProject, unbookmarkProject, createComment, deleteComment,
    incrementProjectViews, trackProjectView, bumpParent,
    insertProjectLike, deleteProjectLikes, insertPostLike, deletePostLikes,
    insertProjectBookmark, deleteProjectBookmarks, insertComment,
    selectComments, deleteComments, insertProjectView, updateProjects,
    updateCommunityPosts, selectCount, check, try_catch, bind, ret, throw,
    get_db, put_db, newDate, gen_random_uuid, roundtrip, set_db in *.

(** ** Unlike *)

Lemma rowCount_zero_filter {A} (f : A -> bool) (l : list A) :
  rowCount f l = 0 -> filter (fun r => negb (f r)) l = l.
Proof.
  unfold rowCount. induction l as [|a l IH]; simpl; intros H; [reflexivity|].
  destruct (f a); simpl in *; [discriminate|]. now rewrite IH.
Qed.

Lemma db_eta (d : DB) :
  mkDB (users d) (projects d) (projectLikes d) (projectBookmarks d)
       (communityPosts d) (postLikes d) (comments d) (projectViews d) = d.
Proof. now destruct d. Qed.



(** ** Like *)

(** C1, as the code has it.  The like tables declare a generated
    primary key and two foreign keys and no uniqueness over (target,
    user).  With the store serving both statements of the call,
    [likeProject] and [likeCommunityPost] return true, append one like
    row and leave the target's [likeCount] 1 more than it was whenever
    the insert is accepted, whether or not the user already likes the
    target; they return false and leave the database as it was exactly
    when the insert is rejected (id taken, unknown target or unknown
    user). *)
Theorem recordLike_counts_every_accepted_insert :
  forall (w : World) (target user : Id),
    faults w = [] ->
    (let out := likeProject target user w in
     (like_accepted w target user = true ->
        fst out = Ok true /\
        projectLikes (db (snd out)) =
          projectLikes (db w)
          ++ [ProjectLike.mk (entropy w (drawn w)) target user (S (clock w))] /\
        projects (db (snd out)) =
          map (fun p =>
                 if eqId (Project.id p) target then
                   Project.with_counts (Project.viewCount p)
                     (Project.likeCount p + 1) (Project.commentCount p)
                     (Project.countsLastUpdated p) p
                 else p)
              (projects (db w))) /\
     (like_accepted w target user = false ->
        fst out = Ok false /\ db (snd out) = db w)) /\
    (let out := likeCommunityPost target user w in
     (postLike_accepted w target user = true ->
        fst out = Ok true /\
        postLikes (db (snd out)) =
          postLikes (db w)
          ++ [PostLike.mk (entropy w (drawn w)) target user (S (clock w))] /\
        communityPosts (db (snd out)) =
          map (fun q =>
                 if eqId (CommunityPost.id q) target then
                   CommunityPost.with_counts (CommunityPost.likeCount q + 1)
                     (CommunityPost.commentCount q)
                     (CommunityPost.countsLastUpdated q) q
                 else q)
              (communityPosts (db w))) /\
     (postLike_accepted w target user = false ->
        fst out = Ok false /\ db (snd out) = db w)).
Proof.
  intros w target user Hf. split; cbv zeta.
  - unfold like_accepted. unfold_tasks. rewrite Hf. cbn [fst snd db faults entropy drawn clock].
    destruct (fresh_in _ _ _); cbn;
      [destruct (has_project _ _); cbn; [destruct (has_user _ _); cbn|]|];
      split; intros H; try discriminate; auto.
  - unfold postLike_accepted. unfold_tasks. rewrite Hf. cbn [fst snd db faults entropy drawn clock].
    destruct (fresh_in _ _ _); cbn;
      [destruct (has_post _ _); cbn; [destruct (has_user _ _); cbn|]|];
      split; intros H; try discriminate; auto.
Qed.

Lemma recordLike_counts_every_accepted_insert_witness :
  let w := Scenario.world Scenario.liked_db [] in
  map Project.likeCount (projects (db w)) = [1; 0]%Z /\
  fst (likeProject "p-1" "u-alice" w) = Ok true /\
  map Project.likeCount (projects (db (snd (likeProject "p-1" "u-alice" w))))
  = [2; 0]%Z /\
  length (projectLikes (db (snd (likeProject "p-1" "u-alice" w)))) = 2 /\
  fst (likeProject "p-9" "u-alice" w) = Ok false /\
  db (snd (likeProject "p-9" "u-alice" w)) = Scenario.liked_db /\
  fst (likeCommunityPost "q-1" "u-bob" w) = Ok true /\
  map CommunityPost.likeCount
      (communityPosts (db (snd (likeCommunityPost "q-1" "u-bob" w))))
  = [1]%Z.
Proof.
  cbv zeta.
  pose proof (recordLike_counts_every_accepted_insert
                (Scenario.world Scenario.liked_db []) "p-1" "u-alice" eq_refl) as [[Ha _] _].
  pose proof (recordLike_counts_every_accepted_insert
                (Scenario.world Scenario.liked_db []) "p-9" "u-alice" eq_refl) as [[_ Hb] _].
  pose proof (recordLike_counts_every_accepted_insert
                (Scenario.world Scenario.liked_db []) "q-1" "u-bob" eq_refl) as [_ [Hq _]].
  cbv zeta in *.
  destruct Ha as [Ha1 [Ha2 Ha3]]; [vm_compute; reflexivity|].
  destruct Hb as [Hb1 Hb2]; [vm_compute; reflexivity|].
  destruct Hq as [Hq1 [_ Hq3]]; [vm_compute; reflexivity|].
  split; [reflexivity|]. split; [exact Ha1|].
  split; [rewrite Ha3; reflexivity|].
  split; [rewrite Ha2; reflexivity|].
  split; [exact Hb1|]. split; [exact Hb2|].
  split; [exact Hq1 | rewrite Hq3; reflexivity].
Defined.

(** Against C1 as stated: the same user likes the same fresh project
    twice; both calls return true, two like rows exist for the pair and
    the cached [likeCount] reads 2. *)
Lemma second_like_is_counted :
  let first := likeProject "p-1" "u-alice" (Scenario.world Scenario.fresh_db []) in
  let second := likeProject "p-1" "u-alice" (snd first) in
  fst first = Ok true /\
  map Project.likeCount (projects (db (snd first))) = [1; 0]%Z /\
  fst second = Ok true /\
  rowCount (like_hit "p-1" "u-alice") (projectLikes (db (snd second))) = 2 /\
  map Project.likeCount (projects (db (snd second))) = [2; 0]%Z.
Proof. vm_compute. repeat split. Qed.

(** ** Bookmarks *)

(** C9.  Under every schedule of faults, [bookmarkProject] and
    [unbookmarkProject] leave every table but [projectBookmarks] as it
    was, so every project row keeps all its columns, cached counters
    included; the bookmark table is unchanged, or extended by one row
    for the pair (bookmark), or stripped of the pair's rows
    (unbookmark). *)
Theorem bookmarks_touch_no_project :
  forall (w : World) (projectId userId : Id),
    (let d' := db (snd (bookmarkProject projectId userId w)) in
     set_projectBookmarks (projectBookmarks (db w)) d' = db w /\
     projects d' = projects (db w) /\
     (projectBookmarks d' = projectBookmarks (db w) \/
      exists id at_,
        projectBookmarks d' =
          projectBookmarks (db w)
          ++ [ProjectBookmark.mk id projectId userId at_])) /\
    (let d' := db (snd (unbookmarkProject projectId userId w)) in
     set_projectBookmarks (projectBookmarks (db w)) d' = db w /\
     projects d' = projects (db w) /\
     (projectBookmarks d' = projectBookmarks (db w) \/
      projectBookmarks d' =
        filter (fun r => negb (bookmark_hit projectId userId r))
               (projectBookmarks (db w)))).
Proof.
  intros w projectId userId. split; cbv zeta.
  - unfold_tasks. unfold set_projectBookmarks.
    destruct (faults w) as [|[|] fs]; cbn [fst snd db].
    all: try (rewrite db_eta; auto; fail).
    all: destruct (fresh_in _ _ _); cbn; try (rewrite db_eta; auto; fail).
    all: destruct (has_project _ _); cbn; try (rewrite db_eta; auto; fail).
    all: destruct (has_user _ _); cbn; rewrite db_eta; auto.
    all: split; [reflexivity | split; [reflexivity | right; eauto]].
  - unfold_tasks. unfold set_projectBookmarks.
    destruct (faults w) as [|[|] fs]; cbn; try rewrite db_eta; auto.
Qed.

(** ** Comments *)

Lemma has_project_nonempty (d : DB) (p : Id) :
  has_project d "" = false -> has_project d p = true ->
  String.eqb p "" = false.
Proof.
  intros H0 Hp. destruct (String.eqb_spec p ""); [subst; congruence | reflexivity].
Qed.

Lemma has_post_nonempty (d : DB) (p : Id) :
  has_post d "" = false -> has_post d p = true ->
  String.eqb p "" = false.
Proof.
  intros H0 Hp. destruct (String.eqb_spec p ""); [subst; congruence | reflexivity].
Qed.

(** C10, as the code has it.  [createComment], ids being non-empty
    and the store serving every statement.  When the store accepts the
    insert (the drawn id is free, the referenced project, post and user
    exist) the new row is appended to [comments] and returned, and the
    counter update looks at [projectId] first: if [projectId] is set,
    only the [commentCount] of that project is 1 more than it was, even
    when [postId] is set too; if only [postId] is set, only the
    [commentCount] of that post is 1 more; if neither is set no counter
    moves.  When the store rejects the insert the call throws and the
    database is as it was: no row, no counter. *)
Theorem createComment_counts_on_project_first :
  forall (w : World) (comment : InsertComment.t),
    faults w = [] ->
    ids_nonempty (db w) ->
    let out := createComment comment w in
    let newComment :=
      Comment.mk (entropy w (drawn w)) (InsertComment.content comment)
                 (InsertComment.projectId comment) (InsertComment.postId comment)
                 (InsertComment.userId comment) (S (clock w)) (S (clock w)) in
    (comment_accepted w comment = true ->
     fst out = Ok newComment /\
     comments (db (snd out)) = comments (db w) ++ [newComment] /\
     counted_on_parent (InsertComment.projectId comment)
                       (InsertComment.postId comment) 1 (db w) (db (snd out))) /\
    (comment_accepted w comment = false ->
     (exists error, fst out = Throw error) /\ db (snd out) = db w).
Proof.
  intros w [content projectId postId userId] Hf [Hp0 Hq0].
  unfold comment_accepted. cbn [InsertComment.projectId
    InsertComment.postId InsertComment.userId InsertComment.content].
  cbv zeta. unfold_tasks.
  cbn [InsertComment.projectId InsertComment.postId InsertComment.userId
       InsertComment.content].
  rewrite Hf. cbn [fst snd db faults entropy drawn clock].
  split.
  - intros Hacc.
    apply andb_prop in Hacc as [Hacc Hu]. apply andb_prop in Hacc as [Hacc Hq].
    apply andb_prop in Hacc as [Hid Hp].
    rewrite Hid, Hp, Hq, Hu. cbn.
    destruct projectId as [p|]; cbn in *.
    + rewrite (has_project_nonempty _ _ Hp0 Hp). cbn.
      split; [reflexivity|]. split; [reflexivity|]. split; [|reflexivity].
      apply map_ext. intros r. unfold where_id, Project.add_commentCount.
      now destruct (eqId (Project.id r) p).
    + destruct postId as [q|]; cbn in *.
      * rewrite (has_post_nonempty _ _ Hq0 Hq). cbn.
        split; [reflexivity|]. split; [reflexivity|]. split; [|reflexivity].
        apply map_ext. intros r. unfold where_id, CommunityPost.add_commentCount.
        now destruct (eqId (CommunityPost.id r) q).
      * auto.
  - intros Hrej.
    destruct (fresh_in Comment.id (comments (db w)) (entropy w (drawn w)));
      cbn in *; [|split; [eexists; reflexivity | reflexivity]].
    destruct (ref_ok (has_project (db w)) projectId);
      cbn in *; [|split; [eexists; reflexivity | reflexivity]].
    destruct (ref_ok (has_post (db w)) postId);
      cbn in *; [|split; [eexists; reflexivity | reflexivity]].
    destruct (has_user (db w) userId);
      cbn in *; [discriminate | split; [eexists; reflexivity | reflexivity]].
Qed.

Lemma createComment_counts_on_project_first_witness :
  let w := Scenario.world Scenario.liked_db [] in
  let both := createComment (InsertComment.mk "hi" (Some "p-1") (Some "q-1") "u-bob") w in
  let post := createComment (InsertComment.mk "hi" None (Some "q-1") "u-bob") w in
  let none := createComment (InsertComment.mk "hi" None None "u-bob") w in
  let lost := createComment (InsertComment.mk "hi" (Some "p-9") None "u-bob") w in
  (map Project.commentCount (projects (db (snd both))) = [1; 0]%Z /\
   map CommunityPost.commentCount (communityPosts (db (snd both))) = [0]%Z /\
   length (comments (db (snd both))) = 1) /\
  (map Project.commentCount (projects (db (snd post))) = [0; 0]%Z /\
   map CommunityPost.commentCount (communityPosts (db (snd post))) = [1]%Z /\
   length (comments (db (snd post))) = 1) /\
  (map Project.commentCount (projects (db (snd none))) = [0; 0]%Z /\
   map CommunityPost.commentCount (communityPosts (db (snd none))) = [0]%Z /\
   length (comments (db (snd none))) = 1) /\
  ((exists error, fst lost = Throw error) /\ db (snd lost) = Scenario.liked_db).
Proof.
  cbv zeta.
  assert (Hn : ids_nonempty (db (Scenario.world Scenario.liked_db []))) by (split; reflexivity).
  pose proof (createComment_counts_on_project_first
                (Scenario.world Scenario.liked_db [])
                (InsertComment.mk "hi" (Some "p-1") (Some "q-1") "u-bob")
                eq_refl Hn) as [Hboth _].
  pose proof (createComment_counts_on_project_first
                (Scenario.world Scenario.liked_db [])
                (InsertComment.mk "hi" None (Some "q-1") "u-bob")
                eq_refl Hn) as [Hpost _].
  pose proof (createComment_counts_on_project_first
                (Scenario.world Scenario.liked_db [])
                (InsertComment.mk "hi" None None "u-bob")
                eq_refl Hn) as [Hnone _].
  pose proof (createComment_counts_on_project_first
                (Scenario.world Scenario.liked_db [])
                (InsertComment.mk "hi" (Some "p-9") None "u-bob")
                eq_refl Hn) as [_ Hlost].
  cbv zeta in *.
  destruct (Hboth eq_refl) as [_ [Hc1 [Hp1 Hq1]]].
  destruct (Hpost eq_refl) as [_ [Hc2 [Hq2 Hp2]]].
  destruct (Hnone eq_refl) as [_ [Hc3 [Hp3 Hq3]]].
  cbn [InsertComment.projectId InsertComment.postId] in *.
  split; [|split; [|split]].
  - rewrite Hp1, Hq1, Hc1. repeat split.
  - rewrite Hp2, Hq2, Hc2. repeat split.
  - rewrite Hp3, Hq3, Hc3. repeat split.
  - apply Hlost. reflexivity.
Defined.

(** Against C10 as stated: a comment on a project that does not exist.
    The store rejects the insert on the foreign key, [createComment]
    throws instead of returning a row, and no comment is inserted. *)
Lemma createComment_rejects_an_unknown_parent :
  let out :=
    createComment (InsertComment.mk "hi" (Some "p-9") None "u-bob")
                  (Scenario.world Scenario.fresh_db []) in
  fst out = Throw fk_violation /\
  comments (db (snd out)) = [] /\
  db (snd out) = Scenario.fresh_db.
Proof. vm_compute. repeat split. Qed.

Lemma find_filter {A} (f : A -> bool) (l : list A) :
  find f l = match filter f l with
             | [] => None
             | c :: _ => Some c
             end.
Proof.
  induction l as [|a l IH]; simpl; [reflexivity|].
  destruct (f a); [reflexivity | exact IH].
Qed.

Lemma existsb_filter_nil {A} (f : A -> bool) (l : list A) :
  existsb f l = false -> filter f l = [].
Proof.
  induction l as [|a l IH]; simpl; [reflexivity|].
  destruct (f a); simpl; [discriminate | exact IH].
Qed.

Lemma truthy_some (p : Id) : Some p <> Some "" -> truthy (Some p) = true.
Proof.
  intros H. unfold truthy.
  destruct (String.eqb_spec p ""); [subst; now destruct H | reflexivity].
Qed.

(** C7.  [deleteComment id userId], the store serving every
    statement: rows owned by somebody else always survive; when no
    comment has this id and this owner the call returns false and the
    database is as it was; otherwise the comment looked up first is the
    one whose parent is charged: the call returns true, the matching
    rows are gone and that parent's [commentCount] (the project's when
    [projectId] is set, else the post's) is 1 less than it was, every
    other counter being as it was. *)
Theorem removeComment_owner_only :
  forall (w : World) (id userId : Id),
    faults w = [] ->
    parents_nonempty (db w) ->
    let out := deleteComment id userId w in
    (forall c, In c (comments (db w)) -> Comment.userId c <> userId ->
               In c (comments (db (snd out)))) /\
    (existsb (comment_hit id userId) (comments (db w)) = false ->
       fst out = Ok false /\ db (snd out) = db w) /\
    (forall c, find (comment_hit id userId) (comments (db w)) = Some c ->
       fst out = Ok true /\
       comments (db (snd out)) =
         filter (fun r => negb (comment_hit id userId r)) (comments (db w)) /\
       counted_on_parent (Comment.projectId c) (Comment.postId c) (-1)
                         (db w) (db (snd out))).
Proof.
  intros w id userId Hf Hne. cbv zeta.
  assert (Hkeep : forall c, In c (comments (db w)) -> Comment.userId c <> userId ->
            In c (filter (fun r => negb (comment_hit id userId r)) (comments (db w)))).
  { intros c Hin Hu. apply filter_In. split; [exact Hin|].
    unfold comment_hit, eqId. destruct (String.eqb_spec (Comment.userId c) userId);
      [contradiction | now rewrite andb_false_r]. }
  rewrite find_filter. unfold_tasks. rewrite Hf. cbn [fst snd db faults].
  unfold rowCount.
  destruct (filter (comment_hit id userId) (comments (db w))) as [|c rest] eqn:E.
  - cbn. split; [auto | split; [auto | discriminate]].
  - assert (Hin : In c (comments (db w))).
    { apply (proj1 (filter_In (comment_hit id userId) c (comments (db w)))).
      rewrite E. now left. }
    destruct (Hne c Hin) as [Hp Hq].
    cbn. rewrite E. cbn.
    split; [|split].
    + intros c' Hin' Hu. specialize (Hkeep c' Hin' Hu).
      cbn. destruct (Comment.projectId c) as [p|]; [rewrite (truthy_some Hp)|];
        cbn; [exact Hkeep|].
      destruct (Comment.postId c) as [q|]; [rewrite (truthy_some Hq)|];
        cbn; exact Hkeep.
    + intros Hex. apply existsb_filter_nil in Hex. congruence.
    + intros c0 Hc0. injection Hc0 as <-. cbn.
      destruct (Comment.projectId c) as [p|]; [rewrite (truthy_some Hp)|];
        cbn; [auto|].
      destruct (Comment.postId c) as [q|]; [rewrite (truthy_some Hq)|];
        cbn; auto.
Qed.

Lemma removeComment_owner_only_witness :
  let w := Scenario.world Scenario.commented_db [] in
  let w2 :=
    Scenario.world
      (set_comments [Comment.mk "c-2" "both" (Some "p-1") (Some "q-1") "u-bob" 6 6]
         (set_projects [Project.add_commentCount 1 Scenario.projectP;
                        Scenario.projectR]
            Scenario.fresh_db)) [] in
  (map CommunityPost.commentCount (communityPosts (db w)) = [1]%Z /\
   fst (deleteComment "c-1" "u-bob" w) = Ok true /\
   map CommunityPost.commentCount
       (communityPosts (db (snd (deleteComment "c-1" "u-bob" w)))) = [0]%Z /\
   map Project.commentCount
       (projects (db (snd (deleteComment "c-1" "u-bob" w)))) = [0; 0]%Z /\
   comments (db (snd (deleteComment "c-1" "u-bob" w))) = []) /\
  (fst (deleteComment "c-1" "u-alice" w) = Ok false /\
   db (snd (deleteComment "c-1" "u-alice" w)) = Scenario.commented_db) /\
  (map Project.commentCount (projects (db w2)) = [1; 0]%Z /\
   fst (deleteComment "c-2" "u-bob" w2) = Ok true /\
   map Project.commentCount
       (projects (db (snd (deleteComment "c-2" "u-bob" w2)))) = [0; 0]%Z /\
   map CommunityPost.commentCount
       (communityPosts (db (snd (deleteComment "c-2" "u-bob" w2)))) = [0]%Z).
Proof.
  cbv zeta.
  assert (Hn : parents_nonempty (db (Scenario.world Scenario.commented_db []))).
  { intros c [<-|[]]. split; discriminate. }
  pose proof (removeComment_owner_only
                (Scenario.world Scenario.commented_db []) "c-1" "u-bob" eq_refl Hn)
    as [_ [_ Ha]].
  pose proof (removeComment_owner_only
                (Scenario.world Scenario.commented_db []) "c-1" "u-alice" eq_refl Hn)
    as [_ [Hb _]].
  match goal with |- _ /\ _ /\ (_ /\ fst (deleteComment _ _ ?w2) = _ /\ _) =>
    assert (Hn2 : parents_nonempty (db w2))
      by (intros c [<-|[]]; split; discriminate);
    pose proof (removeComment_owner_only w2 "c-2" "u-bob" eq_refl Hn2)
      as [_ [_ Hc]]
  end.
  cbv zeta in *.
  destruct (Ha _ eq_refl) as [Ha1 [Ha2 [Ha3 Ha4]]].
  destruct (Hb eq_refl) as [Hb1 Hb2].
  destruct (Hc _ eq_refl) as [Hc1 [_ [Hc3 Hc4]]].
  cbn [Comment.projectId Comment.postId] in *.
  split; [|split].
  - split; [reflexivity|]. split; [exact Ha1|].
    rewrite Ha3, Ha4, Ha2. repeat split.
  - split; [exact Hb1 | exact Hb2].
  - split; [reflexivity|]. split; [exact Hc1|].
    rewrite Hc3, Hc4. repeat split.
Defined.

(** ** Views *)

Lemma incrementProjectViews_adds_one (w : World) (id : Id) :
  faults w = [] ->
  let out := incrementProjectViews id w in
  fst out = Ok tt /\
  projects (db (snd out)) =
    map (where_id Project.id id (Project.add_viewCount 1)) (projects (db w)) /\
  projectViews (db (snd out)) = projectViews (db w).
Proof.
  intros Hf. cbv zeta. unfold_tasks. rewrite Hf. cbn. auto.
Qed.

(** C4.  [trackProjectView], the store serving every statement and the
    drawn id being free: each call appends one ProjectView row, whatever
    views the same viewer has already left, and adds exactly 1 to the
    [viewCount] of the project. *)
Theorem recordView_appends_and_increments :
  forall (w : World) (projectId : Id) (userId : option Id)
         (ipAddress : option string),
    faults w = [] ->
    fresh_in ProjectView.id (projectViews (db w)) (entropy w (drawn w)) = true ->
    let out := trackProjectView projectId userId ipAddress w in
    fst out = Ok tt /\
    projectViews (db (snd out)) =
      projectViews (db w)
      ++ [ProjectView.mk (entropy w (drawn w)) projectId userId ipAddress
                         (S (clock w))] /\
    projects (db (snd out)) =
      map (where_id Project.id projectId (Project.add_viewCount 1))
          (projects (db w)) /\
    (forall p, Project.id p = projectId ->
       Project.viewCount
         (where_id Project.id projectId (Project.add_viewCount 1) p)
       = (Project.viewCount p + 1)%Z).
Proof.
  intros w projectId userId ipAddress Hf Hid. cbv zeta.
  unfold_tasks. rewrite Hf. cbn [fst snd db faults entropy drawn clock].
  rewrite Hid. cbn. repeat split.
  intros p <-. unfold where_id, eqId. now rewrite String.eqb_refl.
Qed.

Lemma recordView_appends_and_increments_witness :
  let first := trackProjectView "p-1" None (Some "10.0.0.7")
                 (Scenario.world Scenario.fresh_db []) in
  let second := trackProjectView "p-1" None (Some "10.0.0.7") (snd first) in
  fst second = Ok tt /\
  length (projectViews (db (snd second))) = 2 /\
  map Project.viewCount (projects (db (snd second))) = [2; 0]%Z.
Proof.
  cbv zeta.
  pose proof (recordView_appends_and_increments
                (snd (trackProjectView "p-1" None (Some "10.0.0.7")
                        (Scenario.world Scenario.fresh_db [])))
                "p-1" None (Some "10.0.0.7") eq_refl eq_refl) as [Hr [Hv [Hp _]]].
  split; [exact Hr|]. rewrite Hv, Hp. vm_compute. split; reflexivity.
Defined.

(** ** Recounting one entity *)

Lemma where_id_project_id (id : Id) (set : Project.t -> Project.t) (p : Project.t) :
  (forall x, Project.id (set x) = Project.id x) ->
  Project.id (where_id Project.id id set p) = Project.id p.
Proof. intros H. unfold where_id. destruct (eqId _ _); auto. Qed.

Lemma where_id_post_id (id : Id) (set : CommunityPost.t -> CommunityPost.t)
  (q : CommunityPost.t) :
  (forall x, CommunityPost.id (set x) = CommunityPost.id x) ->
  CommunityPost.id (where_id CommunityPost.id id set q) = CommunityPost.id q.
Proof. intros H. unfold where_id. destruct (eqId _ _); auto. Qed.

(** What [recountProject] leaves behind: on success the matching rows
    carry the counts and the stamp, on failure nothing was written; the
    only failure is a refusal by the store. *)
Lemma recountProject_run (w : World) (projectId : Id) :
  let out := recountProject projectId w in
  rows_of (db (snd out)) = rows_of (db w) /\
  communityPosts (db (snd out)) = communityPosts (db w) /\
  match fst out with
  | Ok _ =>
      projects (db (snd out)) =
        map (where_id Project.id projectId
               (Project.with_counts
                  (counted (view_of projectId) (projectViews (db w)))
                  (counted (like_of projectId) (projectLikes (db w)))
                  (counted (comment_of_project projectId) (comments (db w)))
                  (Some (3 + clock w))))
            (projects (db w))
  | Throw e => e = store_unavailable /\ db (snd out) = db w
  end.
Proof.
  cbv zeta. unfold recountProject. unfold_tasks.
  destruct (faults w) as [|[|] [|[|] [|[|] [|[|] fs]]]]; cbn; auto.
Qed.

Lemma recountPost_run (w : World) (postId : Id) :
  let out := recountPost postId w in
  rows_of (db (snd out)) = rows_of (db w) /\
  projects (db (snd out)) = projects (db w) /\
  match fst out with
  | Ok _ =>
      communityPosts (db (snd out)) =
        map (where_id CommunityPost.id postId
               (CommunityPost.with_counts
                  (counted (postLike_of postId) (postLikes (db w)))
                  (counted (comment_of_post postId) (comments (db w)))
                  (Some (2 + clock w))))
            (communityPosts (db w))
  | Throw e => e = store_unavailable /\ db (snd out) = db w
  end.
Proof.
  cbv zeta. unfold recountPost. unfold_tasks.
  destruct (faults w) as [|[|] [|[|] [|[|] fs]]]; cbn; auto.
Qed.

Lemma recountProject_served (w : World) (projectId : Id) :
  faults w = [] -> fst (recountProject projectId w) = Ok tt.
Proof. intros Hf. unfold recountProject. unfold_tasks. rewrite Hf. reflexivity. Qed.

Lemma recountPost_served (w : World) (postId : Id) :
  faults w = [] -> fst (recountPost postId w) = Ok tt.
Proof. intros Hf. unfold recountPost. unfold_tasks. rewrite Hf. reflexivity. Qed.

Lemma rows_of_views (d d' : DB) : rows_of d' = rows_of d -> projectViews d' = projectViews d.
Proof. unfold rows_of. congruence. Qed.
Lemma rows_of_likes (d d' : DB) : rows_of d' = rows_of d -> projectLikes d' = projectLikes d.
Proof. unfold rows_of. congruence. Qed.
Lemma rows_of_postLikes (d d' : DB) : rows_of d' = rows_of d -> postLikes d' = postLikes d.
Proof. unfold rows_of. congruence. Qed.
Lemma rows_of_comments (d d' : DB) : rows_of d' = rows_of d -> comments d' = comments d.
Proof. unfold rows_of. congruence. Qed.

Lemma project_in_sync_rows (d d' : DB) (p : Project.t) :
  rows_of d' = rows_of d -> project_in_sync d p -> project_in_sync d' p.
Proof.
  intros H. unfold project_in_sync.
  now rewrite (rows_of_views H), (rows_of_likes H), (rows_of_comments H).
Qed.

Lemma post_in_sync_rows (d d' : DB) (q : CommunityPost.t) :
  rows_of d' = rows_of d -> post_in_sync d q -> post_in_sync d' q.
Proof.
  intros H. unfold post_in_sync.
  now rewrite (rows_of_postLikes H), (rows_of_comments H).
Qed.

(** C2.  [syncSingleProjectCounts] completes when the store serves its
    four statements, and whenever it completes every project row with
    the given id has [viewCount], [likeCount] and [commentCount] equal
    to the number of matching rows of [projectViews], [projectLikes] and
    [comments], whatever the cache held before, and carries a fresh
    [countsLastUpdated]; the normalized tables are untouched.  Likewise
    for [syncSinglePostCounts] with [postLikes] and [comments]. *)
Theorem syncSingle_overwrites_with_row_counts :
  forall (w : World) (target : Id),
    (let out := syncSingleProjectCounts target w in
     (faults w = [] -> fst out = Ok tt) /\
     (fst out = Ok tt ->
        rows_of (db (snd out)) = rows_of (db w) /\
        map Project.id (projects (db (snd out)))
          = map Project.id (projects (db w)) /\
        forall p, In p (projects (db (snd out))) -> Project.id p = target ->
          project_in_sync (db (snd out)) p /\
          Project.countsLastUpdated p = Some (3 + clock w))) /\
    (let out := syncSinglePostCounts target w in
     (faults w = [] -> fst out = Ok tt) /\
     (fst out = Ok tt ->
        rows_of (db (snd out)) = rows_of (db w) /\
        map CommunityPost.id (communityPosts (db (snd out)))
          = map CommunityPost.id (communityPosts (db w)) /\
        forall q, In q (communityPosts (db (snd out))) ->
          CommunityPost.id q = target ->
          post_in_sync (db (snd out)) q /\
          CommunityPost.countsLastUpdated q = Some (2 + clock w))).
Proof.
  intros w target. split; cbv zeta.
  - unfold syncSingleProjectCounts, try_catch, throw.
    pose proof (recountProject_run w target) as [Hrows [_ Hrun]].
    pose proof (recountProject_served w target) as Hserved.
    destruct (recountProject target w) as [[[]|e] w']; cbn [fst snd] in *.
    2:{ split; [exact Hserved | discriminate]. }
    split; [reflexivity|]. intros _. split; [exact Hrows|]. split.
    + rewrite Hrun, map_map. apply map_ext. intros p.
      now apply where_id_project_id.
    + intros p Hin Hid. rewrite Hrun in Hin. apply in_map_iff in Hin as [p0 [<- _]].
      unfold where_id in *. destruct (eqId (Project.id p0) target) eqn:E.
      * cbn in Hid. subst target. split; [|reflexivity].
        apply (project_in_sync_rows (d := db w)); [exact Hrows|].
        unfold project_in_sync. cbn. auto.
      * unfold eqId in E. apply String.eqb_neq in E. contradiction.
  - unfold syncSinglePostCounts, try_catch, throw.
    pose proof (recountPost_run w target) as [Hrows [_ Hrun]].
    pose proof (recountPost_served w target) as Hserved.
    destruct (recountPost target w) as [[[]|e] w']; cbn [fst snd] in *.
    2:{ split; [exact Hserved | discriminate]. }
    split; [reflexivity|]. intros _. split; [exact Hrows|]. split.
    + rewrite Hrun, map_map. apply map_ext. intros q.
      now apply where_id_post_id.
    + intros q Hin Hid. rewrite Hrun in Hin. apply in_map_iff in Hin as [q0 [<- _]].
      unfold where_id in *. destruct (eqId (CommunityPost.id q0) target) eqn:E.
      * cbn in Hid. subst target. split; [|reflexivity].
        apply (post_in_sync_rows (d := db w)); [exact Hrows|].
        unfold post_in_sync. cbn. auto.
      * unfold eqId in E. apply String.eqb_neq in E. contradiction.
Qed.

Lemma syncSingle_overwrites_with_row_counts_witness :
  let out := syncSingleProjectCounts "p-2" (Scenario.world Scenario.drifted_db []) in
  fst out = Ok tt /\
  forall p, In p (projects (db (snd out))) -> Project.id p = "p-2" ->
            Project.likeCount p = 2%Z.
Proof.
  cbv zeta.
  pose proof (syncSingle_overwrites_with_row_counts
                (Scenario.world Scenario.drifted_db []) "p-2") as [[Hserved Hok] _].
  specialize (Hserved eq_refl). destruct (Hok Hserved) as [Hrows [_ Hp]].
  split; [exact Hserved|].
  intros p Hin Hid. destruct (Hp p Hin Hid) as [[_ [Hl _]] _].
  rewrite Hl, Hid, (rows_of_likes Hrows). reflexivity.
Defined.

(** ** The batch *)

Lemma recountProject_extends_sync (w : World) (projectId : Id) (done : list Id) :
  fst (recountProject projectId w) = Ok tt ->
  (forall p, In p (projects (db w)) -> In (Project.id p) done ->
             project_in_sync (db w) p) ->
  forall p, In p (projects (db (snd (recountProject projectId w)))) ->
            In (Project.id p) (projectId :: done) ->
            project_in_sync (db (snd (recountProject projectId w))) p.
Proof.
  intros Hok Hdone p Hin Hid.
  pose proof (recountProject_run w projectId) as [Hrows [_ Hrun]]. cbv zeta in *.
  rewrite Hok in Hrun. rewrite Hrun in Hin.
  apply in_map_iff in Hin as [p0 [<- Hin0]].
  apply (project_in_sync_rows (d := db w)); [exact Hrows|].
  unfold where_id in *. destruct (eqId (Project.id p0) projectId) eqn:E.
  - apply String.eqb_eq in E. subst projectId.
    unfold project_in_sync. cbn. auto.
  - apply String.eqb_neq in E. destruct Hid as [Hid|Hid]; [congruence|].
    now apply Hdone.
Qed.

Lemma syncProjectsLoop_syncs (ids : list Id) :
  forall (n : nat) (w : World) (done : list Id),
    let out := syncProjectsLoop ids n w in
    (exists m, fst out = Ok m) ->
    (forall p, In p (projects (db w)) -> In (Project.id p) done ->
               project_in_sync (db w) p) ->
    forall p, In p (projects (db (snd out))) ->
              In (Project.id p) (ids ++ done) ->
              project_in_sync (db (snd out)) p.
Proof.
  induction ids as [|projectId rest IH]; intros n w done; cbv zeta.
  - cbn. auto.
  - cbn [syncProjectsLoop].
    pose proof (@recountProject_extends_sync w projectId done) as Hstep.
    destruct (recountProject projectId w) as [[[]|e] w1] eqn:E; cbn [fst snd] in *.
    + rewrite (@bind_ok _ _ _ _ _ _ _ E). intros Hm Hdone p Hin Hid.
      apply (IH (S n) w1 (projectId :: done)); auto.
      apply in_app_or in Hid. apply in_or_app.
      destruct Hid as [[<-|Hid]|Hid]; [right; now left | now left | right; now right].
    + rewrite (@bind_throw _ _ _ _ _ _ _ E). intros [m Hm]. discriminate.
Qed.

Lemma syncProjectsLoop_frame (ids : list Id) :
  forall (n : nat) (w : World),
    let out := syncProjectsLoop ids n w in
    rows_of (db (snd out)) = rows_of (db w) /\
    communityPosts (db (snd out)) = communityPosts (db w) /\
    map Project.id (projects (db (snd out))) = map Project.id (projects (db w)).
Proof.
  induction ids as [|projectId rest IH]; intros n w; cbv zeta.
  - cbn. auto.
  - cbn [syncProjectsLoop].
    pose proof (recountProject_run w projectId) as [Hrows [Hposts Hrun]].
    cbv zeta in *.
    destruct (recountProject projectId w) as [[[]|e] w1] eqn:E; cbn [fst snd] in *.
    + rewrite (@bind_ok _ _ _ _ _ _ _ E).
      destruct (IH (S n) w1) as [H1 [H2 H3]]. cbv zeta in *.
      split; [congruence|]. split; [congruence|].
      rewrite H3, Hrun, map_map.
      apply map_ext. intros p. now apply where_id_project_id.
    + rewrite (@bind_throw _ _ _ _ _ _ _ E). cbn [fst snd].
      destruct Hrun as [_ ->]. auto.
Qed.

Lemma project_entry_in_sync (d : DB) (p p' : Project.t) :
  project_entry p = project_entry p' -> project_in_sync d p -> project_in_sync d p'.
Proof.
  unfold project_entry, project_in_sync. intros H. injection H as -> -> -> ->. auto.
Qed.

Lemma recountProject_fixes_synced (w : World) (projectId : Id) :
  (forall p, In p (projects (db w)) -> project_in_sync (db w) p) ->
  map project_entry (projects (db (snd (recountProject projectId w))))
  = map project_entry (projects (db w)).
Proof.
  intros Hs.
  pose proof (recountProject_run w projectId) as [_ [_ Hrun]]. cbv zeta in *.
  destruct (fst (recountProject projectId w)).
  - rewrite Hrun, map_map. apply map_ext_in. intros p Hin.
    unfold where_id. destruct (eqId (Project.id p) projectId) eqn:E; [|reflexivity].
    apply String.eqb_eq in E. subst projectId.
    destruct (Hs p Hin) as [Hv [Hl Hc]].
    unfold project_entry. cbn. now rewrite <- Hv, <- Hl, <- Hc.
  - now destruct Hrun as [_ ->].
Qed.

Lemma synced_transfer (d d' : DB) :
  rows_of d' = rows_of d ->
  map project_entry (projects d') = map project_entry (projects d) ->
  (forall p, In p (projects d) -> project_in_sync d p) ->
  forall p, In p (projects d') -> project_in_sync d' p.
Proof.
  intros Hrows Hmap Hs p Hin.
  apply (in_map project_entry) in Hin. rewrite Hmap in Hin.
  apply in_map_iff in Hin as [p0 [He Hin0]].
  apply (project_in_sync_rows (d := d)); [exact Hrows|].
  apply (project_entry_in_sync (p := p0)); auto.
Qed.

Lemma syncProjectsLoop_fixes_synced (ids : list Id) :
  forall (n : nat) (w : World),
    (forall p, In p (projects (db w)) -> project_in_sync (db w) p) ->
    map project_entry (projects (db (snd (syncProjectsLoop ids n w))))
    = map project_entry (projects (db w)).
Proof.
  induction ids as [|projectId rest IH]; intros n w Hs.
  - reflexivity.
  - cbn [syncProjectsLoop].
    pose proof (recountProject_fixes_synced w projectId Hs) as Hfix.
    pose proof (recountProject_run w projectId) as [Hrows _]. cbv zeta in *.
    destruct (recountProject projectId w) as [[[]|e] w1] eqn:E; cbn [fst snd] in *.
    + rewrite (@bind_ok _ _ _ _ _ _ _ E).
      rewrite IH; [exact Hfix|]. now apply (synced_transfer Hrows Hfix).
    + rewrite (@bind_throw _ _ _ _ _ _ _ E). exact Hfix.
Qed.

Lemma recountPost_extends_sync (w : World) (postId : Id) (done : list Id) :
  fst (recountPost postId w) = Ok tt ->
  (forall q, In q (communityPosts (db w)) -> In (CommunityPost.id q) done ->
             post_in_sync (db w) q) ->
  forall q, In q (communityPosts (db (snd (recountPost postId w)))) ->
            In (CommunityPost.id q) (postId :: done) ->
            post_in_sync (db (snd (recountPost postId w))) q.
Proof.
  intros Hok Hdone q Hin Hid.
  pose proof (recountPost_run w postId) as [Hrows [_ Hrun]]. cbv zeta in *.
  rewrite Hok in Hrun. rewrite Hrun in Hin.
  apply in_map_iff in Hin as [q0 [<- Hin0]].
  apply (post_in_sync_rows (d := db w)); [exact Hrows|].
  unfold where_id in *. destruct (eqId (CommunityPost.id q0) postId) eqn:E.
  - apply String.eqb_eq in E. subst postId.
    unfold post_in_sync. cbn. auto.
  - apply String.eqb_neq in E. destruct Hid as [Hid|Hid]; [congruence|].
    now apply Hdone.
Qed.

Lemma syncPostsLoop_syncs (ids : list Id) :
  forall (n : nat) (w : World) (done : list Id),
    let out := syncPostsLoop ids n w in
    (exists m, fst out = Ok m) ->
    (forall q, In q (communityPosts (db w)) -> In (CommunityPost.id q) done ->
               post_in_sync (db w) q) ->
    forall q, In q (communityPosts (db (snd out))) ->
              In (CommunityPost.id q) (ids ++ done) ->
              post_in_sync (db (snd out)) q.
Proof.
  induction ids as [|postId rest IH]; intros n w done; cbv zeta.
  - cbn. auto.
  - cbn [syncPostsLoop].
    pose proof (@recountPost_extends_sync w postId done) as Hstep.
    destruct (recountPost postId w) as [[[]|e] w1] eqn:E; cbn [fst snd] in *.
    + rewrite (@bind_ok _ _ _ _ _ _ _ E). intros Hm Hdone q Hin Hid.
      apply (IH (S n) w1 (postId :: done)); auto.
      apply in_app_or in Hid. apply in_or_app.
      destruct Hid as [[<-|Hid]|Hid]; [right; now left | now left | right; now right].
    + rewrite (@bind_throw _ _ _ _ _ _ _ E). intros [m Hm]. discriminate.
Qed.

Lemma syncPostsLoop_frame (ids : list Id) :
  forall (n : nat) (w : World),
    let out := syncPostsLoop ids n w in
    rows_of (db (snd out)) = rows_of (db w) /\
    projects (db (snd out)) = projects (db w) /\
    map CommunityPost.id (communityPosts (db (snd out)))
    = map CommunityPost.id (communityPosts (db w)).
Proof.
  induction ids as [|postId rest IH]; intros n w; cbv zeta.
  - cbn. auto.
  - cbn [syncPostsLoop].
    pose proof (recountPost_run w postId) as [Hrows [Hprojects Hrun]].
    cbv zeta in *.
    destruct (recountPost postId w) as [[[]|e] w1] eqn:E; cbn [fst snd] in *.
    + rewrite (@bind_ok _ _ _ _ _ _ _ E).
      destruct (IH (S n) w1) as [H1 [H2 H3]]. cbv zeta in *.
      split; [congruence|]. split; [congruence|].
      rewrite H3, Hrun, map_map.
      apply map_ext. intros q. now apply where_id_post_id.
    + rewrite (@bind_throw _ _ _ _ _ _ _ E). cbn [fst snd].
      destruct Hrun as [_ ->]. auto.
Qed.

Lemma post_entry_in_sync (d : DB) (q q' : CommunityPost.t) :
  post_entry q = post_entry q' -> post_in_sync d q -> post_in_sync d q'.
Proof.
  unfold post_entry, post_in_sync. intros H. injection H as -> -> ->. auto.
Qed.

Lemma recountPost_fixes_synced (w : World) (postId : Id) :
  (forall q, In q (communityPosts (db w)) -> post_in_sync (db w) q) ->
  map post_entry (communityPosts (db (snd (recountPost postId w))))
  = map post_entry (communityPosts (db w)).
Proof.
  intros Hs.
  pose proof (recountPost_run w postId) as [_ [_ Hrun]]. cbv zeta in *.
  destruct (fst (recountPost postId w)).
  - rewrite Hrun, map_map. apply map_ext_in. intros q Hin.
    unfold where_id. destruct (eqId (CommunityPost.id q) postId) eqn:E; [|reflexivity].
    apply String.eqb_eq in E. subst postId.
    destruct (Hs q Hin) as [Hl Hc].
    unfold post_entry. cbn. now rewrite <- Hl, <- Hc.
  - now destruct Hrun as [_ ->].
Qed.

Lemma post_synced_transfer (d d' : DB) :
  rows_of d' = rows_of d ->
  map post_entry (communityPosts d') = map post_entry (communityPosts d) ->
  (forall q, In q (communityPosts d) -> post_in_sync d q) ->
  forall q, In q (communityPosts d') -> post_in_sync d' q.
Proof.
  intros Hrows Hmap Hs q Hin.
  apply (in_map post_entry) in Hin. rewrite Hmap in Hin.
  apply in_map_iff in Hin as [q0 [He Hin0]].
  apply (post_in_sync_rows (d := d)); [exact Hrows|].
  apply (post_entry_in_sync (q := q0)); auto.
Qed.

Lemma syncPostsLoop_fixes_synced (ids : list Id) :
  forall (n : nat) (w : World),
    (forall q, In q (communityPosts (db w)) -> post_in_sync (db w) q) ->
    map post_entry (communityPosts (db (snd (syncPostsLoop ids n w))))
    = map post_entry (communityPosts (db w)).
Proof.
  induction ids as [|postId rest IH]; intros n w Hs.
  - reflexivity.
  - cbn [syncPostsLoop].
    pose proof (recountPost_fixes_synced w postId Hs) as Hfix.
    pose proof (recountPost_run w postId) as [Hrows _]. cbv zeta in *.
    destruct (recountPost postId w) as [[[]|e] w1] eqn:E; cbn [fst snd] in *.
    + rewrite (@bind_ok _ _ _ _ _ _ _ E).
      rewrite IH; [exact Hfix|]. now apply (post_synced_transfer Hrows Hfix).
    + rewrite (@bind_throw _ _ _ _ _ _ _ E). exact Hfix.
Qed.

Lemma try_rethrow {A} (m : Task A) (w : World) :
  try_catch m (fun error => throw error) w = m w.
Proof. unfold try_catch, throw. now destruct (m w) as [[a|e] w']. Qed.

Lemma selectProjectIds_run (w : World) :
  exists w', db w' = db w /\
    (selectProjectIds w = (Ok (map Project.id (projects (db w))), w') \/
     selectProjectIds w = (Throw store_unavailable, w')).
Proof.
  unfold selectProjectIds. unfold_tasks.
  destruct (faults w) as [|[|] fs]; cbn; eexists;
    (split; [|first [left; reflexivity | right; reflexivity]]); reflexivity.
Qed.

Lemma selectCommunityPostIds_run (w : World) :
  exists w', db w' = db w /\
    (selectCommunityPostIds w
       = (Ok (map CommunityPost.id (communityPosts (db w))), w') \/
     selectCommunityPostIds w = (Throw store_unavailable, w')).
Proof.
  unfold selectCommunityPostIds. unfold_tasks.
  destruct (faults w) as [|[|] fs]; cbn; eexists;
    (split; [|first [left; reflexivity | right; reflexivity]]); reflexivity.
Qed.

(** One half of the batch: it never touches the other tables; when it
    returns, every project is in sync; on a database already in sync it
    changes no counter, whether it returns or throws. *)
Lemma syncProjectCounts_run (w : World) :
  let out := syncProjectCounts w in
  rows_of (db (snd out)) = rows_of (db w) /\
  communityPosts (db (snd out)) = communityPosts (db w) /\
  ((exists m, fst out = Ok m) ->
   forall p, In p (projects (db (snd out))) -> project_in_sync (db (snd out)) p) /\
  ((forall p, In p (projects (db w)) -> project_in_sync (db w) p) ->
   map project_entry (projects (db (snd out))) = map project_entry (projects (db w))).
Proof.
  cbv zeta. unfold syncProjectCounts. rewrite try_rethrow.
  destruct (selectProjectIds_run w) as [w0 [Hdb [E|E]]].
  - rewrite (@bind_ok _ _ _ _ _ _ _ E).
    pose proof (syncProjectsLoop_frame (map Project.id (projects (db w))) 0 w0)
      as [Hrows [Hposts Hids]]. cbv zeta in *. rewrite Hdb in *.
    split; [exact Hrows|]. split; [exact Hposts|]. split.
    + intros Hm p Hin.
      apply (@syncProjectsLoop_syncs (map Project.id (projects (db w))) 0 w0 []);
        auto.
      * intros p0 _ [].
      * rewrite app_nil_r, <- Hids. now apply in_map.
    + intros Hs. rewrite syncProjectsLoop_fixes_synced; rewrite Hdb; auto.
  - rewrite (@bind_throw _ _ _ _ _ _ _ E). cbn [fst snd]. rewrite Hdb.
    split; [reflexivity|]. split; [reflexivity|]. split; [|reflexivity].
    intros [m Hm]. discriminate.
Qed.

Lemma syncCommunityPostCounts_run (w : World) :
  let out := syncCommunityPostCounts w in
  rows_of (db (snd out)) = rows_of (db w) /\
  projects (db (snd out)) = projects (db w) /\
  ((exists m, fst out = Ok m) ->
   forall q, In q (communityPosts (db (snd out))) -> post_in_sync (db (snd out)) q) /\
  ((forall q, In q (communityPosts (db w)) -> post_in_sync (db w) q) ->
   map post_entry (communityPosts (db (snd out)))
   = map post_entry (communityPosts (db w))).
Proof.
  cbv zeta. unfold syncCommunityPostCounts. rewrite try_rethrow.
  destruct (selectCommunityPostIds_run w) as [w0 [Hdb [E|E]]].
  - rewrite (@bind_ok _ _ _ _ _ _ _ E).
    pose proof (syncPostsLoop_frame
                  (map CommunityPost.id (communityPosts (db w))) 0 w0)
      as [Hrows [Hprojects Hids]]. cbv zeta in *. rewrite Hdb in *.
    split; [exact Hrows|]. split; [exact Hprojects|]. split.
    + intros Hm q Hin.
      apply (@syncPostsLoop_syncs
               (map CommunityPost.id (communityPosts (db w))) 0 w0 []); auto.
      * intros q0 _ [].
      * rewrite app_nil_r, <- Hids. now apply in_map.
    + intros Hs. rewrite syncPostsLoop_fixes_synced; rewrite Hdb; auto.
  - rewrite (@bind_throw _ _ _ _ _ _ _ E). cbn [fst snd]. rewrite Hdb.
    split; [reflexivity|]. split; [reflexivity|]. split; [|reflexivity].
    intros [m Hm]. discriminate.
Qed.

(** ** Refused statements

    [faults w = repeat false n ++ true :: fs]: the store serves the next
    [n] statements and refuses the one after. *)

Lemma recountProject_passes (w : World) (projectId : Id) (n : nat) (tl : list bool) :
  faults w = repeat false (4 + n) ++ tl ->
  exists w1, recountProject projectId w = (Ok tt, w1) /\
             faults w1 = repeat false n ++ tl.
Proof.
  intros Hf. cbn in Hf. unfold recountProject. unfold_tasks. rewrite Hf. cbn.
  eexists. split; reflexivity.
Qed.

Lemma recountProject_fails (w : World) (projectId : Id) (n : nat) (fs : list bool) :
  n < 4 -> faults w = repeat false n ++ true :: fs ->
  exists w1, recountProject projectId w = (Throw store_unavailable, w1) /\
             faults w1 = fs.
Proof.
  intros Hn Hf. unfold recountProject. unfold_tasks.
  destruct n as [|[|[|[|n]]]]; [| | | |lia]; cbn in Hf; rewrite Hf; cbn;
    eexists; split; reflexivity.
Qed.

Lemma recountProject_quiet (w : World) (projectId : Id) :
  faults w = [] ->
  exists w1, recountProject projectId w = (Ok tt, w1) /\ faults w1 = [].
Proof.
  intros Hf. unfold recountProject. unfold_tasks. rewrite Hf. cbn.
  eexists. split; reflexivity.
Qed.

Lemma recountPost_passes (w : World) (postId : Id) (n : nat) (tl : list bool) :
  faults w = repeat false (3 + n) ++ tl ->
  exists w1, recountPost postId w = (Ok tt, w1) /\
             faults w1 = repeat false n ++ tl.
Proof.
  intros Hf. cbn in Hf. unfold recountPost. unfold_tasks. rewrite Hf. cbn.
  eexists. split; reflexivity.
Qed.

Lemma recountPost_fails (w : World) (postId : Id) (n : nat) (fs : list bool) :
  n < 3 -> faults w = repeat false n ++ true :: fs ->
  exists w1, recountPost postId w = (Throw store_unavailable, w1) /\
             faults w1 = fs.
Proof.
  intros Hn Hf. unfold recountPost. unfold_tasks.
  destruct n as [|[|[|n]]]; [| | |lia]; cbn in Hf; rewrite Hf; cbn;
    eexists; split; reflexivity.
Qed.

Lemma recountPost_quiet (w : World) (postId : Id) :
  faults w = [] ->
  exists w1, recountPost postId w = (Ok tt, w1) /\ faults w1 = [].
Proof.
  intros Hf. unfold recountPost. unfold_tasks. rewrite Hf. cbn.
  eexists. split; reflexivity.
Qed.

Lemma syncProjectsLoop_passes (ids : list Id) :
  forall (k : nat) (w : World) (n : nat) (tl : list bool),
    faults w = repeat false (4 * length ids + n) ++ tl ->
    exists w1, syncProjectsLoop ids k w = (Ok (length ids + k), w1) /\
               faults w1 = repeat false n ++ tl.
Proof.
  induction ids as [|projectId rest IH]; intros k w n tl Hf.
  - cbn in *. eexists. split; [reflexivity | exact Hf].
  - replace (4 * length (projectId :: rest) + n)
      with (4 + (4 * length rest + n)) in Hf by (cbn [length]; lia).
    destruct (@recountProject_passes w projectId _ _ Hf) as [w1 [E Hf1]].
    destruct (IH (S k) w1 n tl Hf1) as [w2 [E2 Hf2]].
    exists w2. cbn [syncProjectsLoop length].
    rewrite (@bind_ok _ _ _ _ _ _ _ E), E2.
    split; [|exact Hf2]. do 2 f_equal. lia.
Qed.

Lemma syncProjectsLoop_fails (ids : list Id) :
  forall (k : nat) (w : World) (n : nat) (fs : list bool),
    n < 4 * length ids ->
    faults w = repeat false n ++ true :: fs ->
    exists w1, syncProjectsLoop ids k w = (Throw store_unavailable, w1) /\
               faults w1 = fs.
Proof.
  induction ids as [|projectId rest IH]; intros k w n fs Hn Hf.
  - cbn in Hn. lia.
  - cbn [syncProjectsLoop]. destruct (Nat.lt_ge_cases n 4) as [Hlt|Hge].
    + destruct (@recountProject_fails w projectId n fs Hlt Hf) as [w1 [E Hf1]].
      exists w1. now rewrite (@bind_throw _ _ _ _ _ _ _ E).
    + replace n with (4 + (n - 4)) in Hf by lia.
      destruct (@recountProject_passes w projectId _ _ Hf) as [w1 [E Hf1]].
      destruct (IH (S k) w1 (n - 4) fs) as [w2 [E2 Hf2]];
        [cbn [length] in Hn; lia | exact Hf1 |].
      exists w2. now rewrite (@bind_ok _ _ _ _ _ _ _ E).
Qed.

Lemma syncProjectsLoop_quiet (ids : list Id) :
  forall (k : nat) (w : World),
    faults w = [] ->
    exists w1, syncProjectsLoop ids k w = (Ok (length ids + k), w1) /\
               faults w1 = [].
Proof.
  induction ids as [|projectId rest IH]; intros k w Hf.
  - cbn. eexists. split; [reflexivity | exact Hf].
  - destruct (@recountProject_quiet w projectId Hf) as [w1 [E Hf1]].
    destruct (IH (S k) w1 Hf1) as [w2 [E2 Hf2]].
    exists w2. cbn [syncProjectsLoop length].
    rewrite (@bind_ok _ _ _ _ _ _ _ E), E2.
    split; [|exact Hf2]. do 2 f_equal. lia.
Qed.

Lemma syncPostsLoop_passes (ids : list Id) :
  forall (k : nat) (w : World) (n : nat) (tl : list bool),
    faults w = repeat false (3 * length ids + n) ++ tl ->
    exists w1, syncPostsLoop ids k w = (Ok (length ids + k), w1) /\
               faults w1 = repeat false n ++ tl.
Proof.
  induction ids as [|postId rest IH]; intros k w n tl Hf.
  - cbn in *. eexists. split; [reflexivity | exact Hf].
  - replace (3 * length (postId :: rest) + n)
      with (3 + (3 * length rest + n)) in Hf by (cbn [length]; lia).
    destruct (@recountPost_passes w postId _ _ Hf) as [w1 [E Hf1]].
    destruct (IH (S k) w1 n tl Hf1) as [w2 [E2 Hf2]].
    exists w2. cbn [syncPostsLoop length].
    rewrite (@bind_ok _ _ _ _ _ _ _ E), E2.
    split; [|exact Hf2]. do 2 f_equal. lia.
Qed.

Lemma syncPostsLoop_fails (ids : list Id) :
  forall (k : nat) (w : World) (n : nat) (fs : list bool),
    n < 3 * length ids ->
    faults w = repeat false n ++ true :: fs ->
    exists w1, syncPostsLoop ids k w = (Throw store_unavailable, w1) /\
               faults w1 = fs.
Proof.
  induction ids as [|postId rest IH]; intros k w n fs Hn Hf.
  - cbn in Hn. lia.
  - cbn [syncPostsLoop]. destruct (Nat.lt_ge_cases n 3) as [Hlt|Hge].
    + destruct (@recountPost_fails w postId n fs Hlt Hf) as [w1 [E Hf1]].
      exists w1. now rewrite (@bind_throw _ _ _ _ _ _ _ E).
    + replace n with (3 + (n - 3)) in Hf by lia.
      destruct (@recountPost_passes w postId _ _ Hf) as [w1 [E Hf1]].
      destruct (IH (S k) w1 (n - 3) fs) as [w2 [E2 Hf2]];
        [cbn [length] in Hn; lia | exact Hf1 |].
      exists w2. now rewrite (@bind_ok _ _ _ _ _ _ _ E).
Qed.

Lemma syncPostsLoop_quiet (ids : list Id) :
  forall (k : nat) (w : World),
    faults w = [] ->
    exists w1, syncPostsLoop ids k w = (Ok (length ids + k), w1) /\
               faults w1 = [].
Proof.
  induction ids as [|postId rest IH]; intros k w Hf.
  - cbn. eexists. split; [reflexivity | exact Hf].
  - destruct (@recountPost_quiet w postId Hf) as [w1 [E Hf1]].
    destruct (IH (S k) w1 Hf1) as [w2 [E2 Hf2]].
    exists w2. cbn [syncPostsLoop length].
    rewrite (@bind_ok _ _ _ _ _ _ _ E), E2.
    split; [|exact Hf2]. do 2 f_equal. lia.
Qed.

Lemma syncProjectCounts_passes (w : World) (n : nat) (tl : list bool) :
  faults w = repeat false (1 + 4 * length (projects (db w)) + n) ++ tl ->
  exists w1, syncProjectCounts w = (Ok (length (projects (db w))), w1) /\
             faults w1 = repeat false n ++ tl.
Proof.
  intros Hf. unfold syncProjectCounts. rewrite try_rethrow.
  unfold selectProjectIds, bind at 1. unfold_tasks. cbn in Hf. rewrite Hf.
  cbn [fst snd db].
  match goal with |- context [syncProjectsLoop ?ids 0 ?w0] =>
    destruct (@syncProjectsLoop_passes ids 0 w0 n tl) as [w1 [E Hf1]] end.
  { cbn [faults]. rewrite length_map. reflexivity. }
  exists w1. rewrite E, length_map, Nat.add_0_r. auto.
Qed.

Lemma syncProjectCounts_fails (w : World) (n : nat) (fs : list bool) :
  n < 1 + 4 * length (projects (db w)) ->
  faults w = repeat false n ++ true :: fs ->
  exists w1, syncProjectCounts w = (Throw store_unavailable, w1) /\
             faults w1 = fs.
Proof.
  intros Hn Hf. unfold syncProjectCounts. rewrite try_rethrow.
  unfold selectProjectIds, bind at 1. unfold_tasks.
  destruct n as [|n]; cbn in Hf; rewrite Hf; cbn [fst snd db].
  - eexists. split; reflexivity.
  - match goal with |- context [syncProjectsLoop ?ids 0 ?w0] =>
      destruct (@syncProjectsLoop_fails ids 0 w0 n fs) as [w1 [E Hf1]] end.
    + rewrite length_map. lia.
    + reflexivity.
    + exists w1. rewrite E. auto.
Qed.

Lemma syncProjectCounts_quiet (w : World) :
  faults w = [] ->
  exists w1, syncProjectCounts w = (Ok (length (projects (db w))), w1) /\
             faults w1 = [].
Proof.
  intros Hf. unfold syncProjectCounts. rewrite try_rethrow.
  unfold selectProjectIds, bind at 1. unfold_tasks. rewrite Hf. cbn [fst snd db].
  match goal with |- context [syncProjectsLoop ?ids 0 ?w0] =>
    destruct (@syncProjectsLoop_quiet ids 0 w0) as [w1 [E Hf1]] end.
  { reflexivity. }
  exists w1. rewrite E, length_map, Nat.add_0_r. auto.
Qed.

Lemma syncCommunityPostCounts_fails (w : World) (n : nat) (fs : list bool) :
  n < 1 + 3 * length (communityPosts (db w)) ->
  faults w = repeat false n ++ true :: fs ->
  exists w1, syncCommunityPostCounts w = (Throw store_unavailable, w1) /\
             faults w1 = fs.
Proof.
  intros Hn Hf. unfold syncCommunityPostCounts. rewrite try_rethrow.
  unfold selectCommunityPostIds, bind at 1. unfold_tasks.
  destruct n as [|n]; cbn in Hf; rewrite Hf; cbn [fst snd db].
  - eexists. split; reflexivity.
  - match goal with |- context [syncPostsLoop ?ids 0 ?w0] =>
      destruct (@syncPostsLoop_fails ids 0 w0 n fs) as [w1 [E Hf1]] end.
    + rewrite length_map. lia.
    + reflexivity.
    + exists w1. rewrite E. auto.
Qed.

Lemma syncCommunityPostCounts_quiet (w : World) :
  faults w = [] ->
  exists w1, syncCommunityPostCounts w
             = (Ok (length (communityPosts (db w))), w1) /\
             faults w1 = [].
Proof.
  intros Hf. unfold syncCommunityPostCounts. rewrite try_rethrow.
  unfold selectCommunityPostIds, bind at 1. unfold_tasks. rewrite Hf.
  cbn [fst snd db].
  match goal with |- context [syncPostsLoop ?ids 0 ?w0] =>
    destruct (@syncPostsLoop_quiet ids 0 w0) as [w1 [E Hf1]] end.
  { reflexivity. }
  exists w1. rewrite E, length_map, Nat.add_0_r. auto.
Qed.

Lemma syncAllCounts_returns (w : World) :
  exists r, fst (syncAllCounts w) = Ok r.
Proof.
  unfold syncAllCounts.
  destruct (syncProjectCounts w) as [[m|e] w1]; cbn; [|eauto].
  destruct (syncCommunityPostCounts w1) as [[k|e] w2]; cbn; eauto.
Qed.

Lemma syncAllCounts_quiet (w : World) :
  faults w = [] ->
  fst (syncAllCounts w)
  = Ok (mkResult (length (projects (db w))) (length (communityPosts (db w))) []).
Proof.
  intros Hf. unfold syncAllCounts.
  destruct (@syncProjectCounts_quiet w Hf) as [w1 [E1 Hf1]].
  pose proof (syncProjectCounts_run w) as [_ [Hposts _]]. cbv zeta in Hposts.
  rewrite E1 in *. cbn [snd] in Hposts.
  destruct (@syncCommunityPostCounts_quiet w1 Hf1) as [w2 [E2 Hf2]].
  rewrite E2, Hposts. reflexivity.
Qed.

(** C3, as the code has it.  [syncAllCounts] never throws, and its
    [errors] list is empty or holds one "Batch sync failed: ..." string.
    When the store refuses one of the statements of the run, that
    failure is the one recorded, no statement is sent after it (the rest
    of the schedule is left unconsumed), [postsUpdated] stays 0, and if
    the refusal falls in the project half [projectsUpdated] stays 0 too
    and no community post is touched. *)
Theorem syncAllCounts_stops_at_first_failure :
  forall (w : World),
    (exists r, fst (syncAllCounts w) = Ok r /\
               (errors r = [] \/ exists e, errors r = [batch_failed e])) /\
    (forall (n : nat) (fs : list bool),
       faults w = repeat false n ++ true :: fs ->
       n < statements (db w) ->
       let out := syncAllCounts w in
       faults (snd out) = fs /\
       exists updated,
         fst out = Ok (mkResult updated 0 [batch_failed store_unavailable]) /\
         (n < 1 + 4 * length (projects (db w)) ->
          updated = 0 /\
          communityPosts (db (snd out)) = communityPosts (db w))).
Proof.
  intros w. split.
  - unfold syncAllCounts.
    destruct (syncProjectCounts w) as [[m|e] w1]; cbn;
      [|eexists; split; [reflexivity | right; eexists; reflexivity]].
    destruct (syncCommunityPostCounts w1) as [[k|e] w2]; cbn;
      eexists; (split; [reflexivity|]);
      [left; reflexivity | right; eexists; reflexivity].
  - intros n fs Hf Hn. cbv zeta. unfold statements in Hn.
    pose proof (syncProjectCounts_run w) as [_ [Hposts _]]. cbv zeta in Hposts.
    unfold syncAllCounts.
    destruct (Nat.lt_ge_cases n (1 + 4 * length (projects (db w)))) as [Hlt|Hge].
    + destruct (@syncProjectCounts_fails w n fs Hlt Hf) as [w1 [E1 Hf1]].
      rewrite E1 in *. cbn [fst snd] in *. split; [exact Hf1|].
      exists 0. auto.
    + replace n with (1 + 4 * length (projects (db w))
                      + (n - (1 + 4 * length (projects (db w))))) in Hf by lia.
      destruct (@syncProjectCounts_passes w _ _ Hf) as [w1 [E1 Hf1]].
      rewrite E1 in *. cbn [fst snd] in *.
      destruct (@syncCommunityPostCounts_fails w1
                  (n - (1 + 4 * length (projects (db w)))) fs) as [w2 [E2 Hf2]];
        [rewrite Hposts; lia | exact Hf1 |].
      rewrite E2. cbn [fst snd]. split; [exact Hf2|].
      eexists. split; [reflexivity|]. intros Hlt. lia.
Qed.

Lemma syncAllCounts_stops_at_first_failure_witness :
  let out := syncAllCounts (Scenario.world Scenario.drifted_db [false; false; true; false]) in
  faults (snd out) = [false] /\
  fst out = Ok (mkResult 0 0 ["Batch sync failed: store unavailable"]).
Proof.
  cbv zeta.
  pose proof (syncAllCounts_stops_at_first_failure
                (Scenario.world Scenario.drifted_db [false; false; true; false])) as [_ H].
  assert (Hn : 2 < statements (db (Scenario.world Scenario.drifted_db [false; false; true; false])))
    by (vm_compute; lia).
  assert (Hlt : 2 < 1 + 4 * length (projects (db (Scenario.world Scenario.drifted_db
                                              [false; false; true; false]))))
    by (vm_compute; lia).
  destruct (H 2 [false] eq_refl Hn) as [Hf [updated [Hr Hu]]].
  split; [exact Hf|]. destruct (Hu Hlt) as [-> _]. exact Hr.
Defined.

(** Against C3 as stated: the store refuses the first count query of the
    first project and nothing else.  The run ends there: the second
    project and the post, whose statements were never refused, still
    carry their stale counters. *)
Lemma one_refusal_leaves_the_rest_unsynced :
  let out := syncAllCounts (Scenario.world Scenario.drifted_db [false; true]) in
  fst out = Ok (mkResult 0 0 ["Batch sync failed: store unavailable"]) /\
  faults (snd out) = [] /\
  db (snd out) = Scenario.drifted_db /\
  map Project.likeCount (projects (db (snd out))) = [0; 0]%Z /\
  counted (like_of "p-2") (projectLikes (db (snd out))) = 2%Z /\
  map CommunityPost.likeCount (communityPosts (db (snd out))) = [0]%Z /\
  counted (postLike_of "q-1") (postLikes (db (snd out))) = 1%Z.
Proof. vm_compute. repeat split. Qed.

(** ** Running the batch twice *)

Lemma syncAllCounts_completes (w : World) (r : CountSyncResult) :
  fst (syncAllCounts w) = Ok r -> errors r = [] ->
  all_in_sync (db (snd (syncAllCounts w))).
Proof.
  unfold syncAllCounts.
  pose proof (syncProjectCounts_run w) as [_ [_ [Hp _]]]. cbv zeta in Hp.
  destruct (syncProjectCounts w) as [[m|e] w1]; cbn [fst snd] in *.
  2:{ intros H He. injection H as <-. discriminate. }
  pose proof (syncCommunityPostCounts_run w1) as [Hrows [Hprojects [Hq _]]].
  cbv zeta in *.
  destruct (syncCommunityPostCounts w1) as [[k|e] w2]; cbn [fst snd] in *.
  2:{ intros H He. injection H as <-. discriminate. }
  intros _ _. split.
  - intros p Hin. rewrite Hprojects in Hin.
    apply (project_in_sync_rows (d := db w1)); eauto.
  - eauto.
Qed.

Lemma syncAllCounts_fixes_synced (w : World) :
  all_in_sync (db w) ->
  counters (db (snd (syncAllCounts w))) = counters (db w) /\
  rows_of (db (snd (syncAllCounts w))) = rows_of (db w).
Proof.
  intros [Hps Hqs]. unfold syncAllCounts, counters.
  pose proof (syncProjectCounts_run w) as [Hrows1 [Hposts1 [_ Hfix1]]].
  cbv zeta in *. specialize (Hfix1 Hps).
  destruct (syncProjectCounts w) as [[m|e] w1]; cbn [fst snd] in *.
  2:{ now rewrite Hfix1, Hposts1. }
  pose proof (syncCommunityPostCounts_run w1) as [Hrows2 [Hprojects2 [_ Hfix2]]].
  cbv zeta in *.
  assert (Hqs1 : forall q, In q (communityPosts (db w1)) -> post_in_sync (db w1) q).
  { intros q Hin. rewrite Hposts1 in Hin.
    apply (post_in_sync_rows (d := db w)); auto. }
  specialize (Hfix2 Hqs1).
  destruct (syncCommunityPostCounts w1) as [[k|e] w2]; cbn [fst snd] in *;
    rewrite Hfix2, Hprojects2, Hfix1, Hposts1; split; congruence.
Qed.

(** C8.  [syncAllCounts] completes without error when the store serves
    every statement; and after a run that completed without error, a
    second run started on the same database leaves every cached counter
    (and every normalized table) exactly as the first run left it,
    whatever the store does during the second run. *)
Theorem syncAllCounts_twice_same_counters :
  forall (w : World),
    let first := syncAllCounts w in
    (faults w = [] -> exists r, fst first = Ok r /\ errors r = []) /\
    (forall r, fst first = Ok r -> errors r = [] ->
       forall w2, db w2 = db (snd first) ->
         let second := syncAllCounts w2 in
         counters (db (snd second)) = counters (db (snd first)) /\
         rows_of (db (snd second)) = rows_of (db (snd first))).
Proof.
  intros w. cbv zeta. split.
  - intros Hf. rewrite (syncAllCounts_quiet w Hf). eauto.
  - intros r Hr He w2 Hdb.
    pose proof (syncAllCounts_completes w Hr He) as Hs.
    rewrite <- Hdb in Hs. rewrite <- Hdb.
    now apply syncAllCounts_fixes_synced.
Qed.

Lemma syncAllCounts_twice_same_counters_witness :
  let first := syncAllCounts (Scenario.world Scenario.drifted_db []) in
  let second := syncAllCounts (snd first) in
  counters (db (snd second))
  = ([("p-1", 0, 1, 0); ("p-2", 0, 2, 0)]%Z, [("q-1", 1, 0)]%Z).
Proof.
  cbv zeta.
  pose proof (syncAllCounts_twice_same_counters (Scenario.world Scenario.drifted_db []))
    as [_ H].
  destruct (H _ eq_refl eq_refl _ eq_refl) as [Hc _].
  rewrite Hc. reflexivity.
Defined.

(** ** Counting rows *)

Lemma rowCount_app {A} (f : A -> bool) (l : list A) (r : A) :
  rowCount f (l ++ [r]) = rowCount f l + (if f r then 1 else 0).
Proof.
  unfold rowCount. rewrite filter_app, length_app. cbn. now destruct (f r).
Qed.

Lemma rowCount_filter_le {A} (f h : A -> bool) (l : list A) :
  rowCount f (filter h l) <= rowCount f l.
Proof.
  unfold rowCount. induction l as [|a l IH]; cbn; [lia|].
  destruct (h a) eqn:Eh, (f a) eqn:Ef; cbn; rewrite ?Ef; cbn; lia.
Qed.

Lemma rowCount_filter_lt {A} (f h : A -> bool) (l : list A) (x : A) :
  In x l -> f x = true -> h x = true ->
  rowCount f (filter (fun r => negb (h r)) l) < rowCount f l.
Proof.
  unfold rowCount. induction l as [|a l IH]; cbn; [tauto|].
  intros [->|Hin] Hf Hh.
  - rewrite Hh, Hf. cbn.
    pose proof (rowCount_filter_le f (fun r => negb (h r)) l) as Hle.
    unfold rowCount in Hle. lia.
  - specialize (IH Hin Hf Hh).
    destruct (h a) eqn:Eh, (f a) eqn:Efa; cbn; rewrite ?Efa; cbn; lia.
Qed.

Lemma rowCount_mono {A} (f g : A -> bool) (l : list A) :
  (forall x, f x = true -> g x = true) -> rowCount f l <= rowCount g l.
Proof.
  intros H. unfold rowCount. induction l as [|a l IH]; cbn; [lia|].
  destruct (f a) eqn:Ef; [rewrite (H a Ef); cbn; lia|].
  destruct (g a); cbn; lia.
Qed.

Lemma rowCount_pos_witness {A} (h : A -> bool) (l : list A) :
  rowCount h l <> 0 -> exists x, In x l /\ h x = true.
Proof.
  unfold rowCount. intros H.
  destruct (filter h l) as [|x rest] eqn:E; [contradiction|].
  exists x. apply filter_In. rewrite E. now left.
Qed.

Lemma has_map_id {A} (id_of : A -> Id) (g : A -> A) (rows : list A) (x : Id) :
  (forall r, id_of (g r) = id_of r) ->
  existsb (fun r => eqId (id_of r) x) (map g rows)
  = existsb (fun r => eqId (id_of r) x) rows.
Proof.
  intros H. induction rows as [|a rows IH]; cbn; [reflexivity|].
  now rewrite H, IH.
Qed.

Lemma has_app {A} (id_of : A -> Id) (rows : list A) (r : A) (x : Id) :
  existsb (fun r => eqId (id_of r) x) rows = true ->
  existsb (fun r => eqId (id_of r) x) (rows ++ [r]) = true.
Proof. intros H. rewrite existsb_app, H. reflexivity. Qed.

Lemma where_id_keeps_id {A} (id_of : A -> Id) (id : Id) (set : A -> A) :
  (forall r, id_of (set r) = id_of r) ->
  forall r, id_of (where_id id_of id set r) = id_of r.
Proof. intros H r. unfold where_id. destruct (eqId _ _); auto. Qed.

Lemma eqId_sym (a b : Id) : eqId a b = eqId b a.
Proof. apply String.eqb_sym. Qed.

Lemma eqId_true (a b : Id) : eqId a b = true -> a = b.
Proof. apply String.eqb_eq. Qed.

(** ** Effects of the storage calls when the store serves every
    statement *)

Lemma likeProject_effect (w : World) (p u : Id) :
  faults w = [] ->
  faults (snd (likeProject p u w)) = [] /\
  (db (snd (likeProject p u w)) = db w \/
   has_project (db w) p = true /\
   db (snd (likeProject p u w)) =
     set_projects
       (map (where_id Project.id p (Project.add_likeCount 1)) (projects (db w)))
       (set_projectLikes
          (projectLikes (db w)
           ++ [ProjectLike.mk (entropy w (drawn w)) p u (S (clock w))])
          (db w))).
Proof.
  intros Hf. unfold_tasks. rewrite Hf. cbn [fst snd db faults entropy drawn clock].
  destruct (fresh_in _ _ _); cbn; [|auto].
  destruct (has_project _ _) eqn:Hp; cbn; [|auto].
  destruct (has_user _ _); cbn; auto.
Qed.

Lemma unlikeProject_effect (w : World) (p u : Id) :
  faults w = [] ->
  faults (snd (unlikeProject p u w)) = [] /\
  (db (snd (unlikeProject p u w)) = db w \/
   rowCount (like_hit p u) (projectLikes (db w)) <> 0 /\
   db (snd (unlikeProject p u w)) =
     set_projects
       (map (where_id Project.id p (Project.add_likeCount (-1))) (projects (db w)))
       (set_projectLikes
          (filter (fun r => negb (like_hit p u r)) (projectLikes (db w)))
          (db w))).
Proof.
  intros Hf. unfold_tasks. rewrite Hf. cbn [fst snd db faults entropy drawn clock].
  destruct (rowCount _ _) eqn:Hk; cbn.
  - split; [reflexivity|]. left.
    rewrite (rowCount_zero_filter _ _ Hk). unfold set_projectLikes.
    now rewrite db_eta.
  - split; [reflexivity|]. right. split; [lia | reflexivity].
Qed.

Ltac db_simpl :=
  unfold has_project, has_post in *;
  cbn [projects projectLikes projectBookmarks communityPosts postLikes comments
       projectViews users set_projects set_projectLikes set_projectBookmarks
       set_communityPosts set_postLikes set_comments set_projectViews] in *.

Lemma likeProject_covered (w : World) (p u : Id) :
  faults w = [] -> covered (db w) -> covered (db (snd (likeProject p u w))).
Proof.
  intros Hf Hc. destruct (likeProject_effect w p u Hf) as [_ [->|[Hp ->]]];
    [exact Hc|].
  destruct Hc as [Hv Hl Hcm Hql Hqc Rl Rql Rc].
  constructor; db_simpl; auto.
  - intros p' Hin. apply in_map_iff in Hin as [p0 [<- Hin]].
    specialize (Hv p0 Hin). unfold where_id. destruct (eqId _ _); cbn; lia.
  - intros p' Hin. apply in_map_iff in Hin as [p0 [<- Hin]].
    specialize (Hl p0 Hin).
    rewrite (where_id_keeps_id Project.id) by reflexivity.
    unfold counted in *. rewrite rowCount_app.
    match goal with |- context [like_of ?x ?r] =>
      replace (like_of x r) with (eqId x p) by apply eqId_sym end.
    unfold where_id. destruct (eqId (Project.id p0) p); cbn; lia.
  - intros p' Hin. apply in_map_iff in Hin as [p0 [<- Hin]].
    specialize (Hcm p0 Hin). unfold where_id. destruct (eqId _ _); cbn; lia.
  - intros l Hin.
    rewrite has_map_id by (apply where_id_keeps_id; reflexivity).
    apply in_app_or in Hin as [Hin|[<-|[]]]; [now apply Rl | exact Hp].
  - intros c Hin.
    destruct (Rc c Hin) as [H1 H2]. split; [|exact H2].
    destruct (Comment.projectId c); [|reflexivity]. cbn in *.
    now rewrite has_map_id by (apply where_id_keeps_id; reflexivity).
Qed.

Ltac cov_frame H :=
  let p' := fresh "p'" in
  let Hin := fresh "Hin" in
  let p0 := fresh "p0" in
  intros p' Hin; apply in_map_iff in Hin as [p0 [<- Hin]];
  specialize (H p0 Hin);
  try rewrite (where_id_keeps_id Project.id) by reflexivity;
  try rewrite (where_id_keeps_id CommunityPost.id) by reflexivity;
  unfold where_id; destruct (eqId _ _); cbn; lia.

Ltac ref_frame :=
  rewrite ?has_map_id by (apply where_id_keeps_id; reflexivity).

Lemma ref_ok_map_projects (ps : list Project.t) (g : Project.t -> Project.t)
  (a : option Id) :
  (forall r, Project.id (g r) = Project.id r) ->
  ref_ok (fun x => existsb (fun r => eqId (Project.id r) x) (map g ps)) a
  = ref_ok (fun x => existsb (fun r => eqId (Project.id r) x) ps) a.
Proof. intros H. destruct a; cbn; [now apply has_map_id | reflexivity]. Qed.

Lemma ref_ok_map_posts (qs : list CommunityPost.t)
  (g : CommunityPost.t -> CommunityPost.t) (a : option Id) :
  (forall r, CommunityPost.id (g r) = CommunityPost.id r) ->
  ref_ok (fun x => existsb (fun r => eqId (CommunityPost.id r) x) (map g qs)) a
  = ref_ok (fun x => existsb (fun r => eqId (CommunityPost.id r) x) qs) a.
Proof. intros H. destruct a; cbn; [now apply has_map_id | reflexivity]. Qed.

Lemma unlikeProject_covered (w : World) (p u : Id) :
  faults w = [] -> covered (db w) -> covered (db (snd (unlikeProject p u w))).
Proof.
  intros Hf Hc. destruct (unlikeProject_effect w p u Hf) as [_ [->|[Hk ->]]];
    [exact Hc|].
  destruct Hc as [Hv Hl Hcm Hql Hqc Rl Rql Rc].
  destruct (rowCount_pos_witness _ _ Hk) as [x [Hx Hhit]].
  constructor; db_simpl; auto.
  - cov_frame Hv.
  - intros p' Hin. apply in_map_iff in Hin as [p0 [<- Hin]].
    specialize (Hl p0 Hin).
    rewrite (where_id_keeps_id Project.id) by reflexivity.
    unfold counted in *.
    pose proof (rowCount_filter_le (like_of (Project.id p0))
                  (fun r => negb (like_hit p u r)) (projectLikes (db w))) as Hle.
    unfold where_id. destruct (eqId (Project.id p0) p) eqn:E; cbn; [|lia].
    apply eqId_true in E. subst p.
    assert (Hlt := @rowCount_filter_lt _ (like_of (Project.id p0)) (like_hit (Project.id p0) u)
                     (projectLikes (db w)) x Hx).
    unfold like_hit in Hhit. apply andb_prop in Hhit as [Hh1 Hh2].
    specialize (Hlt Hh1). unfold like_hit at 1 in Hlt. rewrite Hh1, Hh2 in Hlt.
    specialize (Hlt eq_refl). lia.
  - cov_frame Hcm.
  - intros l Hin. ref_frame. apply filter_In in Hin as [Hin _]. now apply Rl.
  - intros c Hin. destruct (Rc c Hin) as [H1 H2]. split; [|exact H2].
    now rewrite ref_ok_map_projects by (apply where_id_keeps_id; reflexivity).
Qed.

Lemma likeCommunityPost_effect (w : World) (p u : Id) :
  faults w = [] ->
  faults (snd (likeCommunityPost p u w)) = [] /\
  (db (snd (likeCommunityPost p u w)) = db w \/
   has_post (db w) p = true /\
   db (snd (likeCommunityPost p u w)) =
     set_communityPosts
       (map (where_id CommunityPost.id p (CommunityPost.add_likeCount 1))
            (communityPosts (db w)))
       (set_postLikes
          (postLikes (db w)
           ++ [PostLike.mk (entropy w (drawn w)) p u (S (clock w))])
          (db w))).
Proof.
  intros Hf. unfold_tasks. rewrite Hf. cbn [fst snd db faults entropy drawn clock].
  destruct (fresh_in _ _ _); cbn; [|auto].
  destruct (has_post _ _) eqn:Hp; cbn; [|auto].
  destruct (has_user _ _); cbn; auto.
Qed.

Lemma unlikeCommunityPost_effect (w : World) (p u : Id) :
  faults w = [] ->
  faults (snd (unlikeCommunityPost p u w)) = [] /\
  (db (snd (unlikeCommunityPost p u w)) = db w \/
   rowCount (postLike_hit p u) (postLikes (db w)) <> 0 /\
   db (snd (unlikeCommunityPost p u w)) =
     set_communityPosts
       (map (where_id CommunityPost.id p (CommunityPost.add_likeCount (-1)))
            (communityPosts (db w)))
       (set_postLikes
          (filter (fun r => negb (postLike_hit p u r)) (postLikes (db w)))
          (db w))).
Proof.
  intros Hf. unfold_tasks. rewrite Hf. cbn [fst snd db faults entropy drawn clock].
  destruct (rowCount _ _) eqn:Hk; cbn.
  - split; [reflexivity|]. left.
    rewrite (rowCount_zero_filter _ _ Hk). unfold set_postLikes.
    now rewrite db_eta.
  - split; [reflexivity|]. right. split; [lia | reflexivity].
Qed.

Lemma likeCommunityPost_covered (w : World) (p u : Id) :
  faults w = [] -> covered (db w) ->
  covered (db (snd (likeCommunityPost p u w))).
Proof.
  intros Hf Hc. destruct (likeCommunityPost_effect w p u Hf) as [_ [->|[Hp ->]]];
    [exact Hc|].
  destruct Hc as [Hv Hl Hcm Hql Hqc Rl Rql Rc].
  constructor; db_simpl; auto.
  - intros p' Hin. apply in_map_iff in Hin as [p0 [<- Hin]].
    specialize (Hql p0 Hin).
    rewrite (where_id_keeps_id CommunityPost.id) by reflexivity.
    unfold counted in *. rewrite rowCount_app.
    match goal with |- context [postLike_of ?x ?r] =>
      replace (postLike_of x r) with (eqId x p) by apply eqId_sym end.
    unfold where_id. destruct (eqId (CommunityPost.id p0) p); cbn; lia.
  - cov_frame Hqc.
  - intros l Hin. ref_frame.
    apply in_app_or in Hin as [Hin|[<-|[]]]; [now apply Rql | exact Hp].
  - intros c Hin. destruct (Rc c Hin) as [H1 H2]. split; [exact H1|].
    now rewrite ref_ok_map_posts by (apply where_id_keeps_id; reflexivity).
Qed.

Lemma unlikeCommunityPost_covered (w : World) (p u : Id) :
  faults w = [] -> covered (db w) ->
  covered (db (snd (unlikeCommunityPost p u w))).
Proof.
  intros Hf Hc.
  destruct (unlikeCommunityPost_effect w p u Hf) as [_ [->|[Hk ->]]];
    [exact Hc|].
  destruct Hc as [Hv Hl Hcm Hql Hqc Rl Rql Rc].
  destruct (rowCount_pos_witness _ _ Hk) as [x [Hx Hhit]].
  constructor; db_simpl; auto.
  - intros p' Hin. apply in_map_iff in Hin as [p0 [<- Hin]].
    specialize (Hql p0 Hin).
    rewrite (where_id_keeps_id CommunityPost.id) by reflexivity.
    unfold counted in *.
    pose proof (rowCount_filter_le (postLike_of (CommunityPost.id p0))
                  (fun r => negb (postLike_hit p u r)) (postLikes (db w))) as Hle.
    unfold where_id. destruct (eqId (CommunityPost.id p0) p) eqn:E; cbn; [|lia].
    apply eqId_true in E. subst p.
    assert (Hlt := @rowCount_filter_lt _ (postLike_of (CommunityPost.id p0))
                     (postLike_hit (CommunityPost.id p0) u)
                     (postLikes (db w)) x Hx).
    unfold postLike_hit in Hhit. apply andb_prop in Hhit as [Hh1 Hh2].
    specialize (Hlt Hh1). unfold postLike_hit at 1 in Hlt. rewrite Hh1, Hh2 in Hlt.
    specialize (Hlt eq_refl). lia.
  - cov_frame Hqc.
  - intros l Hin. ref_frame. apply filter_In in Hin as [Hin _]. now apply Rql.
  - intros c Hin. destruct (Rc c Hin) as [H1 H2]. split; [exact H1|].
    now rewrite ref_ok_map_posts by (apply where_id_keeps_id; reflexivity).
Qed.

Lemma covered_bookmarks (d : DB) (bs : list ProjectBookmark.t) :
  covered d -> covered (set_projectBookmarks bs d).
Proof. intros [Hv Hl Hcm Hql Hqc Rl Rql Rc]. constructor; db_simpl; auto. Qed.

Lemma bookmarkProject_effect (w : World) (p u : Id) :
  faults w = [] ->
  faults (snd (bookmarkProject p u w)) = [] /\
  exists bs, db (snd (bookmarkProject p u w)) = set_projectBookmarks bs (db w).
Proof.
  intros Hf. unfold_tasks. rewrite Hf. cbn [fst snd db faults entropy drawn clock].
  destruct (fresh_in _ _ _); cbn;
    [destruct (has_project _ _); cbn; [destruct (has_user _ _); cbn|]|].
  all: split; [reflexivity|].
  all: try (exists (projectBookmarks (db w)); unfold set_projectBookmarks;
            now rewrite db_eta).
  eexists. reflexivity.
Qed.

Lemma unbookmarkProject_effect (w : World) (p u : Id) :
  faults w = [] ->
  faults (snd (unbookmarkProject p u w)) = [] /\
  exists bs, db (snd (unbookmarkProject p u w)) = set_projectBookmarks bs (db w).
Proof.
  intros Hf. unfold_tasks. rewrite Hf. cbn. split; [reflexivity|].
  eexists. reflexivity.
Qed.

Lemma createComment_bumps (comment : InsertComment.t) :
  createComment comment =
  (newComment <- insertComment comment ;;
   bumpParent (InsertComment.projectId comment)
              (InsertComment.postId comment) 1 ;;
   ret newComment).
Proof. reflexivity. Qed.

Lemma deleteComment_bumps (id userId : Id) :
  deleteComment id userId =
  (found <- selectComments id userId ;;
   match found with
   | [] => ret false
   | comment :: _ =>
       result <- deleteComments id userId ;;
       if (0 <? result)%nat then
         bumpParent (Comment.projectId comment) (Comment.postId comment) (-1) ;;
         ret true
       else ret false
   end).
Proof. reflexivity. Qed.

Lemma bumpParent_effect (w : World) (pp qq : option Id) (delta : Z) :
  faults w = [] ->
  exists w1, bumpParent pp qq delta w = (Ok tt, w1) /\
             faults w1 = [] /\ db w1 = bump_db pp qq delta (db w).
Proof.
  intros Hf. unfold bump_db, bumpParent.
  destruct (truthy pp); [destruct pp as [p|]|destruct (truthy qq); [destruct qq as [q|]|]].
  all: unfold_tasks; rewrite ?Hf; cbn; eexists; repeat split; auto.
Qed.

Lemma insertComment_effect (w : World) (c : InsertComment.t) :
  faults w = [] ->
  exists w1, faults w1 = [] /\
    ((exists e, insertComment c w = (Throw e, w1) /\ db w1 = db w) \/
     (exists row,
        insertComment c w = (Ok row, w1) /\
        Comment.projectId row = InsertComment.projectId c /\
        Comment.postId row = InsertComment.postId c /\
        ref_ok (has_project (db w)) (InsertComment.projectId c) = true /\
        ref_ok (has_post (db w)) (InsertComment.postId c) = true /\
        db w1 = set_comments (comments (db w) ++ [row]) (db w))).
Proof.
  intros Hf. unfold_tasks. rewrite Hf. cbn [fst snd db faults entropy drawn clock].
  destruct (fresh_in _ _ _); cbn;
    [destruct (ref_ok (has_project _) _) eqn:Hp; cbn;
     [destruct (ref_ok (has_post _) _) eqn:Hq; cbn;
      [destruct (has_user _ _); cbn|]|]|].
  all: eexists; (split;
         [|first [left; eexists; split; reflexivity
                 |right; eexists; repeat split; auto]]); reflexivity.
Qed.

Lemma charged_to_project_row (x : Id) (c : Comment.t) (p : Id) :
  Comment.projectId c = Some p -> truthy (Some p) = true ->
  charged_to_project x c = eqId x p /\ (forall q, charged_to_post q c = false).
Proof.
  intros Hp Ht. unfold charged_to_project, charged_to_post. rewrite Hp, Ht. cbn.
  split; [apply eqId_sym | reflexivity].
Qed.

Lemma charged_to_post_row (x : Id) (c : Comment.t) (q : Id) :
  truthy (Comment.projectId c) = false ->
  Comment.postId c = Some q -> truthy (Some q) = true ->
  charged_to_post x c = eqId x q /\ (forall p, charged_to_project p c = false).
Proof.
  intros Hp Hq Ht. unfold charged_to_project, charged_to_post.
  rewrite Hp, Hq, Ht. cbn. split; [apply eqId_sym | reflexivity].
Qed.

Lemma charged_to_nobody (c : Comment.t) :
  truthy (Comment.projectId c) = false -> truthy (Comment.postId c) = false ->
  (forall p, charged_to_project p c = false) /\
  (forall q, charged_to_post q c = false).
Proof.
  intros Hp Hq. unfold charged_to_project, charged_to_post. now rewrite Hp, Hq.
Qed.

Lemma covered_comment_created (d : DB) (row : Comment.t) :
  covered d ->
  ref_ok (has_project d) (Comment.projectId row) = true ->
  ref_ok (has_post d) (Comment.postId row) = true ->
  covered (bump_db (Comment.projectId row) (Comment.postId row) 1
             (set_comments (comments d ++ [row]) d)).
Proof.
  intros [Hv Hl Hcm Hql Hqc Rl Rql Rc] Hrp Hrq. unfold bump_db.
  assert (Rc' : forall c, In c (comments d ++ [row]) ->
            ref_ok (has_project d) (Comment.projectId c) = true /\
            ref_ok (has_post d) (Comment.postId c) = true).
  { intros c Hin. apply in_app_or in Hin as [Hin|[<-|[]]]; auto. }
  destruct (truthy (Comment.projectId row)) eqn:Tp.
  - destruct (Comment.projectId row) as [p|] eqn:Ep; [|discriminate].
    destruct (@charged_to_project_row p row p Ep Tp) as [_ Hpost].
    constructor; db_simpl; auto.
    + cov_frame Hv.
    + cov_frame Hl.
    + intros p' Hin. apply in_map_iff in Hin as [p0 [<- Hin]].
      specialize (Hcm p0 Hin).
      rewrite (where_id_keeps_id Project.id) by reflexivity.
      unfold counted in *. rewrite rowCount_app.
      rewrite (proj1 (@charged_to_project_row (Project.id p0) row p Ep Tp)).
      unfold where_id. destruct (eqId (Project.id p0) p); cbn; lia.
    + intros q Hin. specialize (Hqc q Hin). unfold counted in *.
      rewrite rowCount_app, Hpost. lia.
    + intros l Hin. ref_frame. now apply Rl.
    + intros c Hin. destruct (Rc' c Hin) as [H1 H2]. split; [|exact H2].
      now rewrite ref_ok_map_projects by (apply where_id_keeps_id; reflexivity).
  - destruct (truthy (Comment.postId row)) eqn:Tq.
    + destruct (Comment.postId row) as [q|] eqn:Eq; [|discriminate].
      destruct (@charged_to_post_row q row q Tp Eq Tq) as [_ Hproj].
      constructor; db_simpl; auto.
      * intros p Hin. specialize (Hcm p Hin). unfold counted in *.
        rewrite rowCount_app, Hproj. lia.
      * cov_frame Hql.
      * intros q' Hin. apply in_map_iff in Hin as [q0 [<- Hin]].
        specialize (Hqc q0 Hin).
        rewrite (where_id_keeps_id CommunityPost.id) by reflexivity.
        unfold counted in *. rewrite rowCount_app.
        rewrite (proj1 (@charged_to_post_row (CommunityPost.id q0) row q Tp Eq Tq)).
        unfold where_id. destruct (eqId (CommunityPost.id q0) q); cbn; lia.
      * intros l Hin. ref_frame. now apply Rql.
      * intros c Hin. destruct (Rc' c Hin) as [H1 H2]. split; [exact H1|].
        now rewrite ref_ok_map_posts by (apply where_id_keeps_id; reflexivity).
    + destruct (charged_to_nobody row Tp Tq) as [Hproj Hpost].
      constructor; db_simpl; auto.
      * intros p Hin. specialize (Hcm p Hin). unfold counted in *.
        rewrite rowCount_app, Hproj. lia.
      * intros q Hin. specialize (Hqc q Hin). unfold counted in *.
        rewrite rowCount_app, Hpost. lia.
Qed.

Lemma createComment_covered (w : World) (c : InsertComment.t) :
  faults w = [] -> covered (db w) ->
  covered (db (snd (createComment c w))) /\
  faults (snd (createComment c w)) = [].
Proof.
  intros Hf Hc. rewrite createComment_bumps.
  destruct (insertComment_effect w c Hf)
    as [w1 [Hf1 [[e [E Hdb]]|[row [E [Hp [Hq [Hrp [Hrq Hdb]]]]]]]]].
  - rewrite (@bind_throw _ _ _ _ _ _ _ E). cbn [snd]. now rewrite Hdb.
  - rewrite (@bind_ok _ _ _ _ _ _ _ E).
    destruct (@bumpParent_effect w1 (InsertComment.projectId c)
                (InsertComment.postId c) 1 Hf1) as [w2 [E2 [Hf2 Hdb2]]].
    rewrite (@bind_ok _ _ _ _ _ _ _ E2). unfold ret. cbn [snd].
    split; [|exact Hf2]. rewrite Hdb2, Hdb, <- Hp, <- Hq.
    apply covered_comment_created; auto; now rewrite ?Hp, ?Hq.
Qed.

Lemma covered_comment_deleted (d : DB) (id u : Id) (c : Comment.t) :
  covered d -> In c (comments d) -> comment_hit id u c = true ->
  covered (bump_db (Comment.projectId c) (Comment.postId c) (-1)
             (set_comments
                (filter (fun r => negb (comment_hit id u r)) (comments d)) d)).
Proof.
  intros [Hv Hl Hcm Hql Hqc Rl Rql Rc] Hc Hhit. unfold bump_db.
  assert (Rc' : forall c', In c' (filter (fun r => negb (comment_hit id u r))
                                         (comments d)) ->
            ref_ok (has_project d) (Comment.projectId c') = true /\
            ref_ok (has_post d) (Comment.postId c') = true).
  { intros c' Hin. apply filter_In in Hin as [Hin _]. auto. }
  assert (Hle : forall f,
            rowCount f (filter (fun r => negb (comment_hit id u r)) (comments d))
            <= rowCount f (comments d)) by (intros f; apply rowCount_filter_le).
  destruct (truthy (Comment.projectId c)) eqn:Tp.
  - destruct (Comment.projectId c) as [p|] eqn:Ep; [|discriminate].
    constructor; db_simpl; auto.
    + cov_frame Hv.
    + cov_frame Hl.
    + intros p' Hin. apply in_map_iff in Hin as [p0 [<- Hin]].
      specialize (Hcm p0 Hin).
      rewrite (where_id_keeps_id Project.id) by reflexivity.
      unfold counted in *.
      specialize (Hle (charged_to_project (Project.id p0))).
      unfold where_id. destruct (eqId (Project.id p0) p) eqn:E; cbn; [|lia].
      assert (Hlt := @rowCount_filter_lt _ (charged_to_project (Project.id p0))
                       (comment_hit id u) (comments d) c Hc).
      rewrite (proj1 (@charged_to_project_row (Project.id p0) c p Ep Tp)) in Hlt.
      specialize (Hlt E Hhit). lia.
    + intros q Hin. specialize (Hqc q Hin). unfold counted in *.
      specialize (Hle (charged_to_post (CommunityPost.id q))). lia.
    + intros l Hin. ref_frame. now apply Rl.
    + intros c' Hin. destruct (Rc' c' Hin) as [H1 H2]. split; [|exact H2].
      now rewrite ref_ok_map_projects by (apply where_id_keeps_id; reflexivity).
  - destruct (truthy (Comment.postId c)) eqn:Tq.
    + destruct (Comment.postId c) as [q|] eqn:Eq; [|discriminate].
      constructor; db_simpl; auto.
      * intros p Hin. specialize (Hcm p Hin). unfold counted in *.
        specialize (Hle (charged_to_project (Project.id p))). lia.
      * cov_frame Hql.
      * intros q' Hin. apply in_map_iff in Hin as [q0 [<- Hin]].
        specialize (Hqc q0 Hin).
        rewrite (where_id_keeps_id CommunityPost.id) by reflexivity.
        unfold counted in *.
        specialize (Hle (charged_to_post (CommunityPost.id q0))).
        unfold where_id. destruct (eqId (CommunityPost.id q0) q) eqn:E; cbn; [|lia].
        assert (Hlt := @rowCount_filter_lt _ (charged_to_post (CommunityPost.id q0))
                         (comment_hit id u) (comments d) c Hc).
        rewrite (proj1 (@charged_to_post_row (CommunityPost.id q0) c q Tp Eq Tq))
          in Hlt.
        specialize (Hlt E Hhit). lia.
      * intros l Hin. ref_frame. now apply Rql.
      * intros c' Hin. destruct (Rc' c' Hin) as [H1 H2]. split; [exact H1|].
        now rewrite ref_ok_map_posts by (apply where_id_keeps_id; reflexivity).
    + constructor; db_simpl; auto.
      * intros p Hin. specialize (Hcm p Hin). unfold counted in *.
        specialize (Hle (charged_to_project (Project.id p))). lia.
      * intros q Hin. specialize (Hqc q Hin). unfold counted in *.
        specialize (Hle (charged_to_post (CommunityPost.id q))). lia.
Qed.

Lemma selectComments_quiet (w : World) (id u : Id) :
  faults w = [] ->
  exists w1, selectComments id u w
             = (Ok (filter (comment_hit id u) (comments (db w))), w1) /\
             faults w1 = [] /\ db w1 = db w.
Proof.
  intros Hf. unfold_tasks. rewrite Hf. cbn. eexists. repeat split.
Qed.

Lemma deleteComments_quiet (w : World) (id u : Id) :
  faults w = [] ->
  exists w1, deleteComments id u w
             = (Ok (rowCount (comment_hit id u) (comments (db w))), w1) /\
             faults w1 = [] /\
             db w1 = set_comments
                       (filter (fun r => negb (comment_hit id u r))
                               (comments (db w))) (db w).
Proof.
  intros Hf. unfold_tasks. rewrite Hf. cbn. eexists. repeat split.
Qed.

Lemma deleteComment_covered (w : World) (id u : Id) :
  faults w = [] -> covered (db w) ->
  covered (db (snd (deleteComment id u w))) /\
  faults (snd (deleteComment id u w)) = [].
Proof.
  intros Hf Hc. rewrite deleteComment_bumps.
  destruct (selectComments_quiet w id u Hf) as [w1 [E1 [Hf1 Hdb1]]].
  rewrite (@bind_ok _ _ _ _ _ _ _ E1).
  destruct (filter (comment_hit id u) (comments (db w))) as [|c rest] eqn:E.
  - unfold ret. cbn [snd]. rewrite Hdb1. auto.
  - assert (Hin : In c (comments (db w)) /\ comment_hit id u c = true).
    { apply filter_In. rewrite E. now left. }
    destruct Hin as [Hin Hhit].
    destruct (deleteComments_quiet w1 id u Hf1) as [w2 [E2 [Hf2 Hdb2]]].
    rewrite (@bind_ok _ _ _ _ _ _ _ E2).
    rewrite Hdb1 in *. unfold rowCount. rewrite E. cbn [length Nat.ltb Nat.leb].
    destruct (@bumpParent_effect w2 (Comment.projectId c) (Comment.postId c)
                (-1) Hf2) as [w3 [E3 [Hf3 Hdb3]]].
    rewrite (@bind_ok _ _ _ _ _ _ _ E3). unfold ret. cbn [snd].
    split; [|exact Hf3]. rewrite Hdb3, Hdb2.
    now apply covered_comment_deleted.
Qed.

Lemma trackProjectView_covered (w : World) (p : Id) (u : option Id)
  (ip : option string) :
  faults w = [] -> covered (db w) ->
  covered (db (snd (trackProjectView p u ip w))) /\
  faults (snd (trackProjectView p u ip w)) = [].
Proof.
  intros Hf Hc. unfold_tasks. rewrite Hf. cbn [fst snd db faults entropy drawn clock].
  destruct (fresh_in _ _ _); cbn; [|auto].
  split; [|reflexivity].
  destruct Hc as [Hv Hl Hcm Hql Hqc Rl Rql Rc].
  constructor; db_simpl; auto.
  - cov_frame Hv.
  - cov_frame Hl.
  - cov_frame Hcm.
  - intros l Hin. ref_frame. now apply Rl.
  - intros c Hin. destruct (Rc c Hin) as [H1 H2]. split; [|exact H2].
    now rewrite ref_ok_map_projects by (apply where_id_keeps_id; reflexivity).
Qed.

Lemma rowCount_none {A} (f : A -> bool) (l : list A) :
  (forall x, In x l -> f x = false) -> rowCount f l = 0.
Proof.
  unfold rowCount. induction l as [|a l IH]; cbn; intros H; [reflexivity|].
  rewrite (H a (or_introl eq_refl)). apply IH. intros x Hx. apply H. now right.
Qed.

Lemma ref_ok_app {A} (id_of : A -> Id) (rows : list A) (r : A) (a : option Id) :
  ref_ok (fun x => existsb (fun r => eqId (id_of r) x) rows) a = true ->
  ref_ok (fun x => existsb (fun r => eqId (id_of r) x) (rows ++ [r])) a = true.
Proof. destruct a; cbn; [apply has_app | reflexivity]. Qed.

Lemma createProject_covered (w : World) (project : InsertProject.t) :
  faults w = [] -> covered (db w) ->
  covered (db (snd (createProject project w))) /\
  faults (snd (createProject project w)) = [].
Proof.
  intros Hf Hc. unfold createProject. unfold_tasks. rewrite Hf.
  cbn [fst snd db faults entropy drawn clock].
  destruct (fresh_in _ _ _) eqn:Hnew; cbn; [|auto].
  destruct (has_user _ _); cbn; [|auto].
  split; [|reflexivity].
  destruct Hc as [Hv Hl Hcm Hql Hqc Rl Rql Rc].
  unfold fresh_in in Hnew. apply negb_true_iff in Hnew.
  constructor; db_simpl; auto.
  - intros p Hin. apply in_app_or in Hin as [Hin|[<-|[]]]; [auto|cbn; lia].
  - intros p Hin. apply in_app_or in Hin as [Hin|[<-|[]]]; [auto|]. cbn.
    unfold counted. rewrite rowCount_none; [reflexivity|].
    intros l Hl'. unfold like_of. destruct (eqId _ _) eqn:E; [|reflexivity].
    apply eqId_true in E. specialize (Rl l Hl'). rewrite E in Rl. congruence.
  - intros p Hin. apply in_app_or in Hin as [Hin|[<-|[]]]; [auto|]. cbn.
    unfold counted. rewrite rowCount_none; [reflexivity|].
    intros c Hc'. unfold charged_to_project.
    destruct (Rc c Hc') as [R1 _].
    destruct (Comment.projectId c) as [x|]; [|reflexivity]. cbn in *.
    destruct (String.eqb_spec x (entropy w (drawn w))); [|apply andb_false_r].
    subst x. congruence.
  - intros l Hin. apply has_app. now apply Rl.
  - intros c Hin. destruct (Rc c Hin) as [H1 H2]. split; [|exact H2].
    now apply ref_ok_app.
Qed.

Lemma createCommunityPost_covered (w : World) (post : InsertCommunityPost.t) :
  faults w = [] -> covered (db w) ->
  covered (db (snd (createCommunityPost post w))) /\
  faults (snd (createCommunityPost post w)) = [].
Proof.
  intros Hf Hc. unfold createCommunityPost. unfold_tasks. rewrite Hf.
  cbn [fst snd db faults entropy drawn clock].
  destruct (fresh_in _ _ _) eqn:Hnew; cbn; [|auto].
  destruct (has_user _ _); cbn; [|auto].
  split; [|reflexivity].
  destruct Hc as [Hv Hl Hcm Hql Hqc Rl Rql Rc].
  unfold fresh_in in Hnew. apply negb_true_iff in Hnew.
  constructor; db_simpl; auto.
  - intros q Hin. apply in_app_or in Hin as [Hin|[<-|[]]]; [auto|]. cbn.
    unfold counted. rewrite rowCount_none; [reflexivity|].
    intros l Hl'. unfold postLike_of. destruct (eqId _ _) eqn:E; [|reflexivity].
    apply eqId_true in E. specialize (Rql l Hl'). rewrite E in Rql. congruence.
  - intros q Hin. apply in_app_or in Hin as [Hin|[<-|[]]]; [auto|]. cbn.
    unfold counted. rewrite rowCount_none; [reflexivity|].
    intros c Hc'. unfold charged_to_post.
    destruct (Rc c Hc') as [_ R2].
    destruct (Comment.postId c) as [x|]; [|apply andb_false_r]. cbn in *.
    destruct (String.eqb_spec x (entropy w (drawn w))); [|apply andb_false_r].
    subst x. congruence.
  - intros l Hin. apply has_app. now apply Rql.
  - intros c Hin. destruct (Rc c Hin) as [H1 H2]. split; [exact H1|].
    now apply ref_ok_app.
Qed.

Lemma incrementProjectViews_covered (w : World) (p : Id) :
  faults w = [] -> covered (db w) ->
  covered (db (snd (incrementProjectViews p w))) /\
  faults (snd (incrementProjectViews p w)) = [].
Proof.
  intros Hf Hc. unfold_tasks. rewrite Hf. cbn [fst snd db faults entropy drawn clock].
  split; [|reflexivity].
  destruct Hc as [Hv Hl Hcm Hql Hqc Rl Rql Rc].
  constructor; db_simpl; auto.
  - cov_frame Hv.
  - cov_frame Hl.
  - cov_frame Hcm.
  - intros l Hin. ref_frame. now apply Rl.
  - intros c Hin. destruct (Rc c Hin) as [H1 H2]. split; [|exact H2].
    now rewrite ref_ok_map_projects by (apply where_id_keeps_id; reflexivity).
Qed.

(** A created project starts with its three counters at 0. *)
Lemma createProject_starts_at_zero (w : World) (project : InsertProject.t)
  (p : Project.t) :
  fst (createProject project w) = Ok p ->
  In p (projects (db (snd (createProject project w)))) /\
  Project.viewCount p = 0%Z /\ Project.likeCount p = 0%Z /\
  Project.commentCount p = 0%Z.
Proof.
  unfold createProject. unfold_tasks.
  destruct (faults w) as [|[|] fs]; cbn [fst snd db faults entropy drawn clock];
    try discriminate.
  all: destruct (fresh_in _ _ _); cbn; try discriminate.
  all: destruct (has_user _ _); cbn; try discriminate.
  all: intros H; injection H as <-; cbn; split; auto using in_or_app, in_eq.
  all: apply in_or_app; right; now left.
Qed.

(** Recounting is safe under any schedule of faults: it either writes
    the row counts or nothing. *)
Lemma recountProject_covered (w : World) (projectId : Id) :
  covered (db w) -> covered (db (snd (recountProject projectId w))).
Proof.
  intros Hc.
  pose proof (recountProject_run w projectId) as [Hrows [Hposts Hrun]].
  cbv zeta in *.
  destruct (fst (recountProject projectId w)); [|now destruct Hrun as [_ ->]].
  destruct Hc as [Hv Hl Hcm Hql Hqc Rl Rql Rc].
  pose proof (rows_of_likes Hrows) as E1. pose proof (rows_of_comments Hrows) as E2.
  pose proof (rows_of_postLikes Hrows) as E3.
  constructor; unfold has_project, has_post;
    rewrite ?E1, ?E2, ?E3, ?Hposts, ?Hrun; auto.
  - intros p' Hin. apply in_map_iff in Hin as [p0 [<- Hin]]. specialize (Hv p0 Hin).
    unfold where_id. destruct (eqId _ _); cbn; [unfold counted|]; lia.
  - intros p' Hin. apply in_map_iff in Hin as [p0 [<- Hin]]. specialize (Hl p0 Hin).
    rewrite (where_id_keeps_id Project.id) by reflexivity.
    unfold where_id. destruct (eqId _ _) eqn:E; cbn; [|lia].
    apply eqId_true in E. rewrite E. lia.
  - intros p' Hin. apply in_map_iff in Hin as [p0 [<- Hin]]. specialize (Hcm p0 Hin).
    rewrite (where_id_keeps_id Project.id) by reflexivity.
    unfold where_id. destruct (eqId _ _) eqn:E; cbn; [|lia].
    apply eqId_true in E. rewrite E. unfold counted.
    apply inj_le, rowCount_mono. intros c Hch. unfold charged_to_project in Hch.
    apply andb_prop in Hch as [_ Hch]. exact Hch.
  - intros l Hin. ref_frame. now apply Rl.
  - intros c Hin. destruct (Rc c Hin) as [H1 H2]. split; [|exact H2].
    now rewrite ref_ok_map_projects by (apply where_id_keeps_id; reflexivity).
Qed.

Lemma recountPost_covered (w : World) (postId : Id) :
  covered (db w) -> covered (db (snd (recountPost postId w))).
Proof.
  intros Hc.
  pose proof (recountPost_run w postId) as [Hrows [Hprojects Hrun]].
  cbv zeta in *.
  destruct (fst (recountPost postId w)); [|now destruct Hrun as [_ ->]].
  destruct Hc as [Hv Hl Hcm Hql Hqc Rl Rql Rc].
  pose proof (rows_of_likes Hrows) as E1. pose proof (rows_of_comments Hrows) as E2.
  pose proof (rows_of_postLikes Hrows) as E3.
  constructor; unfold has_project, has_post;
    rewrite ?E1, ?E2, ?E3, ?Hprojects, ?Hrun; auto.
  - intros p' Hin. apply in_map_iff in Hin as [p0 [<- Hin]]. specialize (Hql p0 Hin).
    rewrite (where_id_keeps_id CommunityPost.id) by reflexivity.
    unfold where_id. destruct (eqId _ _) eqn:E; cbn; [|lia].
    apply eqId_true in E. rewrite E. lia.
  - intros p' Hin. apply in_map_iff in Hin as [p0 [<- Hin]]. specialize (Hqc p0 Hin).
    rewrite (where_id_keeps_id CommunityPost.id) by reflexivity.
    unfold where_id. destruct (eqId _ _) eqn:E; cbn; [|lia].
    apply eqId_true in E. rewrite E. unfold counted.
    apply inj_le, rowCount_mono. intros c Hch. unfold charged_to_post in Hch.
    apply andb_prop in Hch as [_ Hch]. exact Hch.
  - intros l Hin. ref_frame. now apply Rql.
  - intros c Hin. destruct (Rc c Hin) as [H1 H2]. split; [exact H1|].
    now rewrite ref_ok_map_posts by (apply where_id_keeps_id; reflexivity).
Qed.

Lemma syncProjectsLoop_covered (ids : list Id) :
  forall (n : nat) (w : World),
    covered (db w) -> covered (db (snd (syncProjectsLoop ids n w))).
Proof.
  induction ids as [|projectId rest IH]; intros n w Hc; [exact Hc|].
  cbn [syncProjectsLoop].
  pose proof (recountProject_covered w projectId Hc) as H1.
  destruct (recountProject projectId w) as [[[]|e] w1] eqn:E; cbn [snd] in H1.
  - rewrite (@bind_ok _ _ _ _ _ _ _ E). now apply IH.
  - now rewrite (@bind_throw _ _ _ _ _ _ _ E).
Qed.

Lemma syncPostsLoop_covered (ids : list Id) :
  forall (n : nat) (w : World),
    covered (db w) -> covered (db (snd (syncPostsLoop ids n w))).
Proof.
  induction ids as [|postId rest IH]; intros n w Hc; [exact Hc|].
  cbn [syncPostsLoop].
  pose proof (recountPost_covered w postId Hc) as H1.
  destruct (recountPost postId w) as [[[]|e] w1] eqn:E; cbn [snd] in H1.
  - rewrite (@bind_ok _ _ _ _ _ _ _ E). now apply IH.
  - now rewrite (@bind_throw _ _ _ _ _ _ _ E).
Qed.

Lemma syncProjectCounts_covered (w : World) :
  covered (db w) -> covered (db (snd (syncProjectCounts w))).
Proof.
  intros Hc. unfold syncProjectCounts. rewrite try_rethrow.
  destruct (selectProjectIds_run w) as [w0 [Hdb [E|E]]].
  - rewrite (@bind_ok _ _ _ _ _ _ _ E). apply syncProjectsLoop_covered.
    now rewrite Hdb.
  - rewrite (@bind_throw _ _ _ _ _ _ _ E). cbn [snd]. now rewrite Hdb.
Qed.

Lemma syncCommunityPostCounts_covered (w : World) :
  covered (db w) -> covered (db (snd (syncCommunityPostCounts w))).
Proof.
  intros Hc. unfold syncCommunityPostCounts. rewrite try_rethrow.
  destruct (selectCommunityPostIds_run w) as [w0 [Hdb [E|E]]].
  - rewrite (@bind_ok _ _ _ _ _ _ _ E). apply syncPostsLoop_covered.
    now rewrite Hdb.
  - rewrite (@bind_throw _ _ _ _ _ _ _ E). cbn [snd]. now rewrite Hdb.
Qed.

Lemma syncAllCounts_covered (w : World) :
  covered (db w) -> covered (db (snd (syncAllCounts w))).
Proof.
  intros Hc. unfold syncAllCounts.
  pose proof (syncProjectCounts_covered w Hc) as H1.
  destruct (syncProjectCounts w) as [[m|e] w1]; cbn [snd] in *; [|exact H1].
  pose proof (syncCommunityPostCounts_covered w1 H1) as H2.
  destruct (syncCommunityPostCounts w1) as [[k|e] w2]; exact H2.
Qed.

Lemma syncAllCounts_keeps_quiet (w : World) :
  faults w = [] -> faults (snd (syncAllCounts w)) = [].
Proof.
  intros Hf. unfold syncAllCounts.
  destruct (@syncProjectCounts_quiet w Hf) as [w1 [E1 Hf1]]. rewrite E1.
  destruct (@syncCommunityPostCounts_quiet w1 Hf1) as [w2 [E2 Hf2]]. rewrite E2.
  exact Hf2.
Qed.

(** Every operation keeps the invariant when the store serves its
    statements, and leaves the schedule of faults empty. *)
Lemma perform_covered (op : Op) (w : World) :
  faults w = [] -> covered (db w) ->
  covered (db (perform op w)) /\ faults (perform op w) = [].
Proof.
  intros Hf Hc. destruct op; cbn [perform].
  - now apply createProject_covered.
  - now apply createCommunityPost_covered.
  - split; [now apply likeProject_covered | now apply likeProject_effect].
  - split; [now apply unlikeProject_covered | now apply unlikeProject_effect].
  - destruct (bookmarkProject_effect w projectId userId Hf) as [Hf' [bs ->]].
    split; [now apply covered_bookmarks | exact Hf'].
  - destruct (unbookmarkProject_effect w projectId userId Hf) as [Hf' [bs ->]].
    split; [now apply covered_bookmarks | exact Hf'].
  - split; [now apply likeCommunityPost_covered
           | now apply likeCommunityPost_effect].
  - split; [now apply unlikeCommunityPost_covered
           | now apply unlikeCommunityPost_effect].
  - now apply createComment_covered.
  - now apply deleteComment_covered.
  - now apply trackProjectView_covered.
  - now apply incrementProjectViews_covered.
  - split; [now apply syncAllCounts_covered | now apply syncAllCounts_keeps_quiet].
  - unfold syncSingleProjectCounts. rewrite try_rethrow.
    split; [now apply recountProject_covered|].
    destruct (@recountProject_quiet w projectId Hf) as [w1 [E Hf1]]. now rewrite E.
  - unfold syncSinglePostCounts. rewrite try_rethrow.
    split; [now apply recountPost_covered|].
    destruct (@recountPost_quiet w postId Hf) as [w1 [E Hf1]]. now rewrite E.
Qed.

Lemma run_covered (ops : list Op) :
  forall w, faults w = [] -> covered (db w) -> covered (db (run ops w)).
Proof.
  induction ops as [|op ops IH]; intros w Hf Hc; [exact Hc|].
  cbn [run fold_left]. destruct (perform_covered op w Hf Hc) as [Hc' Hf'].
  now apply IH.
Qed.

Lemma fresh_covered (d : DB) : fresh d -> covered d.
Proof.
  intros [Hp [Hq [El [Epl [Ec Ev]]]]].
  constructor; rewrite ?El, ?Epl, ?Ec; try (intros x []); unfold counted; cbn.
  - intros p Hin. destruct (Hp p Hin) as [-> _]. lia.
  - intros p Hin. destruct (Hp p Hin) as [_ [-> _]]. lia.
  - intros p Hin. destruct (Hp p Hin) as [_ [_ ->]]. lia.
  - intros q Hin. destruct (Hq q Hin) as [-> _]. lia.
  - intros q Hin. destruct (Hq q Hin) as [_ ->]. lia.
Qed.

Lemma covered_nonneg (d : DB) : covered d -> nonneg d.
Proof.
  intros [Hv Hl Hcm Hql Hqc _ _ _]. unfold counted in *. split.
  - intros p Hin. specialize (Hv p Hin). specialize (Hl p Hin).
    specialize (Hcm p Hin). lia.
  - intros q Hin. specialize (Hql q Hin). specialize (Hqc q Hin). lia.
Qed.

(** C5, as the code has it.  Starting from freshly created entities,
    after any sequence of create, like, unlike, bookmark, comment
    create/delete, view and reconcile operations whose statements the
    store all serves, every cached [viewCount], [likeCount] and
    [commentCount] is at least 0. *)
Theorem counters_nonneg_when_store_serves :
  forall (w : World) (ops : list Op),
    faults w = [] -> fresh (db w) -> nonneg (db (run ops w)).
Proof.
  intros w ops Hf Hfresh.
  apply covered_nonneg, run_covered; [exact Hf | now apply fresh_covered].
Qed.

Lemma fresh_scenario : fresh Scenario.fresh_db.
Proof.
  unfold fresh, Scenario.fresh_db. cbn. repeat split.
  - destruct H as [<-|[<-|[]]]; reflexivity.
  - destruct H as [<-|[<-|[]]]; reflexivity.
  - destruct H as [<-|[<-|[]]]; reflexivity.
  - destruct H as [<-|[]]; reflexivity.
  - destruct H as [<-|[]]; reflexivity.
Qed.

Lemma counters_nonneg_when_store_serves_witness :
  nonneg
    (db (run [LikeProject "p-1" "u-alice";
              CreateComment (InsertComment.mk "hi" None (Some "q-1") "u-bob");
              UnlikeProject "p-1" "u-alice";
              UnlikeProject "p-1" "u-alice";
              DeleteComment "k-1" "u-bob";
              SyncAllCounts]
             (Scenario.world Scenario.fresh_db []))).
Proof.
  apply counters_nonneg_when_store_serves; [reflexivity | exact fresh_scenario].
Defined.

(** Against C5 as stated: on a fresh project, a like whose row is
    inserted but whose counter update the store refuses (the call
    returns false), followed by an unlike, leaves [likeCount] at -1. *)
Lemma refused_increment_then_unlike_goes_negative :
  let w := Scenario.world Scenario.fresh_db [false; true] in
  let w' := run [LikeProject "p-1" "u-alice"; UnlikeProject "p-1" "u-alice"] w in
  fresh (db w) /\
  fst (likeProject "p-1" "u-alice" w) = Ok false /\
  map Project.likeCount (projects (db w')) = [-1; 0]%Z /\
  ~ nonneg (db w').
Proof.
  cbv zeta. split; [exact fresh_scenario|]. split; [reflexivity|].
  split; [reflexivity|].
  intros [H _].
  assert (Hin : In (Project.add_likeCount (-1) Scenario.projectP)
                   (projects (db (run [LikeProject "p-1" "u-alice";
                                       UnlikeProject "p-1" "u-alice"]
                                      (Scenario.world Scenario.fresh_db
                                                      [false; true])))))
    by (vm_compute; left; reflexivity).
  destruct (H _ Hin) as [_ [Hl _]]. vm_compute in Hl. now apply Hl.
Qed.

(** * Further properties *)

(** ** Likes and bookmarks, written and read back *)

(** The three ways [likeProject] can end, under any schedule of faults:
    nothing written, the row written but the counter update refused, or
    both written. *)
Lemma likeProject_outcome (w : World) (p u : Id) :
  let out := likeProject p u w in
  let row := ProjectLike.mk (entropy w (drawn w)) p u (S (clock w)) in
  (fst out = Ok false /\ db (snd out) = db w) \/
  (fst out = Ok false /\
   db (snd out) = set_projectLikes (projectLikes (db w) ++ [row]) (db w)) \/
  (fst out = Ok true /\
   db (snd out) =
     set_projects
       (map (where_id Project.id p (Project.add_likeCount 1)) (projects (db w)))
       (set_projectLikes (projectLikes (db w) ++ [row]) (db w))).
Proof.
  cbv zeta. unfold_tasks.
  destruct (faults w) as [|[|] fs]; cbn [fst snd db faults entropy drawn clock];
    auto.
  all: destruct (fresh_in _ _ _); cbn; auto.
  all: destruct (has_project _ _); cbn; auto.
  all: destruct (has_user _ _); cbn; auto.
  destruct fs as [|[|] fs]; cbn; auto.
Qed.

Lemma likeCommunityPost_outcome (w : World) (p u : Id) :
  let out := likeCommunityPost p u w in
  let row := PostLike.mk (entropy w (drawn w)) p u (S (clock w)) in
  (fst out = Ok false /\ db (snd out) = db w) \/
  (fst out = Ok false /\
   db (snd out) = set_postLikes (postLikes (db w) ++ [row]) (db w)) \/
  (fst out = Ok true /\
   db (snd out) =
     set_communityPosts
       (map (where_id CommunityPost.id p (CommunityPost.add_likeCount 1))
            (communityPosts (db w)))
       (set_postLikes (postLikes (db w) ++ [row]) (db w))).
Proof.
  cbv zeta. unfold_tasks.
  destruct (faults w) as [|[|] fs]; cbn [fst snd db faults entropy drawn clock];
    auto.
  all: destruct (fresh_in _ _ _); cbn; auto.
  all: destruct (has_post _ _); cbn; auto.
  all: destruct (has_user _ _); cbn; auto.
  destruct fs as [|[|] fs]; cbn; auto.
Qed.

Lemma bookmarkProject_outcome (w : World) (p u : Id) :
  let out := bookmarkProject p u w in
  let row := ProjectBookmark.mk (entropy w (drawn w)) p u (S (clock w)) in
  (fst out = Ok false /\ db (snd out) = db w) \/
  (fst out = Ok true /\
   db (snd out)
   = set_projectBookmarks (projectBookmarks (db w) ++ [row]) (db w)).
Proof.
  cbv zeta. unfold_tasks.
  destruct (faults w) as [|[|] fs]; cbn [fst snd db faults entropy drawn clock];
    auto.
  all: destruct (fresh_in _ _ _); cbn; auto.
  all: destruct (has_project _ _); cbn; auto.
  all: destruct (has_user _ _); cbn; auto.
Qed.

Lemma some_row_filter_app {A} (f : A -> bool) (l : list A) (r : A) :
  f r = true -> some_row (filter f (l ++ [r])) = true.
Proof.
  intros H. rewrite filter_app. cbn. rewrite H.
  now destruct (filter f l).
Qed.

Lemma isProjectLiked_served (w : World) (p u : Id) :
  faults w = [] ->
  fst (isProjectLiked p u w)
  = Ok (some_row (filter (like_hit p u) (projectLikes (db w)))).
Proof.
  intros Hf. unfold isProjectLiked, selectProjectLikes. unfold_tasks.
  now rewrite Hf.
Qed.

Lemma isCommunityPostLiked_served (w : World) (p u : Id) :
  faults w = [] ->
  fst (isCommunityPostLiked p u w)
  = Ok (some_row (filter (postLike_hit p u) (postLikes (db w)))).
Proof.
  intros Hf. unfold isCommunityPostLiked, selectPostLikes. unfold_tasks.
  now rewrite Hf.
Qed.

Lemma isProjectBookmarked_served (w : World) (p u : Id) :
  faults w = [] ->
  fst (isProjectBookmarked p u w)
  = Ok (some_row (filter (bookmark_hit p u) (projectBookmarks (db w)))).
Proof.
  intros Hf. unfold isProjectBookmarked, selectProjectBookmarks. unfold_tasks.
  now rewrite Hf.
Qed.

Lemma eqId_refl (a : Id) : eqId a a = true.
Proof. apply String.eqb_refl. Qed.

(** X1.  A like that returned true is read back: whatever the store did
    during [likeProject], once it answered true a served [isProjectLiked]
    for the same pair on the database it left answers true; likewise for
    [likeCommunityPost] and [isCommunityPostLiked]. *)
Theorem like_is_read_back :
  forall (w : World) (target user : Id),
    (fst (likeProject target user w) = Ok true ->
     forall w2, db w2 = db (snd (likeProject target user w)) ->
                faults w2 = [] ->
                fst (isProjectLiked target user w2) = Ok true) /\
    (fst (likeCommunityPost target user w) = Ok true ->
     forall w2, db w2 = db (snd (likeCommunityPost target user w)) ->
                faults w2 = [] ->
                fst (isCommunityPostLiked target user w2) = Ok true).
Proof.
  intros w target user. split.
  - intros Hok w2 Hdb Hf. rewrite (isProjectLiked_served _ _ _ Hf), Hdb.
    destruct (likeProject_outcome w target user) as [[H _]|[[H _]|[_ ->]]];
      try congruence.
    db_simpl. rewrite some_row_filter_app; [reflexivity|].
    unfold like_hit. cbn. now rewrite !eqId_refl.
  - intros Hok w2 Hdb Hf. rewrite (isCommunityPostLiked_served _ _ _ Hf), Hdb.
    destruct (likeCommunityPost_outcome w target user) as [[H _]|[[H _]|[_ ->]]];
      try congruence.
    db_simpl. rewrite some_row_filter_app; [reflexivity|].
    unfold postLike_hit. cbn. now rewrite !eqId_refl.
Qed.

Lemma like_is_read_back_witness :
  fst (isProjectLiked "p-1" "u-alice"
         (snd (likeProject "p-1" "u-alice"
                 (Scenario.world Scenario.fresh_db [])))) = Ok true.
Proof.
  apply (proj1 (like_is_read_back (Scenario.world Scenario.fresh_db [])
                  "p-1" "u-alice")); reflexivity.
Defined.

Lemma filter_negb_none {A} (f : A -> bool) (l : list A) :
  filter f (filter (fun r => negb (f r)) l) = [].
Proof.
  induction l as [|a l IH]; cbn; [reflexivity|].
  destruct (f a) eqn:E; cbn; [exact IH | now rewrite E].
Qed.

Lemma unlikeProject_served (w : World) (p u : Id) :
  faults w = [] ->
  let k := rowCount (like_hit p u) (projectLikes (db w)) in
  fst (unlikeProject p u w) = Ok (0 <? k)%nat /\
  faults (snd (unlikeProject p u w)) = [] /\
  projectLikes (db (snd (unlikeProject p u w)))
  = filter (fun r => negb (like_hit p u r)) (projectLikes (db w)) /\
  projects (db (snd (unlikeProject p u w)))
  = (if (0 <? k)%nat
     then map (where_id Project.id p (Project.add_likeCount (-1)))
              (projects (db w))
     else projects (db w)).
Proof.
  intros Hf. cbv zeta. unfold_tasks. rewrite Hf.
  cbn [fst snd db faults entropy drawn clock].
  destruct (rowCount _ _); cbn; auto.
Qed.

Lemma unlikeCommunityPost_served (w : World) (p u : Id) :
  faults w = [] ->
  let k := rowCount (postLike_hit p u) (postLikes (db w)) in
  fst (unlikeCommunityPost p u w) = Ok (0 <? k)%nat /\
  faults (snd (unlikeCommunityPost p u w)) = [] /\
  postLikes (db (snd (unlikeCommunityPost p u w)))
  = filter (fun r => negb (postLike_hit p u r)) (postLikes (db w)) /\
  communityPosts (db (snd (unlikeCommunityPost p u w)))
  = (if (0 <? k)%nat
     then map (where_id CommunityPost.id p (CommunityPost.add_likeCount (-1)))
              (communityPosts (db w))
     else communityPosts (db w)).
Proof.
  intros Hf. cbv zeta. unfold_tasks. rewrite Hf.
  cbn [fst snd db faults entropy drawn clock].
  destruct (rowCount _ _); cbn; auto.
Qed.

(** X2.  With the store serving, [unlikeProject] clears the pair: every
    like row of (target, user) is gone, also when there were several, so
    [isProjectLiked] answers false and a second [unlikeProject] answers
    false and changes nothing.  Likewise for community posts. *)
Theorem unlike_clears_the_pair :
  forall (w : World) (target user : Id),
    faults w = [] ->
    (let w1 := snd (unlikeProject target user w) in
     fst (isProjectLiked target user w1) = Ok false /\
     fst (unlikeProject target user w1) = Ok false /\
     db (snd (unlikeProject target user w1)) = db w1) /\
    (let w1 := snd (unlikeCommunityPost target user w) in
     fst (isCommunityPostLiked target user w1) = Ok false /\
     fst (unlikeCommunityPost target user w1) = Ok false /\
     db (snd (unlikeCommunityPost target user w1)) = db w1).
Proof.
  intros w target user Hf. split; cbv zeta.
  - destruct (unlikeProject_served w target user Hf) as [_ [Hf1 [Hl _]]].
    remember (snd (unlikeProject target user w)) as w1 eqn:Ew1. clear Ew1.
    assert (Hnone : filter (like_hit target user) (projectLikes (db w1)) = [])
      by (rewrite Hl; apply filter_negb_none).
    assert (Hk : rowCount (like_hit target user) (projectLikes (db w1)) = 0)
      by (unfold rowCount; now rewrite Hnone).
    split; [|split].
    + rewrite (isProjectLiked_served _ _ _ Hf1), Hnone. reflexivity.
    + destruct (unlikeProject_served w1 target user Hf1) as [Hr _].
      now rewrite Hr, Hk.
    + destruct (unlikeProject_effect w1 target user Hf1) as [_ [H|[H _]]];
        [exact H | contradiction].
  - destruct (unlikeCommunityPost_served w target user Hf) as [_ [Hf1 [Hl _]]].
    remember (snd (unlikeCommunityPost target user w)) as w1 eqn:Ew1. clear Ew1.
    assert (Hnone : filter (postLike_hit target user) (postLikes (db w1)) = [])
      by (rewrite Hl; apply filter_negb_none).
    assert (Hk : rowCount (postLike_hit target user) (postLikes (db w1)) = 0)
      by (unfold rowCount; now rewrite Hnone).
    split; [|split].
    + rewrite (isCommunityPostLiked_served _ _ _ Hf1), Hnone. reflexivity.
    + destruct (unlikeCommunityPost_served w1 target user Hf1) as [Hr _].
      now rewrite Hr, Hk.
    + destruct (unlikeCommunityPost_effect w1 target user Hf1) as [_ [H|[H _]]];
        [exact H | contradiction].
Qed.

Lemma unlike_clears_the_pair_witness :
  let w1 := snd (unlikeProject "p-2" "u-alice"
                   (Scenario.world Scenario.drifted_db [])) in
  fst (isProjectLiked "p-2" "u-alice" w1) = Ok false /\
  fst (unlikeProject "p-2" "u-alice" w1) = Ok false.
Proof.
  cbv zeta.
  destruct (proj1 (unlike_clears_the_pair (Scenario.world Scenario.drifted_db [])
                     "p-2" "u-alice" eq_refl)) as [H1 [H2 _]].
  split; [exact H1 | exact H2].
Defined.

Lemma rowCount_filter_split {A} (f h : A -> bool) (l : list A) :
  (forall x, h x = true -> f x = true) ->
  rowCount f (filter (fun r => negb (h r)) l) + rowCount h l = rowCount f l.
Proof.
  intros Hsub. unfold rowCount. induction l as [|a l IH]; cbn; [reflexivity|].
  destruct (h a) eqn:Eh; cbn.
  - rewrite (Hsub a Eh). cbn. lia.
  - destruct (f a); cbn; lia.
Qed.



Lemma likeProject_served (w : World) (p u : Id) :
  faults w = [] -> like_accepted w p u = true ->
  fst (likeProject p u w) = Ok true /\
  faults (snd (likeProject p u w)) = [] /\
  db (snd (likeProject p u w)) =
    set_projects
      (map (where_id Project.id p (Project.add_likeCount 1)) (projects (db w)))
      (set_projectLikes
         (projectLikes (db w)
          ++ [ProjectLike.mk (entropy w (drawn w)) p u (S (clock w))])
         (db w)).
Proof.
  intros Hf Ha. unfold like_accepted in Ha.
  apply andb_prop in Ha as [Ha Hu]. apply andb_prop in Ha as [Hi Hp].
  unfold_tasks. rewrite Hf. cbn [fst snd db faults entropy drawn clock].
  rewrite Hi, Hp, Hu. cbn. auto.
Qed.

Lemma likeCommunityPost_served (w : World) (p u : Id) :
  faults w = [] -> postLike_accepted w p u = true ->
  fst (likeCommunityPost p u w) = Ok true /\
  faults (snd (likeCommunityPost p u w)) = [] /\
  db (snd (likeCommunityPost p u w)) =
    set_communityPosts
      (map (where_id CommunityPost.id p (CommunityPost.add_likeCount 1))
           (communityPosts (db w)))
      (set_postLikes
         (postLikes (db w)
          ++ [PostLike.mk (entropy w (drawn w)) p u (S (clock w))])
         (db w)).
Proof.
  intros Hf Ha. unfold postLike_accepted in Ha.
  apply andb_prop in Ha as [Ha Hu]. apply andb_prop in Ha as [Hi Hp].
  unfold_tasks. rewrite Hf. cbn [fst snd db faults entropy drawn clock].
  rewrite Hi, Hp, Hu. cbn. auto.
Qed.

Lemma project_bump_back (id : Id) (delta : Z) (ps : list Project.t) :
  map (where_id Project.id id (Project.add_likeCount (- delta)))
      (map (where_id Project.id id (Project.add_likeCount delta)) ps) = ps.
Proof.
  rewrite map_map. rewrite <- (map_id ps) at 2. apply map_ext. intros p.
  destruct p as [id0 ? ? ? ? ? ? ? ? ? ? ? ? ? ? ? ?].
  unfold where_id, eqId, Project.add_likeCount, Project.with_counts. cbn.
  destruct (String.eqb id0 id) eqn:E; cbn; rewrite E; [|reflexivity].
  f_equal. lia.
Qed.

Lemma post_bump_back (id : Id) (delta : Z) (qs : list CommunityPost.t) :
  map (where_id CommunityPost.id id (CommunityPost.add_likeCount (- delta)))
      (map (where_id CommunityPost.id id (CommunityPost.add_likeCount delta)) qs)
  = qs.
Proof.
  rewrite map_map. rewrite <- (map_id qs) at 2. apply map_ext. intros q.
  destruct q as [id0 ? ? ? ? ? ? ? ? ?].
  unfold where_id, eqId, CommunityPost.add_likeCount, CommunityPost.with_counts.
  cbn. destruct (String.eqb id0 id) eqn:E; cbn; rewrite E; [|reflexivity].
  f_equal. lia.
Qed.

Lemma filter_out_appended {A} (h : A -> bool) (l : list A) (r : A) :
  rowCount h l = 0 -> h r = true ->
  filter (fun x => negb (h x)) (l ++ [r]) = l /\ rowCount h (l ++ [r]) = 1.
Proof.
  intros H0 Hr. rewrite filter_app, rowCount_app, H0, Hr. cbn. rewrite Hr. cbn.
  rewrite (rowCount_zero_filter _ _ H0), app_nil_r. auto.
Qed.

(** X4.  With the store serving, a like the store accepts for a pair
    that had no like row, followed by the unlike of the same pair, gives
    true twice and restores the database exactly: like rows and cached
    counter are as before.  Likewise for community posts. *)
Theorem like_then_unlike_restores :
  forall (w : World) (target user : Id),
    faults w = [] ->
    (like_accepted w target user = true ->
     rowCount (like_hit target user) (projectLikes (db w)) = 0 ->
     let w1 := snd (likeProject target user w) in
     fst (likeProject target user w) = Ok true /\
     fst (unlikeProject target user w1) = Ok true /\
     db (snd (unlikeProject target user w1)) = db w) /\
    (postLike_accepted w target user = true ->
     rowCount (postLike_hit target user) (postLikes (db w)) = 0 ->
     let w1 := snd (likeCommunityPost target user w) in
     fst (likeCommunityPost target user w) = Ok true /\
     fst (unlikeCommunityPost target user w1) = Ok true /\
     db (snd (unlikeCommunityPost target user w1)) = db w).
Proof.
  intros w target user Hf. split; intros Ha H0; cbv zeta.
  - destruct (likeProject_served w target user Hf Ha) as [Hr [Hf1 Hdb]].
    remember (snd (likeProject target user w)) as w1 eqn:Ew1. clear Ew1.
    destruct (@filter_out_appended _ (like_hit target user) (projectLikes (db w))
                (ProjectLike.mk (entropy w (drawn w)) target user (S (clock w))) H0)
      as [Hfl Hk]; [unfold like_hit; cbn; now rewrite !eqId_refl|].
    split; [exact Hr|].
    destruct (unlikeProject_served w1 target user Hf1) as [Hr2 _].
    destruct (unlikeProject_effect w1 target user Hf1) as [_ Heff].
    rewrite Hdb in Hr2, Heff. db_simpl. rewrite Hk in Hr2. split; [exact Hr2|].
    destruct Heff as [Heff|[_ Heff]].
    + exfalso. destruct (unlikeProject_served w1 target user Hf1) as [_ [_ [Hl _]]].
      rewrite Heff, Hdb in Hl. db_simpl. rewrite Hfl in Hl.
      apply (f_equal (@length _)) in Hl. rewrite length_app in Hl. cbn in Hl. lia.
    + rewrite Heff. db_simpl. rewrite Hfl.
      rewrite (project_bump_back target 1). unfold set_projects, set_projectLikes.
      cbn. apply db_eta.
  - destruct (likeCommunityPost_served w target user Hf Ha) as [Hr [Hf1 Hdb]].
    remember (snd (likeCommunityPost target user w)) as w1 eqn:Ew1. clear Ew1.
    destruct (@filter_out_appended _ (postLike_hit target user) (postLikes (db w))
                (PostLike.mk (entropy w (drawn w)) target user (S (clock w))) H0)
      as [Hfl Hk]; [unfold postLike_hit; cbn; now rewrite !eqId_refl|].
    split; [exact Hr|].
    destruct (unlikeCommunityPost_served w1 target user Hf1) as [Hr2 _].
    destruct (unlikeCommunityPost_effect w1 target user Hf1) as [_ Heff].
    rewrite Hdb in Hr2, Heff. db_simpl. rewrite Hk in Hr2. split; [exact Hr2|].
    destruct Heff as [Heff|[_ Heff]].
    + exfalso.
      destruct (unlikeCommunityPost_served w1 target user Hf1) as [_ [_ [Hl _]]].
      rewrite Heff, Hdb in Hl. db_simpl. rewrite Hfl in Hl.
      apply (f_equal (@length _)) in Hl. rewrite length_app in Hl. cbn in Hl. lia.
    + rewrite Heff. db_simpl. rewrite Hfl.
      rewrite (post_bump_back target 1). unfold set_communityPosts, set_postLikes.
      cbn. apply db_eta.
Qed.

Lemma like_then_unlike_restores_witness :
  db (snd (unlikeProject "p-1" "u-bob"
             (snd (likeProject "p-1" "u-bob"
                     (Scenario.world Scenario.liked_db [])))))
  = Scenario.liked_db.
Proof.
  destruct (proj1 (like_then_unlike_restores (Scenario.world Scenario.liked_db [])
                     "p-1" "u-bob" eq_refl) eq_refl eq_refl) as [_ [_ H]].
  exact H.
Defined.

Lemma unbookmarkProject_served (w : World) (p u : Id) :
  faults w = [] ->
  fst (unbookmarkProject p u w)
  = Ok (0 <? rowCount (bookmark_hit p u) (projectBookmarks (db w)))%nat /\
  faults (snd (unbookmarkProject p u w)) = [] /\
  db (snd (unbookmarkProject p u w))
  = set_projectBookmarks
      (filter (fun r => negb (bookmark_hit p u r)) (projectBookmarks (db w)))
      (db w).
Proof.
  intros Hf. unfold_tasks. rewrite Hf. cbn. auto.
Qed.

(** X5.  A bookmark that returned true is read back by a served
    [isProjectBookmarked]; and after a served [unbookmarkProject] the
    pair reads as not bookmarked and a second [unbookmarkProject]
    answers false, however many bookmark rows the pair had. *)
Theorem bookmark_is_read_back :
  forall (w : World) (projectId userId : Id),
    (fst (bookmarkProject projectId userId w) = Ok true ->
     forall w2, db w2 = db (snd (bookmarkProject projectId userId w)) ->
                faults w2 = [] ->
                fst (isProjectBookmarked projectId userId w2) = Ok true) /\
    (faults w = [] ->
     let w1 := snd (unbookmarkProject projectId userId w) in
     fst (isProjectBookmarked projectId userId w1) = Ok false /\
     fst (unbookmarkProject projectId userId w1) = Ok false).
Proof.
  intros w p u. split.
  - intros Hok w2 Hdb Hf. rewrite (isProjectBookmarked_served _ _ _ Hf), Hdb.
    destruct (bookmarkProject_outcome w p u) as [[H _]|[_ ->]]; [congruence|].
    db_simpl. rewrite some_row_filter_app; [reflexivity|].
    unfold bookmark_hit. cbn. now rewrite !eqId_refl.
  - intros Hf. cbv zeta.
    destruct (unbookmarkProject_served w p u Hf) as [_ [Hf1 Hdb]].
    remember (snd (unbookmarkProject p u w)) as w1 eqn:Ew1. clear Ew1.
    assert (Hnone : filter (bookmark_hit p u) (projectBookmarks (db w1)) = [])
      by (rewrite Hdb; db_simpl; apply filter_negb_none).
    split.
    + rewrite (isProjectBookmarked_served _ _ _ Hf1), Hnone. reflexivity.
    + destruct (unbookmarkProject_served w1 p u Hf1) as [Hr _].
      rewrite Hr. unfold rowCount. now rewrite Hnone.
Qed.

Lemma bookmark_is_read_back_witness :
  let w1 := snd (bookmarkProject "p-1" "u-bob"
                   (Scenario.world Scenario.fresh_db [])) in
  fst (isProjectBookmarked "p-1" "u-bob" w1) = Ok true /\
  fst (isProjectBookmarked "p-1" "u-bob"
         (snd (unbookmarkProject "p-1" "u-bob" w1))) = Ok false.
Proof.
  cbv zeta. split.
  - apply (proj1 (bookmark_is_read_back (Scenario.world Scenario.fresh_db [])
                    "p-1" "u-bob")); reflexivity.
  - apply (proj2 (bookmark_is_read_back
                    (snd (bookmarkProject "p-1" "u-bob"
                            (Scenario.world Scenario.fresh_db [])))
                    "p-1" "u-bob")). reflexivity.
Defined.

(** X6.  Bookmarks carry no uniqueness over (project, user) either: with
    the store serving, [bookmarkProject] answers true exactly when the
    drawn id is free, the project exists and the user exists, and then
    appends one row, whether or not the pair is bookmarked already. *)
Theorem bookmark_accepts_repeats :
  forall (w : World) (projectId userId : Id),
    faults w = [] ->
    let accepted :=
      fresh_in ProjectBookmark.id (projectBookmarks (db w)) (entropy w (drawn w))
      && has_project (db w) projectId && has_user (db w) userId in
    fst (bookmarkProject projectId userId w) = Ok accepted /\
    (accepted = true ->
     projectBookmarks (db (snd (bookmarkProject projectId userId w)))
     = projectBookmarks (db w)
       ++ [ProjectBookmark.mk (entropy w (drawn w)) projectId userId
                              (S (clock w))]).
Proof.
  intros w p u Hf. cbv zeta. unfold_tasks. rewrite Hf.
  cbn [fst snd db faults entropy drawn clock].
  destruct (fresh_in _ _ _); cbn; [|split; [reflexivity | discriminate]].
  destruct (has_project _ _); cbn; [|split; [reflexivity | discriminate]].
  destruct (has_user _ _); cbn; split; auto; discriminate.
Qed.

Lemma bookmark_accepts_repeats_witness :
  let w1 := snd (bookmarkProject "p-1" "u-bob"
                   (Scenario.world Scenario.fresh_db [])) in
  fst (bookmarkProject "p-1" "u-bob" w1) = Ok true /\
  length (projectBookmarks (db (snd (bookmarkProject "p-1" "u-bob" w1)))) = 2.
Proof.
  cbv zeta.
  destruct (bookmark_accepts_repeats
              (snd (bookmarkProject "p-1" "u-bob"
                      (Scenario.world Scenario.fresh_db [])))
              "p-1" "u-bob" eq_refl) as [Hr Hb].
  split; [exact Hr|]. rewrite (Hb eq_refl). reflexivity.
Defined.

(** X7.  [likeProject], [likeCommunityPost] and [bookmarkProject] never
    throw, whatever the store does: they always resolve to a boolean.
    When a like resolves to false the cached counters are untouched (a
    like row may nonetheless have been written, when it is the counter
    update that the store refused). *)
Theorem likes_and_bookmarks_never_throw :
  forall (w : World) (target user : Id),
    (exists b, fst (likeProject target user w) = Ok b) /\
    (fst (likeProject target user w) = Ok false ->
     projects (db (snd (likeProject target user w))) = projects (db w)) /\
    (exists b, fst (likeCommunityPost target user w) = Ok b) /\
    (fst (likeCommunityPost target user w) = Ok false ->
     communityPosts (db (snd (likeCommunityPost target user w)))
     = communityPosts (db w)) /\
    (exists b, fst (bookmarkProject target user w) = Ok b).
Proof.
  intros w target user.
  pose proof (likeProject_outcome w target user) as H1.
  pose proof (likeCommunityPost_outcome w target user) as H2.
  pose proof (bookmarkProject_outcome w target user) as H3. cbv zeta in *.
  split; [|split; [|split; [|split]]].
  - destruct H1 as [[H _]|[[H _]|[H _]]]; eauto.
  - intros Hr. destruct H1 as [[_ ->]|[[_ ->]|[H _]]]; [reflexivity.. | congruence].
  - destruct H2 as [[H _]|[[H _]|[H _]]]; eauto.
  - intros Hr. destruct H2 as [[_ ->]|[[_ ->]|[H _]]]; [reflexivity.. | congruence].
  - destruct H3 as [[H _]|[H _]]; eauto.
Qed.

Lemma likes_and_bookmarks_never_throw_witness :
  fst (likeProject "p-1" "u-alice"
         (Scenario.world Scenario.fresh_db [false; true])) = Ok false /\
  map Project.likeCount
      (projects (db (snd (likeProject "p-1" "u-alice"
                            (Scenario.world Scenario.fresh_db [false; true])))))
  = [0; 0]%Z /\
  length (projectLikes
            (db (snd (likeProject "p-1" "u-alice"
                        (Scenario.world Scenario.fresh_db [false; true]))))) = 1.
Proof.
  destruct (likes_and_bookmarks_never_throw
              (Scenario.world Scenario.fresh_db [false; true]) "p-1" "u-alice")
    as [_ [H _]].
  split; [reflexivity|]. split; [|reflexivity].
  rewrite (H eq_refl). reflexivity.
Defined.

(** ** Routes *)

(** X8.  [POST /api/projects/:id/like], [POST /api/community/posts/:id/like]
    and [POST /api/projects/:id/bookmark] answer 200 with a success flag
    under every schedule of faults: their 500 branch is never taken.
    [DELETE /api/projects/:id/like] does answer 500 when the store refuses
    its delete statement. *)
Theorem like_routes_always_answer_200 :
  forall (w : World) (id userId : Id),
    (exists success, fst (likeProjectRoute id userId w) = Json 200 success) /\
    (exists success, fst (likeCommunityPostRoute id userId w) = Json 200 success) /\
    (exists success, fst (bookmarkProjectRoute id userId w) = Json 200 success) /\
    (forall fs, faults w = true :: fs ->
       fst (unlikeProjectRoute id userId w)
       = Message 500 "Failed to unlike project").
Proof.
  intros w id u.
  pose proof (likeProject_outcome w id u) as H1.
  pose proof (likeCommunityPost_outcome w id u) as H2.
  pose proof (bookmarkProject_outcome w id u) as H3. cbv zeta in *.
  unfold likeProjectRoute, likeCommunityPostRoute, bookmarkProjectRoute,
    unlikeProjectRoute, respond, bind, ret.
  split; [|split; [|split]].
  - destruct (likeProject id u w) as [[b|e] w1]; cbn in *; [eauto|].
    destruct H1 as [[H _]|[[H _]|[H _]]]; discriminate.
  - destruct (likeCommunityPost id u w) as [[b|e] w1]; cbn in *; [eauto|].
    destruct H2 as [[H _]|[[H _]|[H _]]]; discriminate.
  - destruct (bookmarkProject id u w) as [[b|e] w1]; cbn in *; [eauto|].
    destruct H3 as [[H _]|[H _]]; discriminate.
  - intros fs Hf. unfold_tasks. rewrite Hf. reflexivity.
Qed.

Lemma like_routes_always_answer_200_witness :
  fst (unlikeProjectRoute "p-1" "u-alice"
         (Scenario.world Scenario.liked_db [true]))
  = Message 500 "Failed to unlike project" /\
  fst (likeProjectRoute "p-1" "u-alice"
         (Scenario.world Scenario.liked_db [true])) = Json 200 false.
Proof.
  destruct (like_routes_always_answer_200
              (Scenario.world Scenario.liked_db [true]) "p-1" "u-alice")
    as [_ [_ [_ H]]].
  split; [exact (H [] eq_refl) | reflexivity].
Defined.

Lemma leftJoinUsers_head (us : list User.t) (p : Project.t) :
  hd_error (leftJoinUsers us p)
  = Some (project_columns p
            (find (fun u => eqId (Project.userId p) (User.id u)) us)).
Proof.
  unfold leftJoinUsers. rewrite find_filter.
  now destruct (filter _ us).
Qed.

Lemma leftJoinUsers_nonempty (us : list User.t) (p : Project.t) :
  leftJoinUsers us p <> [].
Proof.
  unfold leftJoinUsers. destruct (filter _ us); discriminate.
Qed.

Lemma getProject_served (w : World) (id : Id) :
  faults w = [] ->
  getProject id w
  = (Ok (match find (fun p => eqId (Project.id p) id) (projects (db w)) with
         | Some p =>
             Some (project_columns p
                     (find (fun u => eqId (Project.userId p) (User.id u))
                           (users (db w))))
         | None => None
         end),
     mkWorld (db w) [] (entropy w) (drawn w) (S (clock w))).
Proof.
  intros Hf. unfold getProject. unfold_tasks. rewrite Hf. cbn.
  rewrite find_filter. destruct (filter _ (projects (db w))) as [|p rest]; cbn;
    [reflexivity|].
  pose proof (leftJoinUsers_head (users (db w)) p) as Hh.
  destruct (leftJoinUsers (users (db w)) p); cbn in *; [discriminate|].
  now rewrite Hh.
Qed.

Lemma find_none_has_project (d : DB) (id : Id) :
  has_project d id = false ->
  find (fun p => eqId (Project.id p) id) (projects d) = None.
Proof.
  unfold has_project. induction (projects d) as [|p ps IH]; cbn; [reflexivity|].
  destruct (eqId (Project.id p) id); cbn; [discriminate | exact IH].
Qed.

(** X9.  [GET /api/projects/:id] reads the project before it tracks the
    view, whatever [storage.trackProjectView] does.  With the store
    serving the read: for an id with no project row the answer is 404,
    the tracking is not run and nothing is recorded; for an existing
    project the tracking runs on the database as it was read, and when
    it resolves the answer is 200 with the columns read before it ran
    (so a view it counts is not in the body), while when it throws the
    answer is 500 although the project was found. *)
Theorem getProjectRoute_tracks_after_reading :
  forall (track : Id -> option Id -> option string -> Task unit)
         (w : World) (id : Id) (userId : option Id) (ipAddress : option string),
    faults w = [] ->
    let out := getProjectRouteWith track id userId ipAddress w in
    let w1 := mkWorld (db w) [] (entropy w) (drawn w) (S (clock w)) in
    (has_project (db w) id = false ->
     fst out = Message 404 "Project not found" /\ snd out = w1) /\
    (forall p,
       find (fun p => eqId (Project.id p) id) (projects (db w)) = Some p ->
       snd out = snd (track id userId ipAddress w1) /\
       fst out
       = (match fst (track id userId ipAddress w1) with
          | Ok _ =>
              Json 200
                (project_columns p
                   (find (fun u => eqId (Project.userId p) (User.id u))
                         (users (db w))))
          | Throw _ => Message 500 "Failed to fetch project"
          end)).
Proof.
  intros track w id userId ip Hf. cbv zeta. unfold getProjectRouteWith, respond.
  pose proof (getProject_served w id Hf) as Hg. split.
  - intros Hno. rewrite (find_none_has_project _ _ Hno) in Hg.
    rewrite (@bind_ok _ _ _ _ _ _ _ Hg). cbn. auto.
  - intros p Hp. rewrite Hp in Hg.
    rewrite (@bind_ok _ _ _ _ _ _ _ Hg).
    destruct (track id userId ip
                (mkWorld (db w) [] (entropy w) (drawn w) (S (clock w))))
      as [[u|e] w2] eqn:E.
    + rewrite (@bind_ok _ _ _ _ _ _ _ E). cbn. auto.
    + rewrite (@bind_throw _ _ _ _ _ _ _ E). cbn. auto.
Qed.

Lemma getProjectRoute_tracks_after_reading_witness :
  let out := getProjectRoute "p-1" (Some "u-bob") None
               (Scenario.world Scenario.fresh_db []) in
  (exists body, fst out = Json 200 body /\ ProjectWithUser.viewCount body = 0%Z) /\
  fst (getProjectRoute "p-9" None None (Scenario.world Scenario.fresh_db []))
  = Message 404 "Project not found".
Proof.
  cbv zeta.
  destruct (getProjectRoute_tracks_after_reading trackProjectView
              (Scenario.world Scenario.fresh_db []) "p-1" (Some "u-bob") None
              eq_refl) as [_ H].
  destruct (H Scenario.projectP eq_refl) as [_ Hr].
  destruct (getProjectRoute_tracks_after_reading trackProjectView
              (Scenario.world Scenario.fresh_db []) "p-9" None None eq_refl)
    as [H404 _].
  split.
  - eexists. split; [exact Hr | reflexivity].
  - apply H404. reflexivity.
Defined.

Lemma deleteComment_served (w : World) (id u : Id) :
  faults w = [] ->
  fst (deleteComment id u w)
  = Ok (existsb (comment_hit id u) (comments (db w))) /\
  (existsb (comment_hit id u) (comments (db w)) = false ->
   db (snd (deleteComment id u w)) = db w) /\
  (forall c, find (comment_hit id u) (comments (db w)) = Some c ->
     db (snd (deleteComment id u w))
     = bump_db (Comment.projectId c) (Comment.postId c) (-1)
         (set_comments
            (filter (fun r => negb (comment_hit id u r)) (comments (db w)))
            (db w))).
Proof.
  intros Hf. rewrite deleteComment_bumps.
  destruct (selectComments_quiet w id u Hf) as [w1 [E1 [Hf1 Hdb1]]].
  rewrite (@bind_ok _ _ _ _ _ _ _ E1). rewrite find_filter.
  destruct (filter (comment_hit id u) (comments (db w))) as [|c rest] eqn:E.
  - assert (Hex : existsb (comment_hit id u) (comments (db w)) = false).
    { destruct (existsb _ _) eqn:Hex; [|reflexivity].
      apply existsb_exists in Hex as [x [Hx Hh]].
      assert (In x (filter (comment_hit id u) (comments (db w))))
        by (apply filter_In; auto).
      rewrite E in H. destruct H. }
    rewrite Hex. unfold ret. cbn [fst snd]. rewrite Hdb1.
    split; [reflexivity|]. split; [auto | discriminate].
  - assert (Hex : existsb (comment_hit id u) (comments (db w)) = true).
    { apply existsb_exists. exists c. apply filter_In. rewrite E. now left. }
    rewrite Hex.
    destruct (deleteComments_quiet w1 id u Hf1) as [w2 [E2 [Hf2 Hdb2]]].
    rewrite (@bind_ok _ _ _ _ _ _ _ E2).
    rewrite Hdb1 in *. unfold rowCount. rewrite E. cbn [length Nat.ltb Nat.leb].
    destruct (@bumpParent_effect w2 (Comment.projectId c) (Comment.postId c)
                (-1) Hf2) as [w3 [E3 [Hf3 Hdb3]]].
    rewrite (@bind_ok _ _ _ _ _ _ _ E3). unfold ret. cbn [fst snd].
    split; [reflexivity|]. split; [discriminate|].
    intros c0 Hc0. injection Hc0 as <-. now rewrite Hdb3, Hdb2.
Qed.

(** X10.  [DELETE /api/comments/:id], the store serving: when no comment
    has this id and belongs to the caller the answer is 404 and the
    database is untouched, so somebody else's comment cannot be deleted
    and its existence is not revealed; otherwise the answer is 200. *)
Theorem deleteCommentRoute_answers :
  forall (w : World) (id userId : Id),
    faults w = [] ->
    let out := deleteCommentRoute id userId w in
    (existsb (comment_hit id userId) (comments (db w)) = false ->
     fst out = Message 404 "Comment not found" /\ db (snd out) = db w) /\
    (existsb (comment_hit id userId) (comments (db w)) = true ->
     fst out = Message 200 "Comment deleted successfully" /\
     comments (db (snd out))
     = filter (fun r => negb (comment_hit id userId r)) (comments (db w))).
Proof.
  intros w id u Hf. cbv zeta.
  destruct (deleteComment_served w id u Hf) as [Hr [Hsame Hfound]].
  unfold deleteCommentRoute, respond, bind, ret.
  destruct (deleteComment id u w) as [[b|e] w1]; cbn [fst snd] in *;
    [|discriminate].
  injection Hr as ->. split; intros Hex; rewrite Hex.
  - cbn. auto.
  - cbn. split; [reflexivity|].
    destruct (find (comment_hit id u) (comments (db w))) as [c|] eqn:Ec.
    + rewrite (Hfound c eq_refl). unfold bump_db.
      destruct (truthy (Comment.projectId c));
        [destruct (Comment.projectId c)|
         destruct (truthy (Comment.postId c)); [destruct (Comment.postId c)|]];
        reflexivity.
    + exfalso. apply existsb_exists in Hex as [x [Hx Hh]].
      now apply (find_none _ _ Ec) in Hx; congruence.
Qed.

Lemma deleteCommentRoute_answers_witness :
  fst (deleteCommentRoute "c-1" "u-alice"
         (Scenario.world Scenario.commented_db []))
  = Message 404 "Comment not found" /\
  fst (deleteCommentRoute "c-1" "u-bob"
         (Scenario.world Scenario.commented_db []))
  = Message 200 "Comment deleted successfully".
Proof.
  split.
  - apply (proj1 (deleteCommentRoute_answers
                    (Scenario.world Scenario.commented_db []) "c-1" "u-alice"
                    eq_refl)). reflexivity.
  - apply (proj2 (deleteCommentRoute_answers
                    (Scenario.world Scenario.commented_db []) "c-1" "u-bob"
                    eq_refl)). reflexivity.
Defined.

(** ** A comment created and deleted again *)

Lemma createComment_served (w : World) (c : InsertComment.t) :
  faults w = [] -> comment_accepted w c = true ->
  let row :=
    Comment.mk (entropy w (drawn w)) (InsertComment.content c)
               (InsertComment.projectId c) (InsertComment.postId c)
               (InsertComment.userId c) (S (clock w)) (S (clock w)) in
  fst (createComment c w) = Ok row /\
  faults (snd (createComment c w)) = [] /\
  db (snd (createComment c w))
  = bump_db (InsertComment.projectId c) (InsertComment.postId c) 1
      (set_comments (comments (db w) ++ [row]) (db w)).
Proof.
  intros Hf Hacc. cbv zeta. unfold comment_accepted in Hacc.
  apply andb_prop in Hacc as [Hacc Hu]. apply andb_prop in Hacc as [Hacc Hq].
  apply andb_prop in Hacc as [Hid Hp].
  rewrite createComment_bumps.
  assert (E : insertComment c w
              = (Ok (Comment.mk (entropy w (drawn w)) (InsertComment.content c)
                       (InsertComment.projectId c) (InsertComment.postId c)
                       (InsertComment.userId c) (S (clock w)) (S (clock w))),
                 mkWorld
                   (set_comments
                      (comments (db w)
                       ++ [Comment.mk (entropy w (drawn w))
                             (InsertComment.content c)
                             (InsertComment.projectId c) (InsertComment.postId c)
                             (InsertComment.userId c) (S (clock w)) (S (clock w))])
                      (db w))
                   [] (entropy w) (S (drawn w)) (S (clock w)))).
  { unfold_tasks. rewrite Hf. cbn [fst snd db faults entropy drawn clock].
    rewrite Hid, Hp, Hq, Hu. reflexivity. }
  rewrite (@bind_ok _ _ _ _ _ _ _ E).
  match goal with |- context [bind (bumpParent ?pp ?qq ?dl) ?k ?w1] =>
    destruct (@bumpParent_effect w1 pp qq dl eq_refl) as [w2 [E2 [Hf2 Hdb2]]]
  end.
  rewrite (@bind_ok _ _ _ _ _ _ _ E2). unfold ret. cbn [fst snd].
  now rewrite Hdb2.
Qed.

Lemma project_comment_bump_back (id : Id) (ps : list Project.t) :
  map (where_id Project.id id (Project.add_commentCount (-1)))
      (map (where_id Project.id id (Project.add_commentCount 1)) ps) = ps.
Proof.
  rewrite map_map. rewrite <- (map_id ps) at 2. apply map_ext. intros p.
  destruct p as [id0 ? ? ? ? ? ? ? ? ? ? ? ? ? ? ? ?].
  unfold where_id, eqId, Project.add_commentCount, Project.with_counts. cbn.
  destruct (String.eqb id0 id) eqn:E; cbn; rewrite E; [|reflexivity].
  f_equal. lia.
Qed.

Lemma post_comment_bump_back (id : Id) (qs : list CommunityPost.t) :
  map (where_id CommunityPost.id id (CommunityPost.add_commentCount (-1)))
      (map (where_id CommunityPost.id id (CommunityPost.add_commentCount 1)) qs)
  = qs.
Proof.
  rewrite map_map. rewrite <- (map_id qs) at 2. apply map_ext. intros q.
  destruct q as [id0 ? ? ? ? ? ? ? ? ?].
  unfold where_id, eqId, CommunityPost.add_commentCount,
    CommunityPost.with_counts. cbn.
  destruct (String.eqb id0 id) eqn:E; cbn; rewrite E; [|reflexivity].
  f_equal. lia.
Qed.

Lemma fresh_comment_not_hit (cs : list Comment.t) (id u : Id) :
  fresh_in Comment.id cs id = true -> rowCount (comment_hit id u) cs = 0.
Proof.
  unfold fresh_in. intros H. apply negb_true_iff in H.
  apply rowCount_none. intros x Hx. unfold comment_hit.
  destruct (eqId (Comment.id x) id) eqn:E; [|reflexivity].
  exfalso. assert (existsb (fun r => eqId (Comment.id r) id) cs = true)
    by (apply existsb_exists; eauto). congruence.
Qed.

(** X11.  With the store serving, a comment the store accepts, deleted
    again by its author under the id [createComment] returned, restores
    the database exactly: the comment row is gone and the parent's
    [commentCount] is back where it was. *)
Theorem createComment_then_deleteComment_restores :
  forall (w : World) (comment : InsertComment.t),
    faults w = [] ->
    comment_accepted w comment = true ->
    let created := createComment comment w in
    let removed :=
      deleteComment (entropy w (drawn w)) (InsertComment.userId comment)
                    (snd created) in
    (exists row, fst created = Ok row /\ Comment.id row = entropy w (drawn w)) /\
    fst removed = Ok true /\
    db (snd removed) = db w.
Proof.
  intros w c Hf Hacc. cbv zeta.
  destruct (createComment_served w c Hf Hacc) as [Hr [Hf1 Hdb1]].
  cbv zeta in *. split; [eexists; split; [exact Hr | reflexivity]|].
  remember (snd (createComment c w)) as w1 eqn:Ew1. clear Ew1.
  assert (Hfresh : fresh_in Comment.id (comments (db w)) (entropy w (drawn w)) = true).
  { unfold comment_accepted in Hacc.
    now repeat (apply andb_prop in Hacc as [Hacc _]). }
  pose proof (fresh_comment_not_hit _ _ (InsertComment.userId c) Hfresh) as H0.
  set (row := Comment.mk (entropy w (drawn w)) (InsertComment.content c)
                (InsertComment.projectId c) (InsertComment.postId c)
                (InsertComment.userId c) (S (clock w)) (S (clock w))) in *.
  assert (Hhit : comment_hit (entropy w (drawn w)) (InsertComment.userId c) row
                 = true) by (unfold comment_hit; cbn; now rewrite !eqId_refl).
  destruct (@filter_out_appended _ _ (comments (db w)) row H0 Hhit) as [Hfl _].
  assert (Hcs : comments (db w1) = comments (db w) ++ [row]).
  { rewrite Hdb1. unfold bump_db.
    destruct (truthy (InsertComment.projectId c));
      [destruct (InsertComment.projectId c)|
       destruct (truthy (InsertComment.postId c));
       [destruct (InsertComment.postId c)|]]; reflexivity. }
  assert (Hfind : find (comment_hit (entropy w (drawn w)) (InsertComment.userId c))
                       (comments (db w1)) = Some row).
  { rewrite find_filter, Hcs, filter_app. cbn. rewrite Hhit.
    unfold rowCount in H0. apply length_zero_iff_nil in H0. now rewrite H0. }
  destruct (deleteComment_served w1 (entropy w (drawn w))
              (InsertComment.userId c) Hf1) as [Hres [_ Hdel]].
  split.
  - rewrite Hres. f_equal. apply existsb_exists. exists row. split; [|exact Hhit].
    rewrite Hcs. apply in_or_app. right. now left.
  - rewrite (Hdel row Hfind), Hcs, Hfl, Hdb1. subst row. cbn [Comment.projectId Comment.postId].
    unfold bump_db.
    destruct (truthy (InsertComment.projectId c)).
    + destruct (InsertComment.projectId c) as [p|]; db_simpl.
      * unfold set_comments, set_projects. cbn.
        rewrite project_comment_bump_back. apply db_eta.
      * unfold set_comments. cbn. apply db_eta.
    + destruct (truthy (InsertComment.postId c)).
      * destruct (InsertComment.postId c) as [q|]; db_simpl.
        -- unfold set_comments, set_communityPosts. cbn.
           rewrite post_comment_bump_back. apply db_eta.
        -- unfold set_comments. cbn. apply db_eta.
      * unfold set_comments. cbn. apply db_eta.
Qed.

Lemma createComment_then_deleteComment_restores_witness :
  let c := InsertComment.mk "hi" (Some "p-1") None "u-bob" in
  let w := Scenario.world Scenario.commented_db [] in
  db (snd (deleteComment "k-0" "u-bob" (snd (createComment c w))))
  = Scenario.commented_db.
Proof.
  cbv zeta.
  destruct (createComment_then_deleteComment_restores
              (Scenario.world Scenario.commented_db [])
              (InsertComment.mk "hi" (Some "p-1") None "u-bob")
              eq_refl eq_refl) as [_ [_ H]].
  exact H.
Defined.

(** ** Deleting a project or a post *)

Lemma deleteCommunityPost_served (w : World) (id u : Id) :
  faults w = [] ->
  let k := rowCount (post_owned id u) (communityPosts (db w)) in
  fst (deleteCommunityPost id u w) = Ok (0 <? k)%nat /\
  faults (snd (deleteCommunityPost id u w)) = [] /\
  db (snd (deleteCommunityPost id u w))
  = (if (0 <? k)%nat then
       set_communityPosts
         (filter (fun q => negb (post_owned id u q)) (communityPosts (db w)))
         (set_postLikes
            (filter (fun r => negb (postLike_of id r)) (postLikes (db w)))
            (set_comments
               (filter (fun r => negb (comment_of_post id r)) (comments (db w)))
               (db w)))
     else db w).
Proof.
  intros Hf. cbv zeta. unfold deleteCommunityPost, deleteCommunityPosts.
  unfold_tasks. rewrite Hf. cbn. auto.
Qed.

Lemma deleteProject_served (w : World) (id u : Id) :
  faults w = [] ->
  let k := rowCount (project_owned id u) (projects (db w)) in
  fst (deleteProject id u w) = Ok (0 <? k)%nat /\
  faults (snd (deleteProject id u w)) = [] /\
  db (snd (deleteProject id u w))
  = (if (0 <? k)%nat then
       set_projects
         (filter (fun p => negb (project_owned id u p)) (projects (db w)))
         (set_projectLikes
            (filter (fun r => negb (like_of id r)) (projectLikes (db w)))
            (set_projectBookmarks
               (filter (fun r => negb (bookmark_of id r)) (projectBookmarks (db w)))
               (set_comments
                  (filter (fun r => negb (comment_of_project id r))
                          (comments (db w)))
                  (db w))))
     else db w).
Proof.
  intros Hf. cbv zeta. unfold deleteProject, deleteProjects.
  unfold_tasks. rewrite Hf. cbn. auto.
Qed.

Lemma rowCount_filter_negb {A} (f : A -> bool) (l : list A) :
  rowCount f (filter (fun r => negb (f r)) l) = 0.
Proof. unfold rowCount. now rewrite filter_negb_none. Qed.

(** X12.  [deleteCommunityPost], the store serving: when no post has
    this id and this owner it answers false and changes nothing; when
    one has, it answers true, the owner's row is gone and no like or
    comment row references the id any more.  The projects table is
    never touched, also when a deleted comment was attached to a project
    as well, whose [commentCount] therefore stays as it was. *)
Theorem deleteCommunityPost_cascades :
  forall (w : World) (id userId : Id),
    faults w = [] ->
    let k := rowCount (post_owned id userId) (communityPosts (db w)) in
    let out := deleteCommunityPost id userId w in
    (k = 0 -> fst out = Ok false /\ db (snd out) = db w) /\
    (k <> 0 ->
     fst out = Ok true /\
     rowCount (post_owned id userId) (communityPosts (db (snd out))) = 0 /\
     rowCount (postLike_of id) (postLikes (db (snd out))) = 0 /\
     rowCount (comment_of_post id) (comments (db (snd out))) = 0) /\
    projects (db (snd out)) = projects (db w) /\
    (forall q, In q (communityPosts (db w)) ->
               CommunityPost.userId q <> userId ->
               In q (communityPosts (db (snd out)))).
Proof.
  intros w id u Hf. cbv zeta.
  destruct (deleteCommunityPost_served w id u Hf) as [Hr [_ Hdb]].
  cbv zeta in *. rewrite Hr, Hdb.
  destruct (rowCount (post_owned id u) (communityPosts (db w))) as [|k] eqn:Hk;
    cbn [Nat.ltb Nat.leb]; db_simpl.
  - split; [auto|]. split; [intros H; now destruct H|]. auto.
  - split; [discriminate|]. split.
    + intros _. split; [reflexivity|].
      now rewrite !rowCount_filter_negb.
    + split; [reflexivity|]. intros q Hin Hu. apply filter_In. split; [exact Hin|].
      unfold post_owned, eqId.
      destruct (String.eqb_spec (CommunityPost.userId q) u);
        [contradiction | now rewrite andb_false_r].
Qed.

Lemma deleteCommunityPost_cascades_witness :
  let out := deleteCommunityPost "q-1" "u-bob"
               (Scenario.world Scenario.commented_db []) in
  fst out = Ok true /\
  comments (db (snd out)) = [] /\
  fst (deleteCommunityPost "q-1" "u-alice"
         (Scenario.world Scenario.commented_db [])) = Ok false.
Proof.
  cbv zeta.
  destruct (deleteCommunityPost_cascades
              (Scenario.world Scenario.commented_db []) "q-1" "u-bob" eq_refl)
    as [_ [H _]].
  destruct (deleteCommunityPost_cascades
              (Scenario.world Scenario.commented_db []) "q-1" "u-alice" eq_refl)
    as [H0 _].
  split; [|split].
  - apply H. vm_compute. discriminate.
  - reflexivity.
  - apply H0. reflexivity.
Defined.

(** X13.  [deleteProject], the store serving: when no project has this
    id and this owner it answers false and changes nothing; when one
    has, it answers true, the owner's row is gone and no like, bookmark
    or comment row references the id any more.  Community posts and
    their likes are never touched, and projects of other owners
    survive. *)
Theorem deleteProject_cascades :
  forall (w : World) (id userId : Id),
    faults w = [] ->
    let k := rowCount (project_owned id userId) (projects (db w)) in
    let out := deleteProject id userId w in
    (k = 0 -> fst out = Ok false /\ db (snd out) = db w) /\
    (k <> 0 ->
     fst out = Ok true /\
     rowCount (project_owned id userId) (projects (db (snd out))) = 0 /\
     rowCount (like_of id) (projectLikes (db (snd out))) = 0 /\
     rowCount (bookmark_of id) (projectBookmarks (db (snd out))) = 0 /\
     rowCount (comment_of_project id) (comments (db (snd out))) = 0) /\
    communityPosts (db (snd out)) = communityPosts (db w) /\
    postLikes (db (snd out)) = postLikes (db w) /\
    (forall p, In p (projects (db w)) -> Project.userId p <> userId ->
               In p (projects (db (snd out)))).
Proof.
  intros w id u Hf. cbv zeta.
  destruct (deleteProject_served w id u Hf) as [Hr [_ Hdb]].
  cbv zeta in *. rewrite Hr, Hdb.
  destruct (rowCount (project_owned id u) (projects (db w))) as [|k] eqn:Hk;
    cbn [Nat.ltb Nat.leb]; db_simpl.
  - split; [auto|]. split; [intros H; now destruct H|]. auto.
  - split; [discriminate|]. split.
    + intros _. split; [reflexivity|].
      now rewrite !rowCount_filter_negb.
    + split; [reflexivity|]. split; [reflexivity|].
      intros p Hin Hu. apply filter_In. split; [exact Hin|].
      unfold project_owned, eqId.
      destruct (String.eqb_spec (Project.userId p) u);
        [contradiction | now rewrite andb_false_r].
Qed.

Lemma deleteProject_cascades_witness :
  let out := deleteProject "p-1" "u-alice"
               (Scenario.world Scenario.liked_db []) in
  fst out = Ok true /\
  projectLikes (db (snd out)) = [] /\
  fst (deleteProject "p-1" "u-bob" (Scenario.world Scenario.liked_db []))
  = Ok false.
Proof.
  cbv zeta.
  destruct (deleteProject_cascades
              (Scenario.world Scenario.liked_db []) "p-1" "u-alice" eq_refl)
    as [_ [H _]].
  destruct (deleteProject_cascades
              (Scenario.world Scenario.liked_db []) "p-1" "u-bob" eq_refl)
    as [H0 _].
  split; [|split].
  - apply H. vm_compute. discriminate.
  - reflexivity.
  - apply H0. reflexivity.
Defined.

(** ** Histories that also delete *)

Lemma has_filter_other {A} (id_of : A -> Id) (h : A -> bool) (l : list A)
  (x : Id) :
  (forall r, h r = true -> eqId (id_of r) x = false) ->
  existsb (fun r => eqId (id_of r) x) (filter (fun r => negb (h r)) l)
  = existsb (fun r => eqId (id_of r) x) l.
Proof.
  intros H. induction l as [|a l IH]; cbn; [reflexivity|].
  destruct (h a) eqn:Eh; cbn.
  - now rewrite (H a Eh), IH.
  - now rewrite IH.
Qed.

Lemma owned_other {A} (id_of owner_of : A -> Id) (id u x : Id) (r : A) :
  eqId x id = false ->
  eqId (id_of r) id && eqId (owner_of r) u = true ->
  eqId (id_of r) x = false.
Proof.
  unfold eqId. intros Hx H. apply andb_true_iff in H as [H _].
  apply String.eqb_eq in H. rewrite H.
  destruct (String.eqb_spec id x) as [->|]; [|reflexivity].
  now rewrite String.eqb_refl in Hx.
Qed.

Lemma deleteCommunityPost_covered (w : World) (id u : Id) :
  faults w = [] -> covered (db w) ->
  covered (db (snd (deleteCommunityPost id u w))) /\
  faults (snd (deleteCommunityPost id u w)) = [].
Proof.
  intros Hf Hc. destruct (deleteCommunityPost_served w id u Hf) as [_ [Hf' Hdb]].
  cbv zeta in Hdb. split; [|exact Hf']. rewrite Hdb.
  destruct (0 <? _)%nat; [|exact Hc].
  destruct Hc as [Hv Hl Hcm Hql Hqc Rl Rql Rc].
  constructor; db_simpl; auto.
  - intros p Hin. specialize (Hcm p Hin). unfold counted in *.
    pose proof (rowCount_filter_le (charged_to_project (Project.id p))
                  (fun r => negb (comment_of_post id r)) (comments (db w))).
    lia.
  - intros q Hin. apply filter_In in Hin as [Hin _]. specialize (Hql q Hin).
    unfold counted in *.
    pose proof (rowCount_filter_le (postLike_of (CommunityPost.id q))
                  (fun r => negb (postLike_of id r)) (postLikes (db w))).
    lia.
  - intros q Hin. apply filter_In in Hin as [Hin _]. specialize (Hqc q Hin).
    unfold counted in *.
    pose proof (rowCount_filter_le (charged_to_post (CommunityPost.id q))
                  (fun r => negb (comment_of_post id r)) (comments (db w))).
    lia.
  - intros l Hin. apply filter_In in Hin as [Hin Hne].
    apply negb_true_iff in Hne. unfold postLike_of in Hne.
    rewrite (has_filter_other CommunityPost.id (post_owned id u)).
    + now apply Rql.
    + intros r Hr. eapply owned_other; [exact Hne | exact Hr].
  - intros c Hin. apply filter_In in Hin as [Hin Hne].
    apply negb_true_iff in Hne. unfold comment_of_post in Hne.
    destruct (Rc c Hin) as [R1 R2]. split; [exact R1|].
    destruct (Comment.postId c) as [x|]; cbn in *; [|reflexivity].
    rewrite (has_filter_other CommunityPost.id (post_owned id u)).
    + exact R2.
    + intros r Hr. eapply owned_other; [exact Hne | exact Hr].
Qed.

Lemma deleteProject_covered (w : World) (id u : Id) :
  faults w = [] -> covered (db w) ->
  covered (db (snd (deleteProject id u w))) /\
  faults (snd (deleteProject id u w)) = [].
Proof.
  intros Hf Hc. destruct (deleteProject_served w id u Hf) as [_ [Hf' Hdb]].
  cbv zeta in Hdb. split; [|exact Hf']. rewrite Hdb.
  destruct (0 <? _)%nat; [|exact Hc].
  destruct Hc as [Hv Hl Hcm Hql Hqc Rl Rql Rc].
  constructor; db_simpl; auto.
  - intros p Hin. apply filter_In in Hin as [Hin _]. now apply Hv.
  - intros p Hin. apply filter_In in Hin as [Hin _]. specialize (Hl p Hin).
    unfold counted in *.
    pose proof (rowCount_filter_le (like_of (Project.id p))
                  (fun r => negb (like_of id r)) (projectLikes (db w))).
    lia.
  - intros p Hin. apply filter_In in Hin as [Hin _]. specialize (Hcm p Hin).
    unfold counted in *.
    pose proof (rowCount_filter_le (charged_to_project (Project.id p))
                  (fun r => negb (comment_of_project id r)) (comments (db w))).
    lia.
  - intros q Hin. specialize (Hqc q Hin). unfold counted in *.
    pose proof (rowCount_filter_le (charged_to_post (CommunityPost.id q))
                  (fun r => negb (comment_of_project id r)) (comments (db w))).
    lia.
  - intros l Hin. apply filter_In in Hin as [Hin Hne].
    apply negb_true_iff in Hne. unfold like_of in Hne.
    rewrite (has_filter_other Project.id (project_owned id u)).
    + now apply Rl.
    + intros r Hr. eapply owned_other; [exact Hne | exact Hr].
  - intros c Hin. apply filter_In in Hin as [Hin Hne].
    apply negb_true_iff in Hne. unfold comment_of_project in Hne.
    destruct (Rc c Hin) as [R1 R2]. split; [|exact R2].
    destruct (Comment.projectId c) as [x|]; cbn in *; [|reflexivity].
    rewrite (has_filter_other Project.id (project_owned id u)).
    + exact R1.
    + intros r Hr. eapply owned_other; [exact Hne | exact Hr].
Qed.

Lemma serve_covered (r : Request) (w : World) :
  faults w = [] -> covered (db w) ->
  covered (db (serve r w)) /\ faults (serve r w) = [].
Proof.
  intros Hf Hc. destruct r; cbn [serve].
  - now apply perform_covered.
  - now apply deleteProject_covered.
  - now apply deleteCommunityPost_covered.
Qed.

Lemma serve_all_covered (rs : list Request) :
  forall w, faults w = [] -> covered (db w) -> covered (db (serve_all rs w)).
Proof.
  induction rs as [|r rs IH]; intros w Hf Hc; [exact Hc|].
  unfold serve_all. cbn [fold_left].
  destruct (serve_covered r w Hf Hc) as [Hc' Hf']. now apply IH.
Qed.

(** X14.  Deleting projects and posts does not break the counters
    either: from freshly created entities, after any history of storage
    operations mixed with [deleteProject] and [deleteCommunityPost]
    calls whose statements the store all serves, every cached counter
    is at least 0, and every like and comment row still references a
    project or post that exists. *)
Theorem counters_nonneg_with_deletes :
  forall (rs : list Request) (w : World),
    faults w = [] -> fresh (db w) ->
    let d := db (serve_all rs w) in
    nonneg d /\
    (forall l, In l (projectLikes d) ->
               has_project d (ProjectLike.projectId l) = true) /\
    (forall l, In l (postLikes d) -> has_post d (PostLike.postId l) = true) /\
    (forall c, In c (comments d) ->
               ref_ok (has_project d) (Comment.projectId c) = true /\
               ref_ok (has_post d) (Comment.postId c) = true).
Proof.
  intros rs w Hf Hfr. cbv zeta.
  pose proof (serve_all_covered rs w Hf (fresh_covered Hfr)) as Hc.
  split; [now apply covered_nonneg|].
  destruct Hc as [_ _ _ _ _ Rl Rql Rc]. auto.
Qed.

Lemma counters_nonneg_with_deletes_witness :
  nonneg
    (db (serve_all
           [Storage (LikeProject "p-1" "u-bob");
            Storage (CreateComment
                       (InsertComment.mk "hi" (Some "p-1") (Some "q-1") "u-bob"));
            DeleteCommunityPost "q-1" "u-bob";
            DeleteProject "p-1" "u-alice"]
           (Scenario.world Scenario.fresh_db []))).
Proof.
  apply (counters_nonneg_with_deletes
           [Storage (LikeProject "p-1" "u-bob");
            Storage (CreateComment
                       (InsertComment.mk "hi" (Some "p-1") (Some "q-1") "u-bob"));
            DeleteCommunityPost "q-1" "u-bob";
            DeleteProject "p-1" "u-alice"]
           (Scenario.world Scenario.fresh_db []) eq_refl).
  apply fresh_scenario.
Defined.

(** ** More on the sync job *)

Lemma static_where_project (id : Id) (v l c : Z) (t : option Timestamp)
  (ps : list Project.t) :
  map project_static
      (map (where_id Project.id id (Project.with_counts v l c t)) ps)
  = map project_static ps.
Proof.
  rewrite map_map. apply map_ext. intros p. unfold where_id.
  now destruct (eqId _ _).
Qed.

Lemma static_where_post (id : Id) (l c : Z) (t : option Timestamp)
  (qs : list CommunityPost.t) :
  map post_static
      (map (where_id CommunityPost.id id (CommunityPost.with_counts l c t)) qs)
  = map post_static qs.
Proof.
  rewrite map_map. apply map_ext. intros q. unfold where_id.
  now destruct (eqId _ _).
Qed.

Lemma recountProject_static (w : World) (projectId : Id) :
  map project_static (projects (db (snd (recountProject projectId w))))
  = map project_static (projects (db w)).
Proof.
  pose proof (recountProject_run w projectId) as [_ [_ H]]. cbv zeta in H.
  destruct (fst (recountProject projectId w)).
  - rewrite H. apply static_where_project.
  - destruct H as [_ ->]. reflexivity.
Qed.

Lemma recountPost_static (w : World) (postId : Id) :
  map post_static (communityPosts (db (snd (recountPost postId w))))
  = map post_static (communityPosts (db w)).
Proof.
  pose proof (recountPost_run w postId) as [_ [_ H]]. cbv zeta in H.
  destruct (fst (recountPost postId w)).
  - rewrite H. apply static_where_post.
  - destruct H as [_ ->]. reflexivity.
Qed.

Lemma syncProjectsLoop_static (ids : list Id) :
  forall (n : nat) (w : World),
    map project_static (projects (db (snd (syncProjectsLoop ids n w))))
    = map project_static (projects (db w)).
Proof.
  induction ids as [|id ids IH]; intros n w; [reflexivity|].
  cbn [syncProjectsLoop]. pose proof (recountProject_static w id) as H.
  destruct (recountProject id w) as [[u|e] w1] eqn:E.
  - rewrite (@bind_ok _ _ _ _ _ _ _ E). now rewrite IH.
  - now rewrite (@bind_throw _ _ _ _ _ _ _ E).
Qed.

Lemma syncPostsLoop_static (ids : list Id) :
  forall (n : nat) (w : World),
    map post_static (communityPosts (db (snd (syncPostsLoop ids n w))))
    = map post_static (communityPosts (db w)).
Proof.
  induction ids as [|id ids IH]; intros n w; [reflexivity|].
  cbn [syncPostsLoop]. pose proof (recountPost_static w id) as H.
  destruct (recountPost id w) as [[u|e] w1] eqn:E.
  - rewrite (@bind_ok _ _ _ _ _ _ _ E). now rewrite IH.
  - now rewrite (@bind_throw _ _ _ _ _ _ _ E).
Qed.

Lemma syncProjectCounts_static (w : World) :
  map project_static (projects (db (snd (syncProjectCounts w))))
  = map project_static (projects (db w)).
Proof.
  unfold syncProjectCounts. rewrite try_rethrow.
  destruct (selectProjectIds_run w) as [w0 [Hdb [E|E]]].
  - rewrite (@bind_ok _ _ _ _ _ _ _ E). now rewrite syncProjectsLoop_static, Hdb.
  - rewrite (@bind_throw _ _ _ _ _ _ _ E). cbn [snd]. now rewrite Hdb.
Qed.

Lemma syncCommunityPostCounts_static (w : World) :
  map post_static (communityPosts (db (snd (syncCommunityPostCounts w))))
  = map post_static (communityPosts (db w)).
Proof.
  unfold syncCommunityPostCounts. rewrite try_rethrow.
  destruct (selectCommunityPostIds_run w) as [w0 [Hdb [E|E]]].
  - rewrite (@bind_ok _ _ _ _ _ _ _ E). now rewrite syncPostsLoop_static, Hdb.
  - rewrite (@bind_throw _ _ _ _ _ _ _ E). cbn [snd]. now rewrite Hdb.
Qed.

Lemma syncAllCounts_frame (w : World) :
  rows_of (db (snd (syncAllCounts w))) = rows_of (db w) /\
  map project_static (projects (db (snd (syncAllCounts w))))
  = map project_static (projects (db w)) /\
  map post_static (communityPosts (db (snd (syncAllCounts w))))
  = map post_static (communityPosts (db w)).
Proof.
  unfold syncAllCounts.
  pose proof (syncProjectCounts_run w) as [Hrows1 [Hposts1 _]].
  pose proof (syncProjectCounts_static w) as Hst1. cbv zeta in *.
  destruct (syncProjectCounts w) as [[m|e] w1]; cbn [fst snd] in *.
  2:{ now rewrite Hrows1, Hst1, Hposts1. }
  pose proof (syncCommunityPostCounts_run w1) as [Hrows2 [Hprojects2 _]].
  pose proof (syncCommunityPostCounts_static w1) as Hst2. cbv zeta in *.
  destruct (syncCommunityPostCounts w1) as [[k|e] w2]; cbn [fst snd] in *;
    now rewrite Hrows2, Hprojects2, Hst2, Hrows1, Hst1, Hposts1.
Qed.

Lemma all_in_sync_nonneg (d : DB) : all_in_sync d -> nonneg d.
Proof.
  intros [Hp Hq]. split.
  - intros p Hin. destruct (Hp p Hin) as [-> [-> ->]]. unfold counted. lia.
  - intros q Hin. destruct (Hq q Hin) as [-> ->]. unfold counted. lia.
Qed.

(** X15.  A complete batch repairs any drift.  When the store serves
    every statement, [syncAllCounts] reports every project and every
    post as updated and no error; afterwards every cached counter
    equals the number of rows it stands for, whatever the cache held
    before (negative values included), and is therefore at least 0. *)
Theorem syncAllCounts_repairs_any_drift :
  forall (w : World),
    faults w = [] ->
    let out := syncAllCounts w in
    fst out = Ok (mkResult (length (projects (db w)))
                           (length (communityPosts (db w))) []) /\
    all_in_sync (db (snd out)) /\
    nonneg (db (snd out)) /\
    rows_of (db (snd out)) = rows_of (db w).
Proof.
  intros w Hf. cbv zeta.
  pose proof (@syncAllCounts_quiet w Hf) as Hr.
  pose proof (@syncAllCounts_completes w _ Hr eq_refl) as Hs.
  split; [exact Hr|]. split; [exact Hs|].
  split; [now apply all_in_sync_nonneg | apply syncAllCounts_frame].
Qed.

Lemma syncAllCounts_repairs_any_drift_witness :
  let out := syncAllCounts (Scenario.world Scenario.drifted_db []) in
  fst out = Ok (mkResult 2 1 []) /\ all_in_sync (db (snd out)).
Proof.
  cbv zeta.
  destruct (syncAllCounts_repairs_any_drift
              (Scenario.world Scenario.drifted_db []) eq_refl) as [H [Hs _]].
  split; [exact H | exact Hs].
Defined.


(** X17.  No rollback between the two halves.  When the store serves
    the whole project half and refuses a statement of the post half,
    [syncAllCounts] reports every project as updated, no post, and the
    one failure; the projects stay in sync although the run failed. *)
Theorem syncAllCounts_keeps_the_project_half :
  forall (w : World) (n : nat) (fs : list bool),
    faults w = repeat false n ++ true :: fs ->
    1 + 4 * length (projects (db w)) <= n ->
    n < statements (db w) ->
    let out := syncAllCounts w in
    fst out = Ok (mkResult (length (projects (db w))) 0
                           [batch_failed store_unavailable]) /\
    (forall p, In p (projects (db (snd out))) ->
               project_in_sync (db (snd out)) p).
Proof.
  intros w n fs Hf Hlo Hhi. cbv zeta. unfold statements in Hhi.
  replace n with (1 + 4 * length (projects (db w))
                  + (n - (1 + 4 * length (projects (db w))))) in Hf by lia.
  destruct (@syncProjectCounts_passes w _ _ Hf) as [w1 [E1 Hf1]].
  pose proof (syncProjectCounts_run w) as [_ [Hposts [Hsync _]]].
  cbv zeta in *. rewrite E1 in *. cbn [fst snd] in *.
  assert (Hn : n - (1 + 4 * length (projects (db w)))
               < 1 + 3 * length (communityPosts (db w1)))
    by (rewrite Hposts; lia).
  destruct (@syncCommunityPostCounts_fails w1 _ _ Hn Hf1) as [w2 [E2 _]].
  pose proof (syncCommunityPostCounts_run w1) as [Hrows [Hprojects _]].
  cbv zeta in *. unfold syncAllCounts. rewrite E1. rewrite E2 in *.
  cbn [fst snd] in *. split; [reflexivity|].
  intros p Hin. rewrite Hprojects in Hin.
  apply (project_in_sync_rows (d := db w1)); eauto.
Qed.

Lemma syncAllCounts_keeps_the_project_half_witness :
  let out := syncAllCounts
               (Scenario.world Scenario.drifted_db
                  (repeat false 10 ++ [true])) in
  fst out = Ok (mkResult 2 0 ["Batch sync failed: store unavailable"]) /\
  map project_entry (projects (db (snd out)))
  = [("p-1", 0, 1, 0); ("p-2", 0, 2, 0)]%Z /\
  map post_entry (communityPosts (db (snd out))) = [("q-1", 0, 0)]%Z.
Proof.
  cbv zeta.
  destruct (@syncAllCounts_keeps_the_project_half
              (Scenario.world Scenario.drifted_db (repeat false 10 ++ [true]))
              10 [] eq_refl) as [H _].
  - vm_compute. lia.
  - vm_compute. lia.
  - split; [exact H|]. split; reflexivity.
Defined.

Lemma where_id_missing {A} (id_of : A -> Id) (id : Id) (g : A -> A)
  (l : list A) :
  existsb (fun r => eqId (id_of r) id) l = false ->
  map (where_id id_of id g) l = l.
Proof.
  induction l as [|a l IH]; cbn; [reflexivity|]. intros H.
  apply orb_false_iff in H as [Ha Hl]. unfold where_id at 1.
  now rewrite Ha, IH.
Qed.

Lemma db_ext (d d' : DB) :
  rows_of d' = rows_of d -> projects d' = projects d ->
  communityPosts d' = communityPosts d -> d' = d.
Proof.
  destruct d, d'. unfold rows_of. cbn. intros H -> ->.
  injection H as -> -> -> -> -> ->. reflexivity.
Qed.

(** X18.  The single-entity syncs do not look the entity up first: for
    an id that no project (no post) carries they still resolve when the
    store serves, and whatever the store does they leave the whole
    database as it was. *)
Theorem syncSingle_missing_id_changes_nothing :
  forall (w : World) (target : Id),
    (has_project (db w) target = false ->
     let out := syncSingleProjectCounts target w in
     (faults w = [] -> fst out = Ok tt) /\ db (snd out) = db w) /\
    (has_post (db w) target = false ->
     let out := syncSinglePostCounts target w in
     (faults w = [] -> fst out = Ok tt) /\ db (snd out) = db w).
Proof.
  intros w target. split; intros Hno; cbv zeta.
  - unfold syncSingleProjectCounts. rewrite try_rethrow.
    split; [apply recountProject_served|].
    pose proof (recountProject_run w target) as [Hrows [Hposts H]].
    cbv zeta in *.
    destruct (fst (recountProject target w)); [|now destruct H].
    apply db_ext; auto. rewrite H. now apply where_id_missing.
  - unfold syncSinglePostCounts. rewrite try_rethrow.
    split; [apply recountPost_served|].
    pose proof (recountPost_run w target) as [Hrows [Hprojects H]].
    cbv zeta in *.
    destruct (fst (recountPost target w)); [|now destruct H].
    apply db_ext; auto. rewrite H. now apply where_id_missing.
Qed.

Lemma syncSingle_missing_id_changes_nothing_witness :
  fst (syncSingleProjectCounts "p-9" (Scenario.world Scenario.drifted_db []))
  = Ok tt /\
  db (snd (syncSingleProjectCounts "p-9"
             (Scenario.world Scenario.drifted_db [])))
  = Scenario.drifted_db.
Proof.
  destruct (syncSingle_missing_id_changes_nothing
              (Scenario.world Scenario.drifted_db []) "p-9") as [H _].
  destruct (H eq_refl) as [Hr Hd]. split; [now apply Hr | exact Hd].
Defined.

Lemma runSync_exits_0 (w : World) :
  fst (runSync w) = 0 /\ snd (runSync w) = snd (syncAllCounts w).
Proof.
  unfold runSync. destruct (syncAllCounts_returns w) as [r Hr].
  destruct (syncAllCounts w) as [[r'|e] w']; cbn in *; [auto | discriminate].
Qed.

Lemma syncAllCounts_records_the_refusal (w : World) (n : nat) (fs : list bool) :
  faults w = repeat false n ++ true :: fs -> n < statements (db w) ->
  exists updated,
    fst (syncAllCounts w)
    = Ok (mkResult updated 0 [batch_failed store_unavailable]).
Proof.
  intros Hf Hn. unfold statements in Hn.
  pose proof (syncProjectCounts_run w) as [_ [Hposts _]]. cbv zeta in Hposts.
  unfold syncAllCounts.
  destruct (Nat.lt_ge_cases n (1 + 4 * length (projects (db w)))) as [Hlt|Hge].
  - destruct (@syncProjectCounts_fails w n fs Hlt Hf) as [w1 [E1 _]].
    rewrite E1. cbn [fst]. now exists 0.
  - replace n with (1 + 4 * length (projects (db w))
                    + (n - (1 + 4 * length (projects (db w))))) in Hf by lia.
    destruct (@syncProjectCounts_passes w _ _ Hf) as [w1 [E1 Hf1]].
    rewrite E1 in *. cbn [fst snd] in *.
    destruct (@syncCommunityPostCounts_fails w1
                (n - (1 + 4 * length (projects (db w)))) fs) as [w2 [E2 _]];
      [rewrite Hposts; lia | exact Hf1 |].
    rewrite E2. cbn [fst]. eexists. reflexivity.
Qed.

(** X19.  The exit code of the sync script does not report a failed
    batch.  With [DATABASE_URL] unset or empty the module [db] throws
    while the modules load and the script exits with 1 before
    [runSync] is entered, no statement being sent.  Otherwise [runSync]
    is entered and, whichever statements the store refuses, the script
    exits with 0: [syncAllCounts] catches the refusal and resolves with
    it in [errors], so the [catch] of [runSync] is not reached that
    way. *)
Theorem syncCounts_exit_code_ignores_the_batch :
  forall (DATABASE_URL : option string) (w : World),
    let out := syncCountsScript DATABASE_URL w in
    (truthy DATABASE_URL = false -> out = (1, w)) /\
    (truthy DATABASE_URL = true ->
     fst out = 0 /\ snd out = snd (syncAllCounts w) /\
     forall (n : nat) (fs : list bool),
       faults w = repeat false n ++ true :: fs -> n < statements (db w) ->
       exists updated,
         fst (syncAllCounts w)
         = Ok (mkResult updated 0 [batch_failed store_unavailable])).
Proof.
  intros url w. cbv zeta. unfold syncCountsScript. split; intros Hurl;
    rewrite Hurl; [reflexivity|].
  destruct (runSync_exits_0 w) as [H0 Hw].
  split; [exact H0|]. split; [exact Hw|].
  intros n fs Hf Hn. now apply (@syncAllCounts_records_the_refusal w n fs).
Qed.

Lemma syncCounts_exit_code_ignores_the_batch_witness :
  let w := Scenario.world Scenario.drifted_db [false; false; true] in
  syncCountsScript None w = (1, w) /\
  syncCountsScript (Some "") w = (1, w) /\
  fst (syncCountsScript (Some "postgres://localhost/sides") w) = 0 /\
  fst (syncAllCounts w)
  = Ok (mkResult 0 0 ["Batch sync failed: store unavailable"]).
Proof.
  cbv zeta.
  destruct (syncCounts_exit_code_ignores_the_batch None
              (Scenario.world Scenario.drifted_db [false; false; true]))
    as [Hnone _].
  destruct (syncCounts_exit_code_ignores_the_batch (Some "")
              (Scenario.world Scenario.drifted_db [false; false; true]))
    as [Hempty _].
  destruct (syncCounts_exit_code_ignores_the_batch
              (Some "postgres://localhost/sides")
              (Scenario.world Scenario.drifted_db [false; false; true]))
    as [_ Hset].
  destruct (Hset eq_refl) as [H0 _].
  split; [now apply Hnone|]. split; [now apply Hempty|].
  split; [exact H0 | reflexivity].
Defined.

(** ** The legacy view counter against the sync job *)

Lemma incrementProjectViews_served (w : World) (id : Id) :
  faults w = [] ->
  faults (snd (incrementProjectViews id w)) = [] /\
  db (snd (incrementProjectViews id w))
  = set_projects
      (map (where_id Project.id id (Project.add_viewCount 1)) (projects (db w)))
      (db w).
Proof.
  intros Hf. unfold incrementProjectViews. unfold_tasks. rewrite Hf. cbn. auto.
Qed.

Lemma map_through {A B C} (f : A -> B) (g : A -> C) (h : B -> C)
  (l1 l2 : list A) :
  map f l1 = map f l2 ->
  (forall x, In x l1 -> g x = h (f x)) ->
  (forall x, In x l2 -> g x = h (f x)) ->
  map g l1 = map g l2.
Proof.
  intros Hm H1 H2.
  rewrite (map_ext_in g (fun x => h (f x)) l1 H1).
  rewrite (map_ext_in g (fun x => h (f x)) l2 H2).
  now rewrite <- (map_map f h l1), <- (map_map f h l2), Hm.
Qed.

(** Counters in sync are a function of the ids and of the rows. *)
Lemma in_sync_counters_determined (d1 d2 : DB) :
  all_in_sync d1 -> all_in_sync d2 ->
  rows_of d1 = rows_of d2 ->
  map Project.id (projects d1) = map Project.id (projects d2) ->
  map CommunityPost.id (communityPosts d1)
  = map CommunityPost.id (communityPosts d2) ->
  counters d1 = counters d2.
Proof.
  intros [Hp1 Hq1] [Hp2 Hq2] Hrows Hpids Hqids. unfold counters. f_equal.
  - apply (map_through Project.id project_entry
             (fun i => (i, counted (view_of i) (projectViews d2),
                        counted (like_of i) (projectLikes d2),
                        counted (comment_of_project i) (comments d2))));
      [exact Hpids| |].
    + intros p Hin.
      destruct (@project_in_sync_rows d1 d2 p (eq_sym Hrows) (Hp1 p Hin))
        as [Hv [Hl Hc]].
      unfold project_entry. now rewrite Hv, Hl, Hc.
    + intros p Hin. destruct (Hp2 p Hin) as [Hv [Hl Hc]].
      unfold project_entry. now rewrite Hv, Hl, Hc.
  - apply (map_through CommunityPost.id post_entry
             (fun i => (i, counted (postLike_of i) (postLikes d2),
                        counted (comment_of_post i) (comments d2))));
      [exact Hqids| |].
    + intros q Hin.
      destruct (@post_in_sync_rows d1 d2 q (eq_sym Hrows) (Hq1 q Hin))
        as [Hl Hc].
      unfold post_entry. now rewrite Hl, Hc.
    + intros q Hin. destruct (Hq2 q Hin) as [Hl Hc].
      unfold post_entry. now rewrite Hl, Hc.
Qed.

Lemma static_ids_projects (ps ps' : list Project.t) :
  map project_static ps = map project_static ps' ->
  map Project.id ps = map Project.id ps'.
Proof.
  intros H.
  assert (E : forall l, map Project.id l
                        = map Project.id (map project_static l))
    by (intros l; rewrite map_map; apply map_ext; reflexivity).
  now rewrite (E ps), (E ps'), H.
Qed.

Lemma static_ids_posts (qs qs' : list CommunityPost.t) :
  map post_static qs = map post_static qs' ->
  map CommunityPost.id qs = map CommunityPost.id qs'.
Proof.
  intros H.
  assert (E : forall l, map CommunityPost.id l
                        = map CommunityPost.id (map post_static l))
    by (intros l; rewrite map_map; apply map_ext; reflexivity).
  now rewrite (E qs), (E qs'), H.
Qed.

(** X20.  [incrementProjectViews] counts a view that leaves no row in
    [projectViews].  On a database in sync, the store serving, the
    project's [viewCount] is afterwards one more than its view rows, and
    the next complete [syncAllCounts] takes the view back: every cached
    counter is again what it was before the increment. *)
Theorem incrementProjectViews_is_undone_by_sync :
  forall (w : World) (id : Id),
    faults w = [] -> all_in_sync (db w) ->
    let w1 := snd (incrementProjectViews id w) in
    (forall p, In p (projects (db w1)) -> Project.id p = id ->
       Project.viewCount p
       = (counted (view_of id) (projectViews (db w1)) + 1)%Z) /\
    counters (db (snd (syncAllCounts w1))) = counters (db w).
Proof.
  intros w id Hf Hs. cbv zeta.
  destruct (incrementProjectViews_served w id Hf) as [Hf1 Hdb].
  split.
  - rewrite Hdb. db_simpl. intros p' Hin Hid.
    apply in_map_iff in Hin as [p [<- Hin]].
    rewrite (where_id_keeps_id Project.id) in Hid by reflexivity.
    unfold where_id, eqId. rewrite Hid, String.eqb_refl. cbn.
    destruct Hs as [Hp _]. destruct (Hp p Hin) as [-> _]. now rewrite Hid.
  - pose proof (@syncAllCounts_quiet _ Hf1) as Hr.
    pose proof (@syncAllCounts_completes _ _ Hr eq_refl) as Hs2.
    destruct (syncAllCounts_frame (snd (incrementProjectViews id w)))
      as [Hrows [Hps Hqs]].
    apply in_sync_counters_determined; [exact Hs2 | exact Hs | | |].
    + rewrite Hrows, Hdb. reflexivity.
    + rewrite (@static_ids_projects _ _ Hps), Hdb. db_simpl.
      rewrite map_map. apply map_ext. intros p.
      now apply where_id_keeps_id.
    + rewrite (@static_ids_posts _ _ Hqs), Hdb. reflexivity.
Qed.

Lemma incrementProjectViews_is_undone_by_sync_witness :
  let w1 := snd (incrementProjectViews "p-1"
                   (Scenario.world Scenario.fresh_db [])) in
  map project_entry (projects (db w1))
  = [("p-1", 1, 0, 0); ("p-2", 0, 0, 0)]%Z /\
  counters (db (snd (syncAllCounts w1))) = counters Scenario.fresh_db.
Proof.
  cbv zeta. split; [reflexivity|].
  refine (proj2 (@incrementProjectViews_is_undone_by_sync
                   (Scenario.world Scenario.fresh_db []) "p-1" eq_refl _)).
  split.
  - intros p [<-|[<-|[]]]; repeat split.
  - intros q [<-|[]]; repeat split.
Defined.

(** ** Operations that keep the cache exact *)

Lemma counted_app {A} (f : A -> bool) (l : list A) (r : A) :
  counted f (l ++ [r]) = (counted f l + (if f r then 1 else 0))%Z.
Proof. unfold counted. rewrite rowCount_app. destruct (f r); lia. Qed.

Lemma rowCount_filter_disjoint {A} (f h : A -> bool) (l : list A) :
  (forall x, h x = true -> f x = false) ->
  rowCount f (filter (fun r => negb (h r)) l) = rowCount f l.
Proof.
  intros H. unfold rowCount. induction l as [|a l IH]; cbn; [reflexivity|].
  destruct (h a) eqn:Eh; cbn.
  - now rewrite (H a Eh).
  - destruct (f a); cbn; now rewrite IH.
Qed.

Lemma hit_other (a b target user : Id) :
  eqId a target && eqId b user = true -> forall x, eqId x target = false ->
  eqId a x = false.
Proof.
  unfold eqId. intros H x Hx. apply andb_true_iff in H as [H _].
  apply String.eqb_eq in H. subst a. now rewrite String.eqb_sym.
Qed.

Lemma likeProject_keeps_sync (w : World) (target user : Id) :
  faults w = [] -> all_in_sync (db w) ->
  all_in_sync (db (snd (likeProject target user w))).
Proof.
  intros Hf Hs. destruct (likeProject_effect w target user Hf) as [_ [->|[_ ->]]];
    [exact Hs|].
  destruct Hs as [Hp Hq]. split; db_simpl.
  - intros p' Hin. apply in_map_iff in Hin as [p [<- Hin]].
    destruct (Hp p Hin) as [Hv [Hl Hc]].
    unfold project_in_sync, where_id. db_simpl.
    destruct (eqId (Project.id p) target) eqn:E; cbn.
    + rewrite counted_app. unfold like_of at 2. cbn.
      rewrite eqId_sym, E. repeat split; auto. lia.
    + rewrite counted_app. unfold like_of at 2. cbn.
      rewrite eqId_sym, E. repeat split; auto. lia.
  - exact Hq.
Qed.

Lemma likeCommunityPost_keeps_sync (w : World) (target user : Id) :
  faults w = [] -> all_in_sync (db w) ->
  all_in_sync (db (snd (likeCommunityPost target user w))).
Proof.
  intros Hf Hs.
  destruct (likeCommunityPost_effect w target user Hf) as [_ [->|[_ ->]]];
    [exact Hs|].
  destruct Hs as [Hp Hq]. split; db_simpl.
  - exact Hp.
  - intros q' Hin. apply in_map_iff in Hin as [q [<- Hin]].
    destruct (Hq q Hin) as [Hl Hc].
    unfold post_in_sync, where_id. db_simpl.
    destruct (eqId (CommunityPost.id q) target) eqn:E; cbn.
    + rewrite counted_app. unfold postLike_of at 2. cbn.
      rewrite eqId_sym, E. repeat split; auto. lia.
    + rewrite counted_app. unfold postLike_of at 2. cbn.
      rewrite eqId_sym, E. repeat split; auto. lia.
Qed.

Lemma unlikeProject_keeps_sync (w : World) (target user : Id) :
  faults w = [] -> all_in_sync (db w) ->
  rowCount (like_hit target user) (projectLikes (db w)) <= 1 ->
  all_in_sync (db (snd (unlikeProject target user w))).
Proof.
  intros Hf Hs Hk.
  destruct (unlikeProject_effect w target user Hf) as [_ [->|[Hk0 ->]]];
    [exact Hs|].
  destruct Hs as [Hp Hq]. split; db_simpl.
  - intros p' Hin. apply in_map_iff in Hin as [p [<- Hin]].
    destruct (Hp p Hin) as [Hv [Hl Hc]].
    unfold project_in_sync, where_id. db_simpl.
    destruct (eqId (Project.id p) target) eqn:E; cbn.
    + apply eqId_true in E. repeat split; auto. rewrite Hl, E. unfold counted.
      pose proof (@rowCount_filter_split _ (like_of target)
                    (like_hit target user) (projectLikes (db w))) as Hsplit.
      rewrite <- Hsplit.
      * lia.
      * intros x Hx. unfold like_hit in Hx.
        apply andb_true_iff in Hx as [Hx _]. exact Hx.
    + repeat split; auto. rewrite Hl. unfold counted.
      rewrite rowCount_filter_disjoint; [reflexivity|].
      intros x Hx. unfold like_of. unfold like_hit in Hx.
      eapply hit_other; [exact Hx|exact E].
  - exact Hq.
Qed.

Lemma unlikeCommunityPost_keeps_sync (w : World) (target user : Id) :
  faults w = [] -> all_in_sync (db w) ->
  rowCount (postLike_hit target user) (postLikes (db w)) <= 1 ->
  all_in_sync (db (snd (unlikeCommunityPost target user w))).
Proof.
  intros Hf Hs Hk.
  destruct (unlikeCommunityPost_effect w target user Hf) as [_ [->|[Hk0 ->]]];
    [exact Hs|].
  destruct Hs as [Hp Hq]. split; db_simpl.
  - exact Hp.
  - intros q' Hin. apply in_map_iff in Hin as [q [<- Hin]].
    destruct (Hq q Hin) as [Hl Hc].
    unfold post_in_sync, where_id. db_simpl.
    destruct (eqId (CommunityPost.id q) target) eqn:E; cbn.
    + apply eqId_true in E. repeat split; auto. rewrite Hl, E. unfold counted.
      pose proof (@rowCount_filter_split _ (postLike_of target)
                    (postLike_hit target user) (postLikes (db w))) as Hsplit.
      rewrite <- Hsplit.
      * lia.
      * intros x Hx. unfold postLike_hit in Hx.
        apply andb_true_iff in Hx as [Hx _]. exact Hx.
    + repeat split; auto. rewrite Hl. unfold counted.
      rewrite rowCount_filter_disjoint; [reflexivity|].
      intros x Hx. unfold postLike_of. unfold postLike_hit in Hx.
      eapply hit_other; [exact Hx|exact E].
Qed.

(** X21.  Likes keep the cache exact.  On a database whose counters are
    in sync, the store serving, [likeProject] and [likeCommunityPost]
    leave every counter in sync, whether the insert was accepted or
    not; [unlikeProject] and [unlikeCommunityPost] do so as long as the
    (target, user) pair has at most one like row. *)
Theorem likes_keep_the_cache_in_sync :
  forall (w : World) (target user : Id),
    faults w = [] -> all_in_sync (db w) ->
    all_in_sync (db (snd (likeProject target user w))) /\
    all_in_sync (db (snd (likeCommunityPost target user w))) /\
    (rowCount (like_hit target user) (projectLikes (db w)) <= 1 ->
     all_in_sync (db (snd (unlikeProject target user w)))) /\
    (rowCount (postLike_hit target user) (postLikes (db w)) <= 1 ->
     all_in_sync (db (snd (unlikeCommunityPost target user w)))).
Proof.
  intros w target user Hf Hs.
  split; [now apply likeProject_keeps_sync|].
  split; [now apply likeCommunityPost_keeps_sync|].
  split; intros Hk;
    [now apply unlikeProject_keeps_sync | now apply unlikeCommunityPost_keeps_sync].
Qed.

Lemma liked_db_in_sync : all_in_sync Scenario.liked_db.
Proof.
  split.
  - intros p [<-|[<-|[]]]; repeat split.
  - intros q [<-|[]]; repeat split.
Qed.

Lemma likes_keep_the_cache_in_sync_witness :
  all_in_sync
    (db (snd (likeProject "p-1" "u-bob" (Scenario.world Scenario.liked_db [])))) /\
  all_in_sync
    (db (snd (unlikeProject "p-1" "u-alice"
                (Scenario.world Scenario.liked_db [])))).
Proof.
  split.
  - apply (likes_keep_the_cache_in_sync
             (Scenario.world Scenario.liked_db []) "p-1" "u-bob" eq_refl
             liked_db_in_sync).
  - refine (proj1 (proj2 (proj2 (likes_keep_the_cache_in_sync
             (Scenario.world Scenario.liked_db []) "p-1" "u-alice" eq_refl
             liked_db_in_sync))) _).
    vm_compute. lia.
Defined.

Lemma rowCount_filter_hit {A} (f h : A -> bool) (l : list A) :
  rowCount f l
  = rowCount f (filter (fun r => negb (h r)) l) + rowCount f (filter h l).
Proof.
  unfold rowCount. induction l as [|a l IH]; cbn; [reflexivity|].
  destruct (h a) eqn:Eh, (f a) eqn:Ef; cbn; rewrite ?Ef; cbn; lia.
Qed.

Lemma counted_without_one {A} (f h : A -> bool) (l : list A) (c : A) :
  filter h l = [c] ->
  counted f (filter (fun r => negb (h r)) l)
  = (counted f l - (if f c then 1 else 0))%Z.
Proof.
  intros H. unfold counted.
  pose proof (rowCount_filter_hit f h l) as E. rewrite H in E.
  assert (E1 : rowCount f [c] = if f c then 1 else 0)
    by (unfold rowCount; cbn; now destruct (f c)).
  rewrite E1 in E. destruct (f c); lia.
Qed.

Lemma in_sync_comment_bumped (d : DB) (cs : list Comment.t) (c : Comment.t)
  (delta : Z) :
  all_in_sync d ->
  one_parent (Comment.projectId c) (Comment.postId c) = true ->
  (forall f, counted f cs
             = (counted f (comments d) + (if f c then delta else 0))%Z) ->
  all_in_sync (bump_db (Comment.projectId c) (Comment.postId c) delta
                 (set_comments cs d)).
Proof.
  intros [Hp Hq] H1 Hcs. unfold bump_db.
  destruct (Comment.projectId c) as [p|] eqn:Ep,
           (Comment.postId c) as [q|] eqn:Eq; cbn in H1; try discriminate.
  - unfold truthy. rewrite H1. split; db_simpl.
    + intros p' Hin. apply in_map_iff in Hin as [p0 [<- Hin]].
      destruct (Hp p0 Hin) as [Hv [Hl Hc]].
      unfold project_in_sync, where_id. db_simpl.
      destruct (eqId (Project.id p0) p) eqn:E; cbn;
        (repeat split; auto); rewrite Hcs; unfold comment_of_project in *;
        rewrite Ep; cbn; fold (eqId p (Project.id p0)); rewrite eqId_sym, E; lia.
    + intros q0 Hin. destruct (Hq q0 Hin) as [Hl Hc].
      unfold post_in_sync. db_simpl. split; [exact Hl|].
      rewrite Hcs. unfold comment_of_post in *. rewrite Eq. cbn. lia.
  - unfold truthy. rewrite H1. split; db_simpl.
    + intros p0 Hin. destruct (Hp p0 Hin) as [Hv [Hl Hc]].
      unfold project_in_sync. db_simpl. repeat split; auto.
      rewrite Hcs. unfold comment_of_project in *. rewrite Ep. cbn. lia.
    + intros q' Hin. apply in_map_iff in Hin as [q0 [<- Hin]].
      destruct (Hq q0 Hin) as [Hl Hc].
      unfold post_in_sync, where_id. db_simpl.
      destruct (eqId (CommunityPost.id q0) q) eqn:E; cbn;
        (repeat split; auto); rewrite Hcs; unfold comment_of_post in *;
        rewrite Eq; cbn; fold (eqId q (CommunityPost.id q0));
        rewrite eqId_sym, E; lia.
Qed.

Lemma createComment_keeps_sync (w : World) (c : InsertComment.t) :
  faults w = [] -> all_in_sync (db w) ->
  one_parent (InsertComment.projectId c) (InsertComment.postId c) = true ->
  all_in_sync (db (snd (createComment c w))).
Proof.
  intros Hf Hs H1. rewrite createComment_bumps.
  destruct (insertComment_effect w c Hf)
    as [w1 [Hf1 [[e [E Hdb]]|[row [E [Hp [Hq [_ [_ Hdb]]]]]]]]].
  - rewrite (@bind_throw _ _ _ _ _ _ _ E). cbn [snd]. now rewrite Hdb.
  - rewrite (@bind_ok _ _ _ _ _ _ _ E).
    destruct (@bumpParent_effect w1 (InsertComment.projectId c)
                (InsertComment.postId c) 1 Hf1) as [w2 [E2 [_ Hdb2]]].
    rewrite (@bind_ok _ _ _ _ _ _ _ E2). unfold ret. cbn [snd].
    rewrite Hdb2, Hdb, <- Hp, <- Hq.
    apply in_sync_comment_bumped; [exact Hs | now rewrite Hp, Hq |].
    intros f. apply counted_app.
Qed.

Lemma deleteComment_keeps_sync (w : World) (id u : Id) :
  faults w = [] -> all_in_sync (db w) ->
  rowCount (comment_hit id u) (comments (db w)) <= 1 ->
  (forall c, In c (comments (db w)) -> comment_hit id u c = true ->
             one_parent (Comment.projectId c) (Comment.postId c) = true) ->
  all_in_sync (db (snd (deleteComment id u w))).
Proof.
  intros Hf Hs Hk H1.
  destruct (deleteComment_served w id u Hf) as [_ [Hnone Hsome]].
  destruct (filter (comment_hit id u) (comments (db w))) as [|c rest] eqn:E.
  - rewrite Hnone; [exact Hs|].
    destruct (existsb (comment_hit id u) (comments (db w))) eqn:Ex;
      [|reflexivity].
    apply existsb_exists in Ex as [x [Hin Hx]].
    assert (Hx' : In x (filter (comment_hit id u) (comments (db w))))
      by (apply filter_In; auto).
    rewrite E in Hx'. destruct Hx'.
  - assert (Hrest : rest = []).
    { unfold rowCount in Hk. rewrite E in Hk. cbn in Hk.
      destruct rest; [reflexivity | cbn in Hk; lia]. }
    subst rest.
    assert (Hin : In c (comments (db w)) /\ comment_hit id u c = true).
    { apply filter_In. rewrite E. now left. }
    destruct Hin as [Hin Hhit].
    rewrite (Hsome c) by (rewrite find_filter, E; reflexivity).
    apply in_sync_comment_bumped; [exact Hs | now apply H1 |].
    intros f. rewrite (counted_without_one f _ _ E). destruct (f c); lia.
Qed.

(** X22.  Comments with one parent keep the cache exact.  On a
    database whose counters are in sync, the store serving,
    [createComment] leaves every counter in sync when the comment is
    attached to a project only or to a post only (whether the insert is
    accepted or not), and [deleteComment] does when at most one row
    carries the (id, user) pair and that row has one parent. *)
Theorem single_parent_comments_keep_the_cache_in_sync :
  forall (w : World),
    faults w = [] -> all_in_sync (db w) ->
    (forall comment,
       one_parent (InsertComment.projectId comment)
                  (InsertComment.postId comment) = true ->
       all_in_sync (db (snd (createComment comment w)))) /\
    (forall id userId,
       rowCount (comment_hit id userId) (comments (db w)) <= 1 ->
       (forall c, In c (comments (db w)) -> comment_hit id userId c = true ->
                  one_parent (Comment.projectId c) (Comment.postId c) = true) ->
       all_in_sync (db (snd (deleteComment id userId w)))).
Proof.
  intros w Hf Hs. split.
  - intros c H1. now apply createComment_keeps_sync.
  - intros id u Hk H1. now apply deleteComment_keeps_sync.
Qed.

Lemma single_parent_comments_keep_the_cache_in_sync_witness :
  all_in_sync
    (db (snd (createComment (InsertComment.mk "hi" (Some "p-1") None "u-bob")
                (Scenario.world Scenario.liked_db [])))) /\
  map project_entry
    (projects
       (db (snd (createComment (InsertComment.mk "hi" (Some "p-1") None "u-bob")
                   (Scenario.world Scenario.liked_db [])))))
  = [("p-1", 0, 1, 1); ("p-2", 0, 0, 0)]%Z.
Proof.
  split; [|reflexivity].
  apply (single_parent_comments_keep_the_cache_in_sync
           (Scenario.world Scenario.liked_db []) eq_refl liked_db_in_sync).
  reflexivity.
Defined.

(** ** A batch that fails half way *)

Lemma syncProjectsLoop_partial (ids : list Id) :
  forall (k : nat) (w : World) (j r : nat) (fs : list bool) (prev : list Id),
    faults w = repeat false (4 * j + r) ++ true :: fs ->
    r < 4 -> j < length ids ->
    (forall p, In p (projects (db w)) -> In (Project.id p) prev ->
               project_in_sync (db w) p) ->
    let out := syncProjectsLoop ids k w in
    (forall p, In p (projects (db (snd out))) ->
               In (Project.id p) (firstn j ids ++ prev) ->
               project_in_sync (db (snd out)) p) /\
    (forall p, In p (projects (db (snd out))) ->
               ~ In (Project.id p) (firstn j ids) ->
               In p (projects (db w))).
Proof.
  induction ids as [|projectId rest IH]; intros k w j r fs prev Hf Hr Hj Hprev;
    cbv zeta; [cbn in Hj; lia|].
  cbn [syncProjectsLoop].
  pose proof (recountProject_run w projectId) as [_ [_ Hrun]]. cbv zeta in Hrun.
  destruct j as [|j].
  - cbn [Nat.mul Nat.add] in Hf.
    destruct (@recountProject_fails w projectId r fs Hr Hf) as [w1 [E _]].
    rewrite (@bind_throw _ _ _ _ _ _ _ E). rewrite E in Hrun.
    cbn [fst snd] in *. destruct Hrun as [_ ->]. cbn [firstn app]. auto.
  - replace (4 * S j + r) with (4 + (4 * j + r)) in Hf by lia.
    destruct (@recountProject_passes w projectId _ _ Hf) as [w1 [E Hf1]].
    pose proof (@recountProject_extends_sync w projectId prev) as Hstep.
    rewrite (@bind_ok _ _ _ _ _ _ _ E). rewrite E in Hrun, Hstep.
    cbn [fst snd] in *.
    destruct (IH (S k) w1 j r fs (projectId :: prev) Hf1 Hr) as [A B];
      [cbn [length] in Hj; lia | now apply Hstep |].
    cbv zeta in *. split.
    + intros p Hin Hid. apply A; [exact Hin|].
      cbn [firstn app] in Hid. apply in_or_app.
      destruct Hid as [<-|Hid]; [right; now left|].
      apply in_app_or in Hid as [Hid|Hid]; [now left | right; now right].
    + intros p Hin Hid. cbn [firstn] in Hid.
      assert (Hin1 : In p (projects (db w1))).
      { apply B; [exact Hin|]. intros H. apply Hid. now right. }
      rewrite Hrun in Hin1. apply in_map_iff in Hin1 as [p0 [Hp0 Hin0]].
      assert (Hne : eqId (Project.id p0) projectId = false).
      { destruct (eqId (Project.id p0) projectId) eqn:Eq; [|reflexivity].
        exfalso. apply Hid. left. apply eqId_true in Eq.
        rewrite <- Hp0, (where_id_keeps_id Project.id) by reflexivity.
        now symmetry. }
      unfold where_id in Hp0. rewrite Hne in Hp0. now subst p0.
Qed.

(** X23.  The project loop keeps what it did when it fails, in
    whatever order the store enumerated the projects.  For any
    enumeration [allProjects], when the store refuses a statement in the
    iteration at position [j], the loop throws the store's error and
    sends nothing more; the projects enumerated before that position
    are in sync and every other project row is exactly as it was:
    finished iterations are not rolled back and the failing one leaves
    nothing behind.  So [syncProjectCounts], failing in an iteration,
    throws and leaves [j] of the enumerated projects in sync and the
    others untouched. *)
Theorem failed_loop_keeps_finished_projects :
  forall (w : World) (j r : nat) (fs : list bool),
    r < 4 ->
    (forall allProjects : list Id,
       faults w = repeat false (4 * j + r) ++ true :: fs ->
       j < length allProjects ->
       let out := syncProjectsLoop allProjects 0 w in
       let done := firstn j allProjects in
       fst out = Throw store_unavailable /\
       faults (snd out) = fs /\
       rows_of (db (snd out)) = rows_of (db w) /\
       (forall p, In p (projects (db (snd out))) -> In (Project.id p) done ->
                  project_in_sync (db (snd out)) p) /\
       (forall p, In p (projects (db (snd out))) -> ~ In (Project.id p) done ->
                  In p (projects (db w)))) /\
    (faults w = repeat false (1 + 4 * j + r) ++ true :: fs ->
     j < length (projects (db w)) ->
     let out := syncProjectCounts w in
     fst out = Throw store_unavailable /\
     exists allProjects,
       Permutation allProjects (map Project.id (projects (db w))) /\
       (forall p, In p (projects (db (snd out))) ->
                  In (Project.id p) (firstn j allProjects) ->
                  project_in_sync (db (snd out)) p) /\
       (forall p, In p (projects (db (snd out))) ->
                  ~ In (Project.id p) (firstn j allProjects) ->
                  In p (projects (db w)))).
Proof.
  intros w j r fs Hr. split.
  - intros ids Hf Hj. cbv zeta.
    destruct (@syncProjectsLoop_fails ids 0 w (4 * j + r) fs) as [w1 [E Hf1]];
      [lia | exact Hf |].
    pose proof (syncProjectsLoop_frame ids 0 w) as [Hrows _].
    destruct (@syncProjectsLoop_partial ids 0 w j r fs [] Hf Hr Hj) as [A B];
      [intros p _ []|].
    cbv zeta in *. rewrite E in *. cbn [fst snd] in *.
    split; [reflexivity|]. split; [exact Hf1|]. split; [exact Hrows|].
    split; [|exact B].
    intros p Hin Hid. apply A; [exact Hin | now rewrite app_nil_r].
  - intros Hf Hj. cbv zeta. split.
    + destruct (@syncProjectCounts_fails w (1 + 4 * j + r) fs) as [w1 [E _]];
        [lia | exact Hf | now rewrite E].
    + exists (map Project.id (projects (db w))).
      split; [apply Permutation_refl|].
      unfold syncProjectCounts. rewrite try_rethrow.
      unfold selectProjectIds, bind at 1. unfold_tasks.
      replace (1 + 4 * j + r) with (S (4 * j + r)) in Hf by lia.
      cbn [repeat app] in Hf. rewrite Hf. cbn [fst snd db].
      match goal with |- context [syncProjectsLoop ?ids 0 ?w0] =>
        destruct (@syncProjectsLoop_partial ids 0 w0 j r fs []) as [A B] end.
      * reflexivity.
      * exact Hr.
      * now rewrite length_map.
      * intros p _ [].
      * cbv zeta in *. cbn [db] in *. split.
        -- intros p Hin Hid. apply A; [exact Hin | now rewrite app_nil_r].
        -- exact B.
Qed.

Lemma failed_loop_keeps_finished_projects_witness :
  let w := Scenario.world Scenario.drifted_db (repeat false 5 ++ [true]) in
  let forwards := syncProjectsLoop ["p-1"; "p-2"] 0 w in
  let backwards := syncProjectsLoop ["p-2"; "p-1"] 0 w in
  (fst forwards = Throw store_unavailable /\
   map project_entry (projects (db (snd forwards)))
   = [("p-1", 0, 1, 0); ("p-2", 0, 0, 0)]%Z) /\
  (fst backwards = Throw store_unavailable /\
   map project_entry (projects (db (snd backwards)))
   = [("p-1", 0, 0, 0); ("p-2", 0, 2, 0)]%Z).
Proof.
  cbv zeta.
  destruct (@failed_loop_keeps_finished_projects
              (Scenario.world Scenario.drifted_db (repeat false 5 ++ [true]))
              1 1 []) as [H _]; [lia|].
  destruct (H ["p-1"; "p-2"] eq_refl) as [Hf _]; [cbn; lia|].
  destruct (H ["p-2"; "p-1"] eq_refl) as [Hb _]; [cbn; lia|].
  split; (split; [assumption | reflexivity]).
Defined.

(** ** The delete route *)

(** X24.  [DELETE /api/projects/:id] under every schedule of faults.
    When the store refuses the delete statement the answer is 500 and
    nothing is changed.  Otherwise the answer is 404, with nothing
    changed, exactly when no project has this id and belongs to the
    caller (somebody else's project looks like a missing one), and 200
    with the caller's project gone when one has. *)
Theorem deleteProjectRoute_answers :
  forall (w : World) (id userId : Id),
    let out := deleteProjectRoute id userId w in
    let k := rowCount (project_owned id userId) (projects (db w)) in
    match faults w with
    | true :: _ =>
        fst out = Message 500 "Failed to delete project" /\
        db (snd out) = db w
    | _ =>
        (k = 0 ->
         fst out = Message 404 "Project not found" /\ db (snd out) = db w) /\
        (k <> 0 ->
         fst out = Message 200 "Project deleted successfully" /\
         rowCount (project_owned id userId) (projects (db (snd out))) = 0 /\
         rowCount (like_of id) (projectLikes (db (snd out))) = 0)
    end.
Proof.
  intros w id u. cbv zeta.
  unfold deleteProjectRoute, respond, deleteProject, deleteProjects.
  unfold_tasks.
  destruct (faults w) as [|[|] fs]; cbn [fst snd db]; [|auto|];
    (destruct (rowCount (project_owned id u) (projects (db w))) as [|k] eqn:Hk;
     cbn [Nat.ltb Nat.leb fst snd db]; db_simpl;
     (split; [intros H | intros H]);
     [ auto
     | now destruct H
     | discriminate
     | split; [reflexivity | now rewrite !rowCount_filter_negb] ]).
Qed.

(** ** The comment lists against the counters *)

Lemma insertDesc_length {A} (key : A -> nat) (x : A) (l : list A) :
  length (insertDesc key x l) = S (length l).
Proof.
  induction l as [|y l IH]; cbn; [reflexivity|].
  destruct (key y <=? key x)%nat; cbn; [reflexivity | now rewrite IH].
Qed.

Lemma orderByDesc_length {A} (key : A -> nat) (l : list A) :
  length (orderByDesc key l) = length l.
Proof.
  unfold orderByDesc. induction l as [|x l IH]; cbn; [reflexivity|].
  now rewrite insertDesc_length, IH.
Qed.

Lemma insertDesc_In {A} (key : A -> nat) (x : A) (l : list A) (r : A) :
  In r (insertDesc key x l) <-> r = x \/ In r l.
Proof.
  induction l as [|y l IH]; cbn; [intuition congruence|].
  destruct (key y <=? key x)%nat; cbn; [intuition congruence|].
  rewrite IH. intuition congruence.
Qed.

Lemma orderByDesc_In {A} (key : A -> nat) (l : list A) (r : A) :
  In r (orderByDesc key l) <-> In r l.
Proof.
  unfold orderByDesc. induction l as [|x l IH]; cbn; [reflexivity|].
  rewrite insertDesc_In, IH. intuition congruence.
Qed.

Lemma insertDesc_sorted {A} (key : A -> nat) (x : A) (l : list A) :
  StronglySorted (fun a b => key b <= key a) l ->
  StronglySorted (fun a b => key b <= key a) (insertDesc key x l).
Proof.
  induction l as [|y l IH]; intros Hs; cbn.
  - constructor; [constructor | constructor].
  - apply StronglySorted_inv in Hs as [Hl Hy].
    destruct (key y <=? key x)%nat eqn:E.
    + apply Nat.leb_le in E. constructor.
      * constructor; assumption.
      * constructor; [exact E|].
        rewrite Forall_forall in *. intros z Hz. specialize (Hy z Hz). lia.
    + apply Nat.leb_gt in E. constructor; [now apply IH|].
      rewrite Forall_forall in *. intros z Hz.
      apply insertDesc_In in Hz as [->|Hz]; [lia | now apply Hy].
Qed.

Lemma orderByDesc_sorted {A} (key : A -> nat) (l : list A) :
  StronglySorted (fun a b => key b <= key a) (orderByDesc key l).
Proof.
  unfold orderByDesc.
  induction l as [|x l IH]; cbn; [constructor | now apply insertDesc_sorted].
Qed.

Lemma one_user_per_id (us : list User.t) (x : Id) :
  NoDup (map User.id us) ->
  length (filter (fun u => eqId x (User.id u)) us) <= 1.
Proof.
  induction us as [|u us IH]; cbn; intros Hn; [lia|].
  apply NoDup_cons_iff in Hn as [Hnot Hn].
  destruct (eqId x (User.id u)) eqn:E; cbn; [|now apply IH].
  apply eqId_true in E. subst x.
  assert (Hnone : filter (fun u0 => eqId (User.id u) (User.id u0)) us = []).
  { apply existsb_filter_nil.
    destruct (existsb (fun u0 => eqId (User.id u) (User.id u0)) us) eqn:Ex;
      [|reflexivity].
    apply existsb_exists in Ex as [u0 [Hin Hu0]]. apply eqId_true in Hu0.
    exfalso. apply Hnot. rewrite Hu0. now apply in_map. }
  rewrite Hnone. cbn. lia.
Qed.

Lemma leftJoinCommentUsers_one (us : list User.t) (c : Comment.t) :
  NoDup (map User.id us) -> length (leftJoinCommentUsers us c) = 1.
Proof.
  intros Hn. unfold leftJoinCommentUsers.
  pose proof (one_user_per_id us (Comment.userId c) Hn) as H.
  destruct (filter _ us) as [|u [|u' rest]]; cbn in *; [reflexivity..|lia].
Qed.

Lemma joined_comments_length (us : list User.t) (cs : list Comment.t) :
  NoDup (map User.id us) ->
  length (flat_map (leftJoinCommentUsers us) cs) = length cs.
Proof.
  intros Hn. induction cs as [|c cs IH]; cbn; [reflexivity|].
  now rewrite length_app, leftJoinCommentUsers_one, IH.
Qed.

Lemma joined_comment_columns (us : list User.t) (c : Comment.t)
  (r : CommentWithUser.t) :
  In r (leftJoinCommentUsers us c) ->
  CommentWithUser.projectId r = Comment.projectId c /\
  CommentWithUser.postId r = Comment.postId c.
Proof.
  unfold leftJoinCommentUsers.
  destruct (filter _ us) as [|u rest].
  - intros [<-|[]]. auto.
  - intros Hin. apply in_map_iff in Hin as [u0 [<- _]]. auto.
Qed.

Lemma eqNullable_true (a : option Id) (b : Id) :
  eqNullable a b = true -> a = Some b.
Proof.
  destruct a as [x|]; cbn; [|discriminate].
  intros H. apply String.eqb_eq in H. now subst.
Qed.

Lemma getProjectComments_served (w : World) (projectId : Id) :
  faults w = [] ->
  fst (getProjectComments projectId w)
  = Ok (orderByDesc CommentWithUser.createdAt
          (flat_map (leftJoinCommentUsers (users (db w)))
                    (filter (comment_of_project projectId) (comments (db w)))))
  /\ db (snd (getProjectComments projectId w)) = db w.
Proof.
  intros Hf. unfold getProjectComments. unfold_tasks. rewrite Hf. cbn. auto.
Qed.

Lemma getPostComments_served (w : World) (postId : Id) :
  faults w = [] ->
  fst (getPostComments postId w)
  = Ok (orderByDesc CommentWithUser.createdAt
          (flat_map (leftJoinCommentUsers (users (db w)))
                    (filter (comment_of_post postId) (comments (db w)))))
  /\ db (snd (getPostComments postId w)) = db w.
Proof.
  intros Hf. unfold getPostComments. unfold_tasks. rewrite Hf. cbn. auto.
Qed.

(** X25.  The comment lists agree with the counters the sync job
    writes.  With the store serving and user ids unique,
    [getProjectComments] changes nothing and returns, newest first, only
    comments of that project, as many as there are comment rows with
    that [projectId]; so a project whose counters are in sync shows
    exactly [commentCount] comments.  Likewise for [getPostComments]
    and posts. *)
Theorem comment_lists_match_the_counters :
  forall (w : World) (target : Id),
    faults w = [] -> NoDup (map User.id (users (db w))) ->
    (exists rows,
       fst (getProjectComments target w) = Ok rows /\
       db (snd (getProjectComments target w)) = db w /\
       newest_first rows /\
       (forall r, In r rows -> CommentWithUser.projectId r = Some target) /\
       Z.of_nat (length rows)
       = counted (comment_of_project target) (comments (db w)) /\
       (forall p, In p (projects (db w)) -> Project.id p = target ->
                  project_in_sync (db w) p ->
                  Project.commentCount p = Z.of_nat (length rows))) /\
    (exists rows,
       fst (getPostComments target w) = Ok rows /\
       db (snd (getPostComments target w)) = db w /\
       newest_first rows /\
       (forall r, In r rows -> CommentWithUser.postId r = Some target) /\
       Z.of_nat (length rows)
       = counted (comment_of_post target) (comments (db w)) /\
       (forall q, In q (communityPosts (db w)) -> CommunityPost.id q = target ->
                  post_in_sync (db w) q ->
                  CommunityPost.commentCount q = Z.of_nat (length rows))).
Proof.
  intros w target Hf Hn. split.
  - destruct (getProjectComments_served w target Hf) as [Hr Hdb].
    eexists. split; [exact Hr|]. split; [exact Hdb|].
    split; [apply orderByDesc_sorted|].
    assert (Hlen : Z.of_nat
                     (length
                        (orderByDesc CommentWithUser.createdAt
                           (flat_map (leftJoinCommentUsers (users (db w)))
                              (filter (comment_of_project target)
                                      (comments (db w))))))
                   = counted (comment_of_project target) (comments (db w))).
    { rewrite orderByDesc_length, joined_comments_length by exact Hn.
      reflexivity. }
    split; [|split; [exact Hlen|]].
    + intros r Hin. apply orderByDesc_In in Hin.
      apply in_flat_map in Hin as [c [Hc Hin]].
      apply filter_In in Hc as [_ Hc].
      destruct (joined_comment_columns _ _ _ Hin) as [-> _].
      now apply eqNullable_true.
    + intros p _ Hid [_ [_ Hc]]. now rewrite Hlen, Hc, Hid.
  - destruct (getPostComments_served w target Hf) as [Hr Hdb].
    eexists. split; [exact Hr|]. split; [exact Hdb|].
    split; [apply orderByDesc_sorted|].
    assert (Hlen : Z.of_nat
                     (length
                        (orderByDesc CommentWithUser.createdAt
                           (flat_map (leftJoinCommentUsers (users (db w)))
                              (filter (comment_of_post target)
                                      (comments (db w))))))
                   = counted (comment_of_post target) (comments (db w))).
    { rewrite orderByDesc_length, joined_comments_length by exact Hn.
      reflexivity. }
    split; [|split; [exact Hlen|]].
    + intros r Hin. apply orderByDesc_In in Hin.
      apply in_flat_map in Hin as [c [Hc Hin]].
      apply filter_In in Hc as [_ Hc].
      destruct (joined_comment_columns _ _ _ Hin) as [_ ->].
      now apply eqNullable_true.
    + intros q _ Hid [_ Hc]. now rewrite Hlen, Hc, Hid.
Qed.

Lemma comment_lists_match_the_counters_witness :
  exists rows,
    fst (getPostComments "q-1" (Scenario.world Scenario.commented_db []))
    = Ok rows /\
    length rows = 1.
Proof.
  destruct (comment_lists_match_the_counters
              (Scenario.world Scenario.commented_db []) "q-1" eq_refl)
    as [_ [rows [Hr [_ [_ [_ [Hlen _]]]]]]].
  - cbn. constructor; [intros [H|[]]; discriminate|].
    constructor; [intros []|constructor].
  - exists rows. split; [exact Hr|].
    apply Nat2Z.inj. rewrite Hlen. reflexivity.
Defined.

(** ** Analytics against the counters *)

Lemma total_add {A} (g h : A -> Z) (l : list A) :
  total (fun r => (g r + h r)%Z) l = (total g l + total h l)%Z.
Proof. unfold total. induction l as [|a l IH]; cbn; [reflexivity | lia]. Qed.

Lemma total_ext_in {A} (g h : A -> Z) (l : list A) :
  (forall r, In r l -> g r = h r) -> total g l = total h l.
Proof.
  unfold total. induction l as [|a l IH]; cbn; intros H; [reflexivity|].
  rewrite (H a (or_introl eq_refl)), IH; [reflexivity|].
  intros r Hr. apply H. now right.
Qed.

Lemma total_no_match {A} (id_of : A -> Id) (x : Id) (l : list A) :
  existsb (fun r => eqId (id_of r) x) l = false ->
  total (fun r => if eqId x (id_of r) then 1%Z else 0%Z) l = 0%Z.
Proof.
  unfold total. induction l as [|a l IH]; cbn; [reflexivity|]. intros H.
  apply orb_false_iff in H as [Ha Hl]. rewrite eqId_sym, Ha, IH by exact Hl.
  reflexivity.
Qed.

Lemma total_one_match {A} (id_of : A -> Id) (x : Id) (l : list A) :
  NoDup (map id_of l) ->
  existsb (fun r => eqId (id_of r) x) l = true ->
  total (fun r => if eqId x (id_of r) then 1%Z else 0%Z) l = 1%Z.
Proof.
  induction l as [|a l IH]; cbn; [discriminate|]. intros Hn H.
  apply NoDup_cons_iff in Hn as [Hnot Hn].
  rewrite (eqId_sym x (id_of a)).
  destruct (eqId (id_of a) x) eqn:Ea; cbn in H.
  - apply eqId_true in Ea. subst x.
    fold (total (fun r => if eqId (id_of a) (id_of r) then 1%Z else 0%Z) l).
    rewrite total_no_match; [reflexivity|].
    destruct (existsb (fun r => eqId (id_of r) (id_of a)) l) eqn:Ex;
      [|reflexivity].
    apply existsb_exists in Ex as [r [Hin Hr]]. apply eqId_true in Hr.
    exfalso. apply Hnot. rewrite <- Hr. now apply in_map.
  - fold (total (fun r => if eqId x (id_of r) then 1%Z else 0%Z) l).
    rewrite IH by assumption. reflexivity.
Qed.

Lemma likes_split_over_projects (ps : list Project.t) (ls : list ProjectLike.t) :
  NoDup (map Project.id ps) ->
  (forall l, In l ls ->
     existsb (fun r => eqId (Project.id r) (ProjectLike.projectId l)) ps = true) ->
  total (fun p => counted (like_of (Project.id p)) ls) ps
  = Z.of_nat (length ls).
Proof.
  intros Hn. induction ls as [|l ls IH]; intros Href.
  - unfold total, counted, rowCount. cbn.
    induction ps as [|p ps IHp]; cbn; [reflexivity|].
    apply NoDup_cons_iff in Hn as [_ Hn]. now rewrite IHp.
  - rewrite (total_ext_in _
               (fun p => ((if eqId (ProjectLike.projectId l) (Project.id p)
                           then 1 else 0)
                          + counted (like_of (Project.id p)) ls)%Z)).
    + rewrite total_add, IH by (intros l0 Hl0; apply Href; now right).
      rewrite (total_one_match Project.id) by (auto; apply Href; now left).
      cbn [length]. lia.
    + intros p _. unfold counted, rowCount. cbn [filter].
      unfold like_of at 1.
      destruct (eqId (ProjectLike.projectId l) (Project.id p)); cbn [length]; lia.
Qed.

Lemma rowCount_all {A} (l : list A) :
  length (filter (fun _ => true) l) = length l.
Proof. induction l as [|a l IH]; cbn; [reflexivity | now rewrite IH]. Qed.

Lemma getAnalytics_served (w : World) :
  faults w = [] ->
  exists a, fst (getAnalytics w) = Ok a /\
    db (snd (getAnalytics w)) = db w /\
    Analytics.totalProjects a = Z.of_nat (length (projects (db w))) /\
    Analytics.totalUsers a = Z.of_nat (length (users (db w))) /\
    Analytics.totalLikes a = Z.of_nat (length (projectLikes (db w))) /\
    Analytics.totalComments a = Z.of_nat (length (comments (db w))).
Proof.
  intros Hf. unfold getAnalytics. unfold_tasks. rewrite Hf. cbn.
  eexists. split; [reflexivity|]. cbn. unfold rowCount.
  rewrite !rowCount_all. auto.
Qed.

(** X26.  The analytics agree with the cached counters.  With the
    store serving, [getAnalytics] changes nothing, and on a database
    whose counters are in sync, whose project ids are unique and whose
    like rows all reference an existing project, its [totalLikes] is
    the sum of the [likeCount] of all projects; likes of community
    posts are not part of it.  The two top lists it returns are the same
    whatever the database holds. *)
Theorem analytics_match_the_counters :
  forall (w : World),
    faults w = [] ->
    exists a,
      fst (getAnalytics w) = Ok a /\
      db (snd (getAnalytics w)) = db w /\
      Analytics.totalLikes a = Z.of_nat (length (projectLikes (db w))) /\
      Analytics.topTechStacks a
      = [("React", 324); ("Vue.js", 186); ("Node.js", 152); ("Python", 98)]%Z /\
      Analytics.topTags a
      = [("Web Apps", 456); ("Mobile Apps", 234); ("Games", 167);
         ("Tools", 123)]%Z /\
      (all_in_sync (db w) ->
       NoDup (map Project.id (projects (db w))) ->
       (forall l, In l (projectLikes (db w)) ->
                  has_project (db w) (ProjectLike.projectId l) = true) ->
       Analytics.totalLikes a = total Project.likeCount (projects (db w))).
Proof.
  intros w Hf.
  destruct (getAnalytics_served w Hf) as [a [Hr [Hdb [_ [_ [Hl _]]]]]].
  exists a. split; [exact Hr|]. split; [exact Hdb|]. split; [exact Hl|].
  assert (Htop : Analytics.topTechStacks a
                 = [("React", 324); ("Vue.js", 186); ("Node.js", 152);
                    ("Python", 98)]%Z /\
                 Analytics.topTags a
                 = [("Web Apps", 456); ("Mobile Apps", 234); ("Games", 167);
                    ("Tools", 123)]%Z).
  { revert Hr. unfold getAnalytics. unfold_tasks. rewrite Hf. cbn.
    intros H. injection H as <-. auto. }
  destruct Htop as [Ht1 Ht2]. split; [exact Ht1|]. split; [exact Ht2|].
  intros [Hp _] Hn Href. rewrite Hl.
  rewrite <- (@likes_split_over_projects _ _ Hn Href).
  apply total_ext_in. intros p Hin. now destruct (Hp p Hin) as [_ [-> _]].
Qed.

Lemma analytics_match_the_counters_witness :
  exists a,
    fst (getAnalytics (Scenario.world Scenario.liked_db [])) = Ok a /\
    Analytics.totalLikes a = 1%Z.
Proof.
  destruct (analytics_match_the_counters
              (Scenario.world Scenario.liked_db []) eq_refl)
    as [a [Hr [_ [Hl _]]]].
  exists a. split; [exact Hr | exact Hl].
Defined.

(** ** New projects and posts *)

Lemma createProject_keeps_sync (w : World) (project : InsertProject.t) :
  faults w = [] -> all_in_sync (db w) ->
  (forall l, In l (projectLikes (db w)) ->
             has_project (db w) (ProjectLike.projectId l) = true) ->
  (forall v, In v (projectViews (db w)) ->
             has_project (db w) (ProjectView.projectId v) = true) ->
  (forall c, In c (comments (db w)) ->
             ref_ok (has_project (db w)) (Comment.projectId c) = true) ->
  all_in_sync (db (snd (createProject project w))).
Proof.
  intros Hf Hs Rl Rv Rc. unfold createProject. unfold_tasks. rewrite Hf.
  cbn [fst snd db faults entropy drawn clock].
  destruct (fresh_in _ _ _) eqn:Hnew; cbn; [|exact Hs].
  destruct (has_user _ _); cbn; [|exact Hs].
  unfold fresh_in in Hnew. apply negb_true_iff in Hnew.
  destruct Hs as [Hp Hq]. split; db_simpl; [|exact Hq].
  intros p Hin. apply in_app_or in Hin as [Hin|[<-|[]]]; [now apply Hp|].
  unfold project_in_sync, counted.
  cbn [Project.id Project.viewCount Project.likeCount Project.commentCount].
  db_simpl.
  assert (Hv0 : rowCount (view_of (entropy w (drawn w))) (projectViews (db w)) = 0).
  { apply rowCount_none. intros v Hv. unfold view_of.
    destruct (eqId _ _) eqn:E; [|reflexivity].
    apply eqId_true in E. specialize (Rv v Hv). rewrite E in Rv. congruence. }
  assert (Hl0 : rowCount (like_of (entropy w (drawn w))) (projectLikes (db w)) = 0).
  { apply rowCount_none. intros l Hl. unfold like_of.
    destruct (eqId _ _) eqn:E; [|reflexivity].
    apply eqId_true in E. specialize (Rl l Hl). rewrite E in Rl. congruence. }
  assert (Hc0 : rowCount (comment_of_project (entropy w (drawn w)))
                         (comments (db w)) = 0).
  { apply rowCount_none. intros c Hc. unfold comment_of_project.
    specialize (Rc c Hc).
    destruct (Comment.projectId c) as [x|]; [|reflexivity]. cbn in *.
    destruct (String.eqb_spec x (entropy w (drawn w))); [|reflexivity].
    subst x. congruence. }
  rewrite Hv0, Hl0, Hc0. auto.
Qed.

Lemma createCommunityPost_keeps_sync (w : World) (post : InsertCommunityPost.t) :
  faults w = [] -> all_in_sync (db w) ->
  (forall l, In l (postLikes (db w)) ->
             has_post (db w) (PostLike.postId l) = true) ->
  (forall c, In c (comments (db w)) ->
             ref_ok (has_post (db w)) (Comment.postId c) = true) ->
  all_in_sync (db (snd (createCommunityPost post w))).
Proof.
  intros Hf Hs Rl Rc. unfold createCommunityPost. unfold_tasks. rewrite Hf.
  cbn [fst snd db faults entropy drawn clock].
  destruct (fresh_in _ _ _) eqn:Hnew; cbn; [|exact Hs].
  destruct (has_user _ _); cbn; [|exact Hs].
  unfold fresh_in in Hnew. apply negb_true_iff in Hnew.
  destruct Hs as [Hp Hq]. split; db_simpl; [exact Hp|].
  intros q Hin. apply in_app_or in Hin as [Hin|[<-|[]]]; [now apply Hq|].
  unfold post_in_sync, counted.
  cbn [CommunityPost.id CommunityPost.likeCount CommunityPost.commentCount].
  db_simpl.
  assert (Hl0 : rowCount (postLike_of (entropy w (drawn w))) (postLikes (db w)) = 0).
  { apply rowCount_none. intros l Hl. unfold postLike_of.
    destruct (eqId _ _) eqn:E; [|reflexivity].
    apply eqId_true in E. specialize (Rl l Hl). rewrite E in Rl. congruence. }
  assert (Hc0 : rowCount (comment_of_post (entropy w (drawn w)))
                         (comments (db w)) = 0).
  { apply rowCount_none. intros c Hc. unfold comment_of_post.
    specialize (Rc c Hc).
    destruct (Comment.postId c) as [x|]; [|reflexivity]. cbn in *.
    destruct (String.eqb_spec x (entropy w (drawn w))); [|reflexivity].
    subst x. congruence. }
  rewrite Hl0, Hc0. auto.
Qed.

(** X27.  New projects and posts start with exact counters.  On a
    database whose counters are in sync and whose like, view and comment
    rows only reference projects and posts that exist, the store
    serving, [createProject] and [createCommunityPost] leave every
    counter in sync: the new row's zeros are right because its fresh id
    cannot be referenced yet, and a rejected insert changes nothing. *)
Theorem created_entities_start_in_sync :
  forall (w : World),
    faults w = [] -> all_in_sync (db w) ->
    (forall l, In l (projectLikes (db w)) ->
               has_project (db w) (ProjectLike.projectId l) = true) ->
    (forall v, In v (projectViews (db w)) ->
               has_project (db w) (ProjectView.projectId v) = true) ->
    (forall l, In l (postLikes (db w)) ->
               has_post (db w) (PostLike.postId l) = true) ->
    (forall c, In c (comments (db w)) ->
               ref_ok (has_project (db w)) (Comment.projectId c) = true /\
               ref_ok (has_post (db w)) (Comment.postId c) = true) ->
    (forall project, all_in_sync (db (snd (createProject project w)))) /\
    (forall post, all_in_sync (db (snd (createCommunityPost post w)))).
Proof.
  intros w Hf Hs Rl Rv Rql Rc. split.
  - intros project. apply createProject_keeps_sync; auto.
    intros c Hc. now destruct (Rc c Hc).
  - intros post. apply createCommunityPost_keeps_sync; auto.
    intros c Hc. now destruct (Rc c Hc).
Qed.

Lemma created_entities_start_in_sync_witness :
  all_in_sync
    (db (snd (createProject
                (InsertProject.mk "Kite" "kites" "kites for all" None None None
                   None None "u-bob" false)
                (Scenario.world Scenario.liked_db [])))).
Proof.
  refine (proj1 (@created_entities_start_in_sync
                   (Scenario.world Scenario.liked_db []) eq_refl
                   liked_db_in_sync _ _ _ _) _).
  - intros l [<-|[]]. reflexivity.
  - intros v [].
  - intros l [].
  - intros c [].
Defined.

(** ** The first storage layer: counts over a double join *)

Lemma legacy_leftJoin_orNull {A B} (on : A -> B -> bool) (table : list B)
  (rows : list A) :
  Legacy.leftJoin on table rows
  = flat_map (fun a => map (fun b => (a, b))
                           (Legacy.orNull (filter (on a) table))) rows.
Proof.
  unfold Legacy.leftJoin, Legacy.orNull. apply flat_map_ext. intros a.
  destruct (filter (on a) table); [reflexivity | now rewrite map_map].
Qed.

Lemma legacy_leftJoin_cons {A B} (on : A -> B -> bool) (table : list B)
  (a : A) (rows : list A) :
  Legacy.leftJoin on table (a :: rows)
  = Legacy.leftJoin on table [a] ++ Legacy.leftJoin on table rows.
Proof. unfold Legacy.leftJoin. cbn. now rewrite app_nil_r. Qed.

Lemma legacy_leftJoin_app {A B} (on : A -> B -> bool) (table : list B)
  (l1 l2 : list A) :
  Legacy.leftJoin on table (l1 ++ l2)
  = Legacy.leftJoin on table l1 ++ Legacy.leftJoin on table l2.
Proof. unfold Legacy.leftJoin. apply flat_map_app. Qed.

Lemma legacy_leftJoin_In {A B} (on : A -> B -> bool) (table : list B)
  (rows : list A) (r : A * option B) :
  In r (Legacy.leftJoin on table rows) -> In (fst r) rows.
Proof.
  unfold Legacy.leftJoin. intros H. apply in_flat_map in H as [a [Ha Hr]].
  destruct (filter (on a) table) as [|b found].
  - destruct Hr as [<-|[]]. exact Ha.
  - apply in_map_iff in Hr as [b0 [<- _]]. exact Ha.
Qed.

Lemma legacy_joinProjects_cons (d : DB) (p : Project.t) (ps : list Project.t) :
  Legacy.joinProjects d (p :: ps)
  = Legacy.joinProjects d [p] ++ Legacy.joinProjects d ps.
Proof.
  unfold Legacy.joinProjects.
  now rewrite legacy_leftJoin_cons, !legacy_leftJoin_app.
Qed.

Lemma legacy_joinProjects_In (d : DB) (ps : list Project.t) (r : Legacy.Joined) :
  In r (Legacy.joinProjects d ps) -> In (Legacy.joinedProject r) ps.
Proof.
  unfold Legacy.joinProjects, Legacy.joinedProject. intros H.
  apply legacy_leftJoin_In in H. apply legacy_leftJoin_In in H.
  now apply legacy_leftJoin_In in H.
Qed.

Lemma filter_all {A} (f : A -> bool) (l : list A) :
  (forall r, In r l -> f r = true) -> filter f l = l.
Proof.
  induction l as [|a l IH]; cbn; intros H; [reflexivity|].
  rewrite (H a (or_introl eq_refl)), IH; [reflexivity|].
  intros r Hr. apply H. now right.
Qed.

Lemma filter_nothing {A} (f : A -> bool) (l : list A) :
  (forall r, In r l -> f r = false) -> filter f l = [].
Proof.
  induction l as [|a l IH]; cbn; intros H; [reflexivity|].
  rewrite (H a (or_introl eq_refl)). apply IH.
  intros r Hr. apply H. now right.
Qed.

Lemma legacy_where_selects (d : DB) (ps : list Project.t) (p : Project.t) :
  NoDup (map Project.id ps) -> In p ps ->
  filter (fun r => eqId (Project.id (Legacy.joinedProject r)) (Project.id p))
         (Legacy.joinProjects d ps)
  = Legacy.joinProjects d [p].
Proof.
  induction ps as [|a ps IH]; intros Hn Hin; [destruct Hin|].
  cbn [map] in Hn. apply NoDup_cons_iff in Hn as [Hnot Hn].
  rewrite legacy_joinProjects_cons, filter_app.
  destruct Hin as [->|Hin].
  - rewrite filter_all, filter_nothing; [apply app_nil_r| |].
    + intros r Hr. apply legacy_joinProjects_In in Hr.
      destruct (eqId _ _) eqn:E; [|reflexivity].
      apply eqId_true in E. exfalso. apply Hnot. rewrite <- E.
      now apply in_map.
    + intros r Hr. apply legacy_joinProjects_In in Hr.
      destruct Hr as [<-|[]]. apply eqId_refl.
  - rewrite IH by assumption. rewrite filter_nothing; [reflexivity|].
    intros r Hr. apply legacy_joinProjects_In in Hr.
    destruct Hr as [<-|[]].
    destruct (eqId _ _) eqn:E; [|reflexivity].
    apply eqId_true in E. exfalso. apply Hnot. rewrite E. now apply in_map.
Qed.

Lemma flat_map_of_map {A B C} (g : B -> list C) (h : A -> B) (l : list A) :
  flat_map g (map h l) = flat_map (fun x => g (h x)) l.
Proof. induction l as [|a l IH]; cbn; [reflexivity | now rewrite IH]. Qed.

Lemma legacy_joinProjects_single (d : DB) (p : Project.t) :
  NoDup (map User.id (users d)) ->
  exists uo,
    Legacy.joinProjects d [p]
    = flat_map
        (fun lo =>
           map (fun co => (p, uo, lo, co))
               (Legacy.orNull
                  (filter (fun c => eqNullable (Comment.projectId c)
                                               (Project.id p))
                          (comments d))))
        (Legacy.orNull
           (filter (fun l => eqId (Project.id p) (ProjectLike.projectId l))
                   (projectLikes d))).
Proof.
  intros Hn. unfold Legacy.joinProjects. rewrite !legacy_leftJoin_orNull.
  pose proof (one_user_per_id (users d) (Project.userId p) Hn) as Hu.
  cbn [flat_map]. rewrite app_nil_r.
  destruct (filter (fun u => eqId (Project.userId p) (User.id u)) (users d))
    as [|u [|u' rest]]; cbn in Hu; [| |lia].
  - exists None. cbn [Legacy.orNull map flat_map]. rewrite app_nil_r.
    now rewrite flat_map_of_map.
  - exists (Some u). cbn [Legacy.orNull map flat_map]. rewrite app_nil_r.
    now rewrite flat_map_of_map.
Qed.

Lemma rowCount_concat {A} (f : A -> bool) (l1 l2 : list A) :
  rowCount f (l1 ++ l2) = rowCount f l1 + rowCount f l2.
Proof. unfold rowCount. now rewrite filter_app, length_app. Qed.

Lemma rowCount_map_const {A B} (f : B -> bool) (h : A -> B) (l : list A)
  (b : bool) :
  (forall x, f (h x) = b) ->
  rowCount f (map h l) = if b then length l else 0.
Proof.
  intros H. unfold rowCount. induction l as [|a l IH]; cbn.
  - now destruct b.
  - rewrite H. destruct b; cbn; now rewrite IH.
Qed.

Lemma legacy_count_left {A B R} (some : A -> bool) (f : R -> bool)
  (mk : A -> B -> R) (ls : list A) (cs : list B) :
  (forall a b, f (mk a b) = some a) ->
  rowCount f (flat_map (fun a => map (mk a) cs) ls)
  = rowCount some ls * length cs.
Proof.
  intros H. induction ls as [|a ls IH]; cbn [flat_map]; [reflexivity|].
  rewrite rowCount_concat, IH.
  rewrite (@rowCount_map_const _ _ f (mk a) cs (some a) (fun x => H a x)).
  unfold rowCount at 2. cbn [filter].
  destruct (some a); cbn [length]; fold (rowCount some ls); lia.
Qed.

Lemma legacy_count_right {A B R} (some : B -> bool) (f : R -> bool)
  (mk : A -> B -> R) (ls : list A) (cs : list B) :
  (forall a b, f (mk a b) = some b) ->
  rowCount f (flat_map (fun a => map (mk a) cs) ls)
  = length ls * rowCount some cs.
Proof.
  intros H. induction ls as [|a ls IH]; cbn [flat_map length]; [reflexivity|].
  rewrite rowCount_concat, IH.
  assert (E : rowCount f (map (mk a) cs) = rowCount some cs).
  { unfold rowCount. clear IH. induction cs as [|c cs IHc]; cbn; [reflexivity|].
    rewrite H. destruct (some c); cbn; now rewrite IHc. }
  rewrite E. lia.
Qed.

Lemma legacy_orNull_length {B} (l : list B) :
  length (Legacy.orNull l) = Nat.max 1 (length l).
Proof.
  destruct l as [|b l]; [reflexivity|].
  unfold Legacy.orNull. rewrite length_map. cbn [length]. lia.
Qed.

Lemma legacy_orNull_some {B C} (col : B -> C) (l : list B) :
  rowCount (fun o => match option_map col o with
                     | Some _ => true
                     | None => false
                     end) (Legacy.orNull l)
  = length l.
Proof.
  destruct l as [|b l]; [reflexivity|].
  unfold Legacy.orNull.
  now rewrite (@rowCount_map_const _ _ _ Some (b :: l) true
                 (fun x => eq_refl)).
Qed.

Lemma legacy_distinct_In {K} (eqk : K -> K -> bool) (ks : list K) (x : K) :
  In x (Legacy.distinct eqk ks) -> In x ks.
Proof.
  induction ks as [|k ks IH]; cbn; [auto|].
  intros [->|H]; [now left|]. apply filter_In in H as [H _]. right. now apply IH.
Qed.

Lemma legacy_groupBy_one {A K} (key : A -> K) (eqk : K -> K -> bool)
  (rows : list A) (k : K) :
  (forall r, In r rows -> key r = k) -> eqk k k = true -> rows <> [] ->
  Legacy.groupBy key eqk rows = [rows].
Proof.
  intros Hk Hrefl Hne. unfold Legacy.groupBy.
  assert (Hd : Legacy.distinct eqk (map key rows) = [k]).
  { destruct rows as [|r rows]; [now destruct Hne|].
    cbn [map Legacy.distinct]. rewrite (Hk r (or_introl eq_refl)).
    f_equal. apply filter_nothing.
    intros x Hx. apply legacy_distinct_In in Hx.
    apply in_map_iff in Hx as [y [<- Hy]].
    rewrite (Hk y (or_intror Hy)), Hrefl. reflexivity. }
  rewrite Hd. cbn [map]. f_equal. apply filter_all.
  intros x Hx. now rewrite (Hk x Hx).
Qed.

Lemma legacy_orNull_nonempty {B} (l : list B) : Legacy.orNull l <> [].
Proof. destruct l; discriminate. Qed.

Lemma legacy_likes_of (p : Id) (ls : list ProjectLike.t) :
  length (filter (fun l => eqId p (ProjectLike.projectId l)) ls)
  = rowCount (like_of p) ls.
Proof.
  unfold rowCount. f_equal. apply filter_ext. intros l. apply eqId_sym.
Qed.

Lemma legacy_selectProject_row (d : DB) (p : Project.t) :
  NoDup (map Project.id (projects d)) -> NoDup (map User.id (users d)) ->
  In p (projects d) ->
  exists row,
    Legacy.selectProject d (Project.id p) = [row] /\
    Legacy.ProjectWithUser.id row = Project.id p /\
    Legacy.ProjectWithUser.likeCount row
    = Z.of_nat (rowCount (like_of (Project.id p)) (projectLikes d)
                * Nat.max 1 (rowCount (comment_of_project (Project.id p))
                                      (comments d))) /\
    Legacy.ProjectWithUser.commentCount row
    = Z.of_nat (rowCount (comment_of_project (Project.id p)) (comments d)
                * Nat.max 1 (rowCount (like_of (Project.id p))
                                      (projectLikes d))).
Proof.
  intros Hp Hu Hin. unfold Legacy.selectProject.
  rewrite legacy_where_selects by assumption.
  destruct (legacy_joinProjects_single d p Hu) as [uo E]. rewrite E. clear E.
  pose proof (legacy_likes_of (Project.id p) (projectLikes d)) as HL.
  pose proof (legacy_orNull_length
                (filter (fun l => eqId (Project.id p) (ProjectLike.projectId l))
                        (projectLikes d))) as HLlen.
  pose proof (legacy_orNull_some ProjectLike.id
                (filter (fun l => eqId (Project.id p) (ProjectLike.projectId l))
                        (projectLikes d))) as HLsome.
  pose proof (legacy_orNull_nonempty
                (filter (fun l => eqId (Project.id p) (ProjectLike.projectId l))
                        (projectLikes d))) as HLne.
  pose proof (legacy_orNull_length
                (filter (fun c => eqNullable (Comment.projectId c) (Project.id p))
                        (comments d))) as HClen.
  pose proof (legacy_orNull_some Comment.id
                (filter (fun c => eqNullable (Comment.projectId c) (Project.id p))
                        (comments d))) as HCsome.
  pose proof (legacy_orNull_nonempty
                (filter (fun c => eqNullable (Comment.projectId c) (Project.id p))
                        (comments d))) as HCne.
  change (length (filter (fun c => eqNullable (Comment.projectId c) (Project.id p))
                         (comments d)))
    with (rowCount (comment_of_project (Project.id p)) (comments d)) in *.
  rewrite HL in *. clear HL.
  remember (Legacy.orNull
              (filter (fun l => eqId (Project.id p) (ProjectLike.projectId l))
                      (projectLikes d))) as LO eqn:ELO. clear ELO.
  remember (Legacy.orNull
              (filter (fun c => eqNullable (Comment.projectId c) (Project.id p))
                      (comments d))) as CO eqn:ECO. clear ECO.
  remember (flat_map (fun lo => map (fun co => (p, uo, lo, co)) CO) LO)
    as rows eqn:Erows.
  assert (Hrow : forall r, In r rows -> Legacy.joinedProject r = p /\
                                        Legacy.joinedUser r = uo).
  { intros r Hr. rewrite Erows in Hr. apply in_flat_map in Hr as [lo [_ Hr]].
    apply in_map_iff in Hr as [co [<- _]]. split; reflexivity. }
  assert (Hne : rows <> []).
  { rewrite Erows. destruct LO as [|lo LO]; [now destruct HLne|].
    destruct CO as [|co CO]; [now destruct HCne|]. discriminate. }
  rewrite (@legacy_groupBy_one _ _ _ Legacy.eqKey rows
             (Project.id p, option_map User.id uo)); [| | |exact Hne].
  - cbn [flat_map]. rewrite app_nil_r.
    destruct rows as [|r rest] eqn:Er; [now destruct Hne|].
    destruct (Hrow r (or_introl eq_refl)) as [Hrp Hru].
    cbn [Legacy.selectGroup]. eexists. split; [reflexivity|].
    cbn [Legacy.ProjectWithUser.id Legacy.ProjectWithUser.likeCount
         Legacy.ProjectWithUser.commentCount].
    rewrite Hrp. split; [reflexivity|]. unfold Legacy.countColumn.
    rewrite Erows. split; f_equal.
    + rewrite (@legacy_count_left _ _ _
                 (fun lo => match option_map ProjectLike.id lo with
                            | Some _ => true
                            | None => false
                            end) _ (fun lo co => (p, uo, lo, co)) LO CO)
        by reflexivity.
      now rewrite HLsome, HClen.
    + rewrite (@legacy_count_right _ _ _
                 (fun co => match option_map Comment.id co with
                            | Some _ => true
                            | None => false
                            end) _ (fun lo co => (p, uo, lo, co)) LO CO)
        by reflexivity.
      rewrite HCsome, HLlen. lia.
  - intros r Hr. destruct (Hrow r Hr) as [-> ->]. reflexivity.
  - unfold Legacy.eqKey. cbn [fst snd]. rewrite eqId_refl.
    destruct (option_map User.id uo); [apply eqId_refl | reflexivity].
Qed.

(** X28.  The first storage layer multiplies its counts.  Its
    [getProject] counts like ids and comment ids over one join of the
    project with its likes and with its comments, so each like is
    repeated once per comment and each comment once per like: with the
    store serving and ids unique, a project with [likes] like rows and
    [cmts] comment rows is returned with
    [likeCount = likes * max 1 cmts] and
    [commentCount = cmts * max 1 likes].  The [likeCount] is the number
    of likes exactly when the project has no like or at most one
    comment. *)
Theorem legacy_getProject_multiplies_the_counts :
  forall (w : World) (p : Project.t),
    faults w = [] ->
    NoDup (map Project.id (projects (db w))) ->
    NoDup (map User.id (users (db w))) ->
    In p (projects (db w)) ->
    let likes := rowCount (like_of (Project.id p)) (projectLikes (db w)) in
    let cmts :=
      rowCount (comment_of_project (Project.id p)) (comments (db w)) in
    exists row,
      fst (Legacy.getProject (Project.id p) w) = Ok (Some row) /\
      Legacy.ProjectWithUser.id row = Project.id p /\
      Legacy.ProjectWithUser.likeCount row = Z.of_nat (likes * Nat.max 1 cmts) /\
      Legacy.ProjectWithUser.commentCount row
      = Z.of_nat (cmts * Nat.max 1 likes) /\
      (Legacy.ProjectWithUser.likeCount row = Z.of_nat likes <->
       likes = 0 \/ cmts <= 1).
Proof.
  intros w p Hf Hp Hu Hin. cbv zeta.
  destruct (legacy_selectProject_row (db w) p Hp Hu Hin)
    as [row [Hsel [Hid [Hl Hc]]]].
  exists row. split.
  - unfold Legacy.getProject. unfold_tasks. rewrite Hf. cbn.
    now rewrite Hsel.
  - split; [exact Hid|]. split; [exact Hl|]. split; [exact Hc|].
    rewrite Hl, Nat2Z.inj_iff.
    destruct (Nat.max_spec 1
                (rowCount (comment_of_project (Project.id p))
                          (comments (db w)))) as [[Hlt ->]|[Hge ->]]; nia.
Qed.

Lemma legacy_getProject_multiplies_the_counts_witness :
  let d :=
    set_comments
      [Comment.mk "c-1" "neat" (Some "p-2") None "u-bob" 6 6;
       Comment.mk "c-2" "thanks" (Some "p-2") None "u-alice" 7 7]
      Scenario.drifted_db in
  exists row,
    fst (Legacy.getProject "p-2" (Scenario.world d [])) = Ok (Some row) /\
    Legacy.ProjectWithUser.likeCount row = 4%Z /\
    Legacy.ProjectWithUser.commentCount row = 4%Z.
Proof.
  cbv zeta.
  destruct (@legacy_getProject_multiplies_the_counts
              (Scenario.world
                 (set_comments
                    [Comment.mk "c-1" "neat" (Some "p-2") None "u-bob" 6 6;
                     Comment.mk "c-2" "thanks" (Some "p-2") None "u-alice" 7 7]
                    Scenario.drifted_db) [])
              Scenario.projectR eq_refl)
    as [row [Hr [_ [Hl [Hc _]]]]].
  - cbn. constructor; [intros [H|[]]; discriminate|].
    constructor; [intros []|constructor].
  - cbn. constructor; [intros [H|[]]; discriminate|].
    constructor; [intros []|constructor].
  - right. left. reflexivity.
  - exists row. split; [exact Hr|]. split; [exact Hl | exact Hc].
Defined.
